(** * Hot state cache (package [hotcache]): shallow embedding and properties

    The development follows the Go sources of the package:
    - [cache.go]       configuration, snapshots, the cache record, readers;
    - [uniswap_v2.go]  the Uniswap V2 pair decoder and its price helpers;
    - [update.go]      [Update], [updateContract], [Validate],
                       [cleanupOldSnapshots] and [HandleReorg].

    Conventions.
    - [common.Hash] ([32]byte) and [common.Address] ([20]byte) are the
      unsigned integers their bytes denote in big-endian order, as [Z].
    - [uint64] values are [Z] with the wrap-around written out.
    - Go maps are [gmap]; the order in which [range] visits a map is left
      open (class [MapRange]).
    - A Go function returning [(v, error)] returns [error + v]; a function
      that can panic returns an [outcome]. *)

From Stdlib Require Import ZArith QArith Qabs Qpower Lia Lqa.
From stdpp Require Import base decidable option list gmap fin_maps strings pretty.

Local Open Scope Z_scope.

(** ** Fixed-width words and byte strings *)

Abbreviation common_Hash := Z (only parsing).
Abbreviation common_Address := Z (only parsing).

Definition HashLength : nat := 32.
Definition AddressLength : nat := 20.

(** The big-endian bytes of [x], exactly [n] of them (the low [8n] bits). *)
Fixpoint be_bytes (n : nat) (x : Z) : list Z :=
  match n with
  | O => []
  | S k => be_bytes k (x / 256) ++ [x mod 256]
  end.

(** [h.Bytes()] for [h : common.Hash]. *)
Definition Hash_Bytes (h : common_Hash) : list Z := be_bytes HashLength h.

(** [new(big.Int).SetBytes(b)]: [b] read as a big-endian unsigned integer. *)
Definition SetBytes (b : list Z) : Z := foldl (fun acc x => acc * 256 + x) 0 b.

(** [common.BytesToAddress(b)]: when [b] is longer than an address it is
    cropped from the left. *)
Definition BytesToAddress (b : list Z) : common_Address :=
  SetBytes (drop (length b - AddressLength)%nat b).

(** [common.BigToHash(b)] for a non-negative [b]: its bytes, cropped from the
    left to 32. *)
Definition BigToHash (b : Z) : common_Hash := SetBytes (be_bytes HashLength b).

(** [Uint64] of a [big.Int]: the low 64 bits of the magnitude. *)
Definition Uint64 (x : Z) : Z := Z.abs x mod 2 ^ 64.

(** Conversion [uint64(i)] of a signed [int]. *)
Definition uint64_of_int (i : Z) : Z := i mod 2 ^ 64.

(** Conversion [uint32(u)] of a [uint64]. *)
Definition uint32_of_uint64 (u : Z) : Z := u mod 2 ^ 32.

(** [atomic.Uint64.Add(1)]. *)
Definition atomic_add1 (x : Z) : Z := (x + 1) mod 2 ^ 64.

(** ** Errors *)

Inductive error : Type :=
| errorString (msg : string)
    (** [errors.New(msg)] and [fmt.Errorf(msg)] without verbs *)
| wrapError (prefix : string) (inner : error)
    (** [fmt.Errorf(prefix ++ ": %w", inner)] *)
| inconsistentStateError (contract slot cached canonical : Z)
    (** [fmt.Errorf("%w: contract=%s slot=%s cached=%s canonical=%s",
        ErrInconsistentState, ...)], keeping the four values that are
        printed in hexadecimal. *).

Definition ErrNotFound : error := errorString "contract not in cache".
Definition ErrNotWatched : error := errorString "contract not in watchlist".

(** [errors.Is(e, ErrInconsistentState)]. *)
Fixpoint is_ErrInconsistentState (e : error) : bool :=
  match e with
  | errorString _ => false
  | wrapError _ inner => is_ErrInconsistentState inner
  | inconsistentStateError _ _ _ _ => true
  end.

(** ** Contract types *)

Inductive ContractType : Type :=
| ContractTypeUnknown
| ContractTypeUniswapV2
| ContractTypeUniswapV3
| ContractTypeAave
| ContractTypeCurve.

Definition ContractType_String (t : ContractType) : string :=
  match t with
  | ContractTypeUniswapV2 => "UniswapV2"
  | ContractTypeUniswapV3 => "UniswapV3"
  | ContractTypeAave => "Aave"
  | ContractTypeCurve => "Curve"
  | _ => "Unknown"
  end.

(** ** Uniswap V2 decoder ([uniswap_v2.go]) *)

Definition uniswapV2SlotToken0 : common_Hash := BigToHash 6.
Definition uniswapV2SlotToken1 : common_Hash := BigToHash 7.
Definition uniswapV2SlotReserves : common_Hash := BigToHash 8.
Definition uniswapV2SlotPrice0Cumulative : common_Hash := BigToHash 9.
Definition uniswapV2SlotPrice1Cumulative : common_Hash := BigToHash 10.
Definition uniswapV2SlotKLast : common_Hash := BigToHash 11.

Record UniswapV2State : Type := mkUniswapV2State {
  Token0 : common_Address;
  Token1 : common_Address;
  Reserve0 : Z;
  Reserve1 : Z;
  BlockTimestampLast : Z;
  Price0Cumulative : Z;
  Price1Cumulative : Z;
  KLast : Z
}.

Definition set_Token0 (v : Z) (s : UniswapV2State) : UniswapV2State :=
  mkUniswapV2State v (Token1 s) (Reserve0 s) (Reserve1 s) (BlockTimestampLast s)
    (Price0Cumulative s) (Price1Cumulative s) (KLast s).
Definition set_Token1 (v : Z) (s : UniswapV2State) : UniswapV2State :=
  mkUniswapV2State (Token0 s) v (Reserve0 s) (Reserve1 s) (BlockTimestampLast s)
    (Price0Cumulative s) (Price1Cumulative s) (KLast s).
Definition set_Reserve0 (v : Z) (s : UniswapV2State) : UniswapV2State :=
  mkUniswapV2State (Token0 s) (Token1 s) v (Reserve1 s) (BlockTimestampLast s)
    (Price0Cumulative s) (Price1Cumulative s) (KLast s).
Definition set_Reserve1 (v : Z) (s : UniswapV2State) : UniswapV2State :=
  mkUniswapV2State (Token0 s) (Token1 s) (Reserve0 s) v (BlockTimestampLast s)
    (Price0Cumulative s) (Price1Cumulative s) (KLast s).
Definition set_BlockTimestampLast (v : Z) (s : UniswapV2State) : UniswapV2State :=
  mkUniswapV2State (Token0 s) (Token1 s) (Reserve0 s) (Reserve1 s) v
    (Price0Cumulative s) (Price1Cumulative s) (KLast s).
Definition set_Price0Cumulative (v : Z) (s : UniswapV2State) : UniswapV2State :=
  mkUniswapV2State (Token0 s) (Token1 s) (Reserve0 s) (Reserve1 s)
    (BlockTimestampLast s) v (Price1Cumulative s) (KLast s).
Definition set_Price1Cumulative (v : Z) (s : UniswapV2State) : UniswapV2State :=
  mkUniswapV2State (Token0 s) (Token1 s) (Reserve0 s) (Reserve1 s)
    (BlockTimestampLast s) (Price0Cumulative s) v (KLast s).
Definition set_KLast (v : Z) (s : UniswapV2State) : UniswapV2State :=
  mkUniswapV2State (Token0 s) (Token1 s) (Reserve0 s) (Reserve1 s)
    (BlockTimestampLast s) (Price0Cumulative s) (Price1Cumulative s) v.

(** The state [Decode] starts from: zero addresses, fresh [big.Int]s. *)
Definition UniswapV2State_new : UniswapV2State :=
  mkUniswapV2State 0 0 0 0 0 0 0 0.

(** The body of the [len(bytes) == 32] branch: the three packed fields of
    the reserves word. *)
Definition decodeReserves (bytes : list Z) (state : UniswapV2State) : UniswapV2State :=
  let fullValue := SetBytes bytes in
  let mask112 := Z.shiftl 1 112 - 1 in
  let state := set_Reserve0 (Z.land fullValue mask112) state in
  let shifted := Z.shiftr fullValue 112 in
  let state := set_Reserve1 (Z.land shifted mask112) state in
  let timestampShifted := Z.shiftr fullValue 224 in
  set_BlockTimestampLast (uint32_of_uint64 (Uint64 timestampShifted)) state.

(** [UniswapV2Decoder.Decode]. *)
Definition UniswapV2Decoder_Decode (slots : gmap Z Z) : error + UniswapV2State :=
  let state := UniswapV2State_new in
  match slots !! uniswapV2SlotToken0 with
  | None => inl (errorString "missing token0 slot")
  | Some token0Value =>
    let state := set_Token0 (BytesToAddress (Hash_Bytes token0Value)) state in
    match slots !! uniswapV2SlotToken1 with
    | None => inl (errorString "missing token1 slot")
    | Some token1Value =>
      let state := set_Token1 (BytesToAddress (Hash_Bytes token1Value)) state in
      match slots !! uniswapV2SlotReserves with
      | None => inl (errorString "missing reserves slot")
      | Some reservesValue =>
        let bytes := Hash_Bytes reservesValue in
        let state :=
          if (length bytes =? 32)%nat then decodeReserves bytes state else state in
        let state :=
          match slots !! uniswapV2SlotPrice0Cumulative with
          | Some price0Value => set_Price0Cumulative (SetBytes (Hash_Bytes price0Value)) state
          | None => state
          end in
        let state :=
          match slots !! uniswapV2SlotPrice1Cumulative with
          | Some price1Value => set_Price1Cumulative (SetBytes (Hash_Bytes price1Value)) state
          | None => state
          end in
        let state :=
          match slots !! uniswapV2SlotKLast with
          | Some kLastValue => set_KLast (SetBytes (Hash_Bytes kLastValue)) state
          | None => state
          end in
        inr state
      end
    end
  end.

(** [UniswapV2State.String] is only a rendering and is not modelled. *)

(** ** The decoder interface and the cache ([cache.go]) *)

(** A value of Go's [interface{}] as returned by a decoder. *)
Inductive DecodedValue : Type :=
| DecodedUniswapV2 (s : UniswapV2State)   (** a [*UniswapV2State] *)
| DecodedOther (payload : Z).             (** any other dynamic value *)

(** [interface ContractDecoder]; [None] is the nil interface value. *)
Record ContractDecoder : Type := mkContractDecoder {
  dec_Type : ContractType;
  dec_Decode : gmap Z Z -> error + option DecodedValue;
  dec_RequiredSlots : list common_Hash
}.

Definition UniswapV2Decoder : ContractDecoder := {|
  dec_Type := ContractTypeUniswapV2;
  dec_Decode := fun slots =>
    match UniswapV2Decoder_Decode slots with
    | inl err => inl err
    | inr state => inr (Some (DecodedUniswapV2 state))
    end;
  dec_RequiredSlots :=
    [uniswapV2SlotToken0; uniswapV2SlotToken1; uniswapV2SlotReserves;
     uniswapV2SlotPrice0Cumulative; uniswapV2SlotPrice1Cumulative;
     uniswapV2SlotKLast]
|}.

Record Config : Type := mkConfig {
  Enabled : bool;
  Watchlist : list common_Address;
  ShadowMode : bool;
  MaxSnapshots : Z    (** Go [int] *)
}.

Definition DefaultConfig : Config :=
  {| Enabled := false; Watchlist := []; ShadowMode := true; MaxSnapshots := 64 |}.

Record Statistics : Type := mkStatistics {
  Hits : Z;
  Misses : Z;
  Updates : Z;
  ValidationErrors : Z;
  ReorgCount : Z
}.

Record ContractState : Type := mkContractState {
  Address : common_Address;
  Type_ : ContractType;
  RawSlots : gmap Z Z;
  Decoded : option DecodedValue;
  LastUpdated : Z
}.

Record Snapshot : Type := mkSnapshot {
  BlockNumber : Z;
  BlockHash : common_Hash;
  BlockTime : Z;
  Contracts : gmap Z ContractState
}.

(** [current] is an atomic pointer to a snapshot that is never written after
    it is published, so the pointer is modelled by the snapshot it points
    to. The two mutexes guard single-writer sections and carry no state. *)
Record Cache : Type := mkCache {
  config : Config;
  current : Snapshot;
  snapshots : gmap Z Snapshot;
  watchlist : gmap Z bool;
  decoders : gmap Z ContractDecoder;
  stats : Statistics
}.

Definition set_current (s : Snapshot) (c : Cache) : Cache :=
  mkCache (config c) s (snapshots c) (watchlist c) (decoders c) (stats c).
Definition set_snapshots (m : gmap Z Snapshot) (c : Cache) : Cache :=
  mkCache (config c) (current c) m (watchlist c) (decoders c) (stats c).
Definition set_decoders (m : gmap Z ContractDecoder) (c : Cache) : Cache :=
  mkCache (config c) (current c) (snapshots c) (watchlist c) m (stats c).
Definition set_stats (st : Statistics) (c : Cache) : Cache :=
  mkCache (config c) (current c) (snapshots c) (watchlist c) (decoders c) st.

Definition add_Hits (st : Statistics) : Statistics :=
  mkStatistics (atomic_add1 (Hits st)) (Misses st) (Updates st)
    (ValidationErrors st) (ReorgCount st).
Definition add_Misses (st : Statistics) : Statistics :=
  mkStatistics (Hits st) (atomic_add1 (Misses st)) (Updates st)
    (ValidationErrors st) (ReorgCount st).
Definition add_Updates (st : Statistics) : Statistics :=
  mkStatistics (Hits st) (Misses st) (atomic_add1 (Updates st))
    (ValidationErrors st) (ReorgCount st).
Definition add_ValidationErrors (st : Statistics) : Statistics :=
  mkStatistics (Hits st) (Misses st) (Updates st)
    (atomic_add1 (ValidationErrors st)) (ReorgCount st).
Definition add_ReorgCount (st : Statistics) : Statistics :=
  mkStatistics (Hits st) (Misses st) (Updates st)
    (ValidationErrors st) (atomic_add1 (ReorgCount st)).

(** [New]. *)
Definition New (config : Config) : Cache :=
  let config :=
    if MaxSnapshots config =? 0
    then mkConfig (Enabled config) (Watchlist config) (ShadowMode config) 64
    else config in
  let watchlist :=
    foldl (fun (w : gmap Z bool) addr => <[addr := true]> w) ∅ (Watchlist config) in
  let initial := mkSnapshot 0 0 0 ∅ in
  mkCache config initial ∅ watchlist ∅ (mkStatistics 0 0 0 0 0).

Definition IsEnabled (c : Cache) : bool := Enabled (config c).

(** Indexing a [map[Address]bool] gives [false] for an absent key. *)
Definition IsWatched (c : Cache) (addr : common_Address) : bool :=
  default false (watchlist c !! addr).

Definition RegisterDecoder (c : Cache) (addr : common_Address)
    (decoder : ContractDecoder) : Cache :=
  set_decoders (<[addr := decoder]> (decoders c)) c.

Definition GetSnapshot (c : Cache) : Snapshot := current c.

Definition GetContractState (c : Cache) (addr : common_Address)
    : Cache * (error + ContractState) :=
  let snapshot := GetSnapshot c in
  match Contracts snapshot !! addr with
  | None => (set_stats (add_Misses (stats c)) c, inl ErrNotFound)
  | Some state => (set_stats (add_Hits (stats c)) c, inr state)
  end.

Definition GetStatistics (c : Cache) : Statistics := stats c.

(** ** Block headers and the state reader ([update.go]) *)

(** The fields of [types.Header] the package can see. [Hash] stands for the
    method [Hash()], [Number] is a [big.Int]. *)
Record Header : Type := mkHeader {
  ParentHash : common_Hash;
  Number : Z;
  Time : Z;
  Hash : common_Hash
}.

(** [interface StateReader]: its one method [GetState]. *)
Definition StateReader : Type := common_Address -> common_Hash -> common_Hash.

(** The result of a call that may panic. The cache is shared and mutated in
    place, so its state at the time of the panic is kept next to it. *)
Inductive outcome : Type :=
| Returned (err : option error)
| Panicked (msg : string).

(** The order in which [for k, v := range m] visits a Go map is not
    specified: any enumeration of the entries. *)
Class MapRange : Type := {
  range : forall {V : Type}, gmap Z V -> list (Z * V);
  range_perm : forall (V : Type) (m : gmap Z V), range m ≡ₚ map_to_list m
}.

(** One particular order, used to run the model on examples. *)
#[export] Instance MapRange_default : MapRange | 100 :=
  {| range := fun V m => map_to_list m;
     range_perm := fun V m => Permutation_refl (map_to_list m) |}.

Section WithRange.
Context {MR : MapRange}.

(** [cleanupOldSnapshots]: the loop deletes the entry it is visiting. *)
Definition cleanupOldSnapshots (c : Cache) (currentBlock : Z) : Cache :=
  if Z.of_nat (size (snapshots c)) <=? uint64_of_int (MaxSnapshots (config c))
  then c
  else
    let cutoff :=
      if currentBlock >? uint64_of_int (MaxSnapshots (config c))
      then currentBlock - uint64_of_int (MaxSnapshots (config c))
      else 0 in
    let m :=
      foldl (fun (m : gmap Z Snapshot) '(hash, snapshot) =>
               if BlockNumber snapshot <? cutoff then delete hash m else m)
            (snapshots c) (range (snapshots c)) in
    set_snapshots m c.

(** "Read required slots": the loop of [updateContract] that fills
    [RawSlots] from the state reader. *)
Definition readRequiredSlots (addr : common_Address) (stateDB : StateReader)
    (rawSlots : gmap Z Z) (slots : list common_Hash) : gmap Z Z :=
  foldl (fun (raw : gmap Z Z) slot => <[slot := stateDB addr slot]> raw)
        rawSlots slots.

(** [updateContract]. *)
Definition updateContract (c : Cache) (addr : common_Address)
    (stateDB : StateReader) : error + ContractState :=
  let contractState := mkContractState addr ContractTypeUnknown ∅ None 0 in
  match decoders c !! addr with
  | Some decoder =>
    let rawSlots :=
      readRequiredSlots addr stateDB (RawSlots contractState)
        (dec_RequiredSlots decoder) in
    match dec_Decode decoder rawSlots with
    | inl err =>
      inl (wrapError ("failed to decode " +:+ ContractType_String (dec_Type decoder)) err)
    | inr decoded =>
      inr (mkContractState addr (dec_Type decoder) rawSlots decoded 0)
    end
  | None => inr contractState
  end.

(** The loop of [Update] over the watchlist: a failed contract is skipped. *)
Definition updateContracts (c : Cache) (stateDB : StateReader)
    (contracts : gmap Z ContractState) (entries : list (Z * bool))
    : gmap Z ContractState :=
  foldl (fun (contracts : gmap Z ContractState) '(addr, _) =>
           match updateContract c addr stateDB with
           | inl err => contracts
           | inr contractState => <[addr := contractState]> contracts
           end)
        contracts entries.

(** [Update]. *)
Definition Update (c : Cache) (block : Header) (stateDB : StateReader)
    : Cache * option error :=
  if negb (Enabled (config c)) then (c, None)
  else
    let c := set_stats (add_Updates (stats c)) c in
    let newSnapshot :=
      mkSnapshot (Uint64 (Number block)) (Hash block) (Time block)
        (updateContracts c stateDB ∅ (range (watchlist c))) in
    let c := set_snapshots (<[Hash block := newSnapshot]> (snapshots c)) c in
    let c := cleanupOldSnapshots c (Uint64 (Number block)) in
    let c := set_current newSnapshot c in
    (c, None).

(** The inner loop of [Validate] and the loop of [ValidateContract]: the
    first slot found to differ, as [(slot, cached, canonical)]. *)
Fixpoint validateSlots (addr : common_Address) (stateDB : StateReader)
    (slots : list (Z * Z)) : option (Z * Z * Z) :=
  match slots with
  | [] => None
  | (slot, cachedValue) :: rest =>
    let canonicalValue := stateDB addr slot in
    if decide (cachedValue ≠ canonicalValue)
    then Some (slot, cachedValue, canonicalValue)
    else validateSlots addr stateDB rest
  end.

(** The outer loop of [Validate]. *)
Fixpoint validateContracts (stateDB : StateReader)
    (contracts : list (Z * ContractState)) : option error :=
  match contracts with
  | [] => None
  | (addr, cachedState) :: rest =>
    match validateSlots addr stateDB (range (RawSlots cachedState)) with
    | Some (slot, cachedValue, canonicalValue) =>
      Some (inconsistentStateError addr slot cachedValue canonicalValue)
    | None => validateContracts stateDB rest
    end
  end.

(** [Validate]. The counter is bumped just before the error is returned. *)
Definition Validate (c : Cache) (stateDB : StateReader) : Cache * option error :=
  if negb (ShadowMode (config c)) then (c, None)
  else
    let snapshot := GetSnapshot c in
    match validateContracts stateDB (range (Contracts snapshot)) with
    | Some err => (set_stats (add_ValidationErrors (stats c)) c, Some err)
    | None => (c, None)
    end.

(** [ValidateContract]. *)
Definition ValidateContract (c : Cache) (addr : common_Address)
    (stateDB : StateReader) : Cache * option error :=
  if negb (ShadowMode (config c)) then (c, None)
  else
    match GetContractState c addr with
    | (c, inl err) => (c, Some err)
    | (c, inr cachedState) =>
      match validateSlots addr stateDB (range (RawSlots cachedState)) with
      | Some (slot, cachedValue, canonicalValue) =>
        (set_stats (add_ValidationErrors (stats c)) c,
         Some (inconsistentStateError addr slot cachedValue canonicalValue))
      | None => (c, None)
      end
    end.

(** [s[i]] on a slice: a run-time panic when [i] is out of range. *)
Definition index {A : Type} (s : list A) (i : Z) : option A :=
  if i <? 0 then None else s !! Z.to_nat i.

(** The inner loop of the ancestor search, [j] running from the tip of
    [newChain] down: [newRev] is the part of the chain still to visit. *)
Fixpoint scanNew (oldHash : common_Hash) (newRev : list Header)
    (commonHash : common_Hash) : common_Hash :=
  match newRev with
  | [] => commonHash
  | newHeader :: rest =>
    if decide (oldHash = Hash newHeader) then oldHash
    else scanNew oldHash rest commonHash
  end.

(** The outer loop, [i] running from the tip of [oldChain] down; it stops
    as soon as [commonHash] is not the zero hash. *)
Fixpoint scanOld (oldRev newRev : list Header) (commonHash : common_Hash)
    : common_Hash :=
  match oldRev with
  | [] => commonHash
  | oldHeader :: rest =>
    let commonHash := scanNew (Hash oldHeader) newRev commonHash in
    if decide (commonHash ≠ 0) then commonHash
    else scanOld rest newRev commonHash
  end.

(** "Find common ancestor": [commonHash] starts as the zero hash. *)
Definition findCommonAncestor (oldChain newChain : list Header) : common_Hash :=
  scanOld (reverse oldChain) (reverse newChain) 0.

(** "Replay new chain": headers at or below the ancestor are skipped, an
    error of [Update] is wrapped and returned at once. *)
Fixpoint replayNewChain (c : Cache) (commonSnapshot : Snapshot)
    (headers : list Header) (stateDB : StateReader) : Cache * option error :=
  match headers with
  | [] => (c, None)
  | header :: rest =>
    if Uint64 (Number header) <=? BlockNumber commonSnapshot
    then replayNewChain c commonSnapshot rest stateDB
    else
      match Update c header stateDB with
      | (c, Some err) =>
        (c, Some (wrapError
                    ("failed to replay block " +:+ pretty (Uint64 (Number header)))
                    err))
      | (c, None) => replayNewChain c commonSnapshot rest stateDB
      end
  end.

Definition panic_index : string := "runtime error: index out of range".

(** [HandleReorg]. *)
Definition HandleReorg (c : Cache) (oldChain newChain : list Header)
    (stateDB : StateReader) : Cache * outcome :=
  if negb (Enabled (config c)) then (c, Returned None)
  else
    let c := set_stats (add_ReorgCount (stats c)) c in
    let commonHash := findCommonAncestor oldChain newChain in
    match snapshots c !! commonHash with
    | None =>
      match index newChain (Z.of_nat (length newChain) - 1) with
      | None => (c, Panicked panic_index)
      | Some tip =>
        match Update c tip stateDB with
        | (c, err) => (c, Returned err)
        end
      end
    | Some commonSnapshot =>
      let c := set_current commonSnapshot c in
      match replayNewChain c commonSnapshot newChain stateDB with
      | (c, Some err) => (c, Returned (Some err))
      | (c, None) =>
        (* the arguments of the closing log call are evaluated *)
        match index newChain (Z.of_nat (length newChain) - 1) with
        | None => (c, Panicked panic_index)
        | Some newHead => (c, Returned None)
        end
      end
    end.

(** The snapshot [Update] builds for [block]. *)
Definition publishedSnapshot (c : Cache) (block : Header) (stateDB : StateReader)
    : Snapshot :=
  mkSnapshot (Uint64 (Number block)) (Hash block) (Time block)
    (updateContracts c stateDB ∅ (range (watchlist c))).

(** The cache after [Update] has been called for each header in turn. *)
Definition ingest (c : Cache) (headers : list Header) (stateDB : StateReader) : Cache :=
  foldl (fun c header => (Update c header stateDB).1) c headers.

End WithRange.

(** ** Price helpers ([uniswap_v2.go]) *)

(** The prices are [big.Float]s. A [big.Float] is a sign, a mantissa of at
    most [prec] bits and a binary exponent, or an infinity; here a finite
    one is the number [mant * 2^exp] with a signed integer [mant]. Results
    are correctly rounded to [prec] bits, to nearest with ties to even (the
    rounding mode of a zero-value [Float]). The 32-bit range of the exponent
    is not modelled. *)
Inductive Float : Type :=
| finite (prec mant exp : Z)
| infinite (prec : Z) (neg : bool).

Definition Float_prec (x : Float) : Z :=
  match x with
  | finite prec _ _ => prec
  | infinite prec _ => prec
  end.


(** The rational a finite [Float] denotes (0 for an infinity). *)
Definition Float_value (x : Float) : Q :=
  match x with
  | finite _ mant exp => (inject_Z mant * 2 ^ exp)%Q
  | infinite _ _ => 0%Q
  end.

(** [big.NewFloat(0)]: precision 53. *)
Definition NewFloat_0 : Float := finite 53 0 0.

(** [x.BitLen()]. *)
Definition BitLen (x : Z) : Z := if x =? 0 then 0 else Z.log2 (Z.abs x) + 1.

(** [new(big.Float).SetInt(x)]: a zero precision becomes the larger of
    [x.BitLen()] and 64, so [x] is held exactly. *)
Definition SetInt (x : Z) : Float := finite (Z.max (BitLen x) 64) x 0.

(** [N / D] rounded to the nearest integer, a tie going to the even one
    ([0 <= N], [0 < D]). *)
Definition roundNearestEven (N D : Z) : Z :=
  let q := N / D in
  let r := N mod D in
  if 2 * r <? D then q
  else if D <? 2 * r then q + 1
  else if Z.even q then q else q + 1.

(** The integer [E] with [2^E <= n / d < 2^(E+1)] ([0 < n], [0 < d]). *)
Definition floorLog2Quo (n d : Z) : Z :=
  let k := Z.log2 n - Z.log2 d in
  if (if 0 <=? k then n <? d * 2 ^ k else n * 2 ^ (- k) <? d) then k - 1 else k.

(** [n / d] rounded to [p] bits: the mantissa and the exponent of its last
    bit. *)
Definition quoRound (p n d : Z) : Z * Z :=
  let e := floorLog2Quo n d - (p - 1) in
  let m :=
    if 0 <=? e then roundNearestEven n (d * 2 ^ e)
    else roundNearestEven (n * 2 ^ (- e)) d in
  (m, e).

(** [new(big.Float).Quo(x, y)]: the precision of the result is the larger of
    the operands' precisions. [None] is the panic with [ErrNaN] (both
    operands zero, or both infinite). *)
Definition Quo (x y : Float) : option Float :=
  let p := Z.max (Float_prec x) (Float_prec y) in
  match x, y with
  | finite _ mx ex, finite _ my ey =>
    if mx =? 0 then (if my =? 0 then None else Some (finite p 0 0))
    else if my =? 0 then Some (infinite p (xorb (mx <? 0) (my <? 0)))
    else
      let '(m, e) := quoRound p (Z.abs mx) (Z.abs my) in
      Some (finite p (Z.sgn mx * Z.sgn my * m) (e + ex - ey))
  | infinite _ _, infinite _ _ => None
  | infinite _ nx, finite _ my _ => Some (infinite p (xorb nx (my <? 0)))
  | finite _ _ _, infinite _ _ => Some (finite p 0 0)
  end.


(** [UniswapV2State.GetPrice]; [None] is a panic. *)
Definition GetPrice (s : UniswapV2State) : option Float :=
  if Z.sgn (Reserve0 s) =? 0 then Some NewFloat_0
  else
    let reserve0Float := SetInt (Reserve0 s) in
    let reserve1Float := SetInt (Reserve1 s) in
    Quo reserve1Float reserve0Float.

(** [UniswapV2State.GetInversePrice]. *)
Definition GetInversePrice (s : UniswapV2State) : option Float :=
  if Z.sgn (Reserve1 s) =? 0 then Some NewFloat_0
  else
    let reserve0Float := SetInt (Reserve0 s) in
    let reserve1Float := SetInt (Reserve1 s) in
    Quo reserve0Float reserve1Float.

(** ** Auxiliary definitions for the statements and the examples *)

(** The three optional assignments at the end of [Decode]. *)
Definition setOptional (set : Z -> UniswapV2State -> UniswapV2State)
    (slots : gmap Z Z) (slot : Z) (state : UniswapV2State) : UniswapV2State :=
  match slots !! slot with
  | Some v => set (SetBytes (Hash_Bytes v)) state
  | None => state
  end.

(** The cut-off block number computed by [cleanupOldSnapshots]. *)
Definition cutoffOf (c : Cache) (currentBlock : Z) : Z :=
  if currentBlock >? uint64_of_int (MaxSnapshots (config c))
  then currentBlock - uint64_of_int (MaxSnapshots (config c))
  else 0.

(** A reader that finds nothing: every slot is the zero word. *)
Definition zeroReader : StateReader := fun _ _ => 0.

(** Retention scenario: [MaxSnapshots = 2], blocks 1 to 4. *)
Definition retentionConfig : Config := mkConfig true [] true 2.
Definition retH1 : common_Hash := 0x1001.
Definition retH2 : common_Hash := 0x1002.
Definition retH3 : common_Hash := 0x1003.
Definition retH4 : common_Hash := 0x1004.
Definition retBlock1 : Header := mkHeader 0x1000 1 1700000001 retH1.
Definition retBlock2 : Header := mkHeader retH1 2 1700000002 retH2.
Definition retBlock3 : Header := mkHeader retH2 3 1700000003 retH3.
Definition retBlock4 : Header := mkHeader retH3 4 1700000004 retH4.

(** Reorg scenario with concrete headers: H1 has parent H0, the branches
    a and b both start from H1. *)
Definition reorgConfig : Config := mkConfig true [] true 64.
Definition reorgH0 : common_Hash := 0x2000.
Definition reorgH1 : common_Hash := 0x2001.
Definition reorgH2a : common_Hash := 0x2a02.
Definition reorgH3a : common_Hash := 0x2a03.
Definition reorgH2b : common_Hash := 0x2b02.
Definition reorgH3b : common_Hash := 0x2b03.
Definition reorgBlock1 : Header := mkHeader reorgH0 1 1700000001 reorgH1.
Definition reorgBlock2a : Header := mkHeader reorgH1 2 1700000002 reorgH2a.
Definition reorgBlock3a : Header := mkHeader reorgH2a 3 1700000003 reorgH3a.
Definition reorgBlock2b : Header := mkHeader reorgH1 2 1700000012 reorgH2b.
Definition reorgBlock3b : Header := mkHeader reorgH2b 3 1700000013 reorgH3b.

(** [cached] is the value the current snapshot holds for [(addr, slot)]. *)
Definition cachedSlot (c : Cache) (addr slot cached : Z) : Prop :=
  exists cachedState,
    Contracts (current c) !! addr = Some cachedState /\
    RawSlots cachedState !! slot = Some cached.

(** Some cached slot differs from what the reader returns for it. *)
Definition drifted (c : Cache) (stateDB : StateReader) : Prop :=
  exists addr slot cached,
    cachedSlot c addr slot cached /\ cached ≠ stateDB addr slot.



(** Three watched addresses: a pool with the Uniswap V2 decoder, an address
    whose decoder always fails, and one without a decoder. *)
Definition poolAddr : common_Address := 0xB4e16d0168e52d35CaCD2c6185b44281Ec28C9Dc.
Definition brokenAddr : common_Address := 0xdead.
Definition plainAddr : common_Address := 0xbeef.

Definition failingDecoder : ContractDecoder :=
  mkContractDecoder ContractTypeAave
    (fun _ => inl (errorString "unsupported layout")) [1].

Definition outcomeCache : Cache :=
  RegisterDecoder
    (RegisterDecoder
       (New (mkConfig true [poolAddr; brokenAddr; plainAddr] true 64))
       poolAddr UniswapV2Decoder)
    brokenAddr failingDecoder.

(** The reader of the basic-ingest scenario. *)
Definition poolReader : StateReader := fun addr slot =>
  if decide (addr = poolAddr) then
    if decide (slot = 6) then 0xA0b86991c6218b36c1d19D4a2e9Eb0cE3606eB48
    else if decide (slot = 7) then 0xC02aaA39b223FE8D0A0e5C4F27eAD9083C756Cc2
    else if decide (slot = 8) then 1000000 + 500 * 2 ^ 112 + 1234567890 * 2 ^ 224
    else if decide (slot = 9) then 123456
    else if decide (slot = 10) then 789012
    else if decide (slot = 11) then 999999
    else 0
  else 0.

Definition block100 : Header := mkHeader 0x99 100 1700000100 0x100.

(** Reorg with a missing ancestor: [MaxSnapshots = 1], old = [H3a],
    new = [H5b]. *)
Definition reorgBlock5b : Header := mkHeader 0x2b04 5 1700000015 0x2b05.
Definition smallCache : Cache :=
  ingest (New (mkConfig true [] true 1))
    [reorgBlock1; reorgBlock2a; reorgBlock3a] zeroReader.

(** Shadow validation detects drift: after the basic ingest the reader
    changes its answer for slot 6 of the pool. *)
Definition driftedReader : StateReader := fun addr slot =>
  if decide (addr = poolAddr /\ slot = 6) then 0x1234 else poolReader addr slot.

(** ** Further readers of the cache ([cache.go]) *)

(** [hex.EncodeToString] on one byte: two lower-case digits. *)
Definition hexDigit (n : Z) : string :=
  String.substring (Z.to_nat n) 1 "0123456789abcdef".

Definition byte_hex (b : Z) : string := hexDigit (b / 16) +:+ hexDigit (b mod 16).

(** [h.Hex()] for [h : common.Hash]: ["0x"] and the 64 digits. *)
Definition Hash_Hex (h : common_Hash) : string :=
  "0x" +:+ foldr (fun b acc => byte_hex b +:+ acc) EmptyString (Hash_Bytes h).

(** [GetRawSlot]: the contract is looked up through [GetContractState],
    which counts the hit or the miss. *)
Definition GetRawSlot (c : Cache) (addr : common_Address) (slot : common_Hash)
    : Cache * (error + common_Hash) :=
  match GetContractState c addr with
  | (c, inl err) => (c, inl err)
  | (c, inr state) =>
    match RawSlots state !! slot with
    | None => (c, inl (errorString ("slot " +:+ Hash_Hex slot +:+ " not found")))
    | Some value => (c, inr value)
    end
  end.

(** ** The node-level accessors ([core], hot cache part of [BlockChain]) *)

(** Of [BlockChain] only the field [hotCache] is used; it is a pointer that
    may be nil, and the cache behind it is shared. *)
Record BlockChain : Type := mkBlockChain {
  hotCache : option Cache
}.

Definition ErrHotCacheDisabled : error := errorString "hot cache is disabled".
Definition ErrHotCacheNotFound : error := errorString "contract not in hot cache".

#[export] Instance error_eq_dec : EqDecision error.
Proof. solve_decision. Defined.

(** [errors.Is(err, target)]: [err] or an error it wraps is [target]. *)
Fixpoint errors_Is (err target : error) : bool :=
  if decide (err = target) then true
  else
    match err with
    | wrapError _ inner => errors_Is inner target
    | _ => false
    end.

(** [HotCache]: nil when there is no cache or it is disabled. *)
Definition HotCache (bc : BlockChain) : option Cache :=
  match hotCache bc with
  | None => None
  | Some c => if negb (IsEnabled c) then None else Some c
  end.

Definition GetHotCacheSnapshot (bc : BlockChain) : error + Snapshot :=
  match hotCache bc with
  | None => inl ErrHotCacheDisabled
  | Some c =>
    if negb (IsEnabled c) then inl ErrHotCacheDisabled
    else inr (GetSnapshot c)
  end.

Definition GetHotCachedContractState (bc : BlockChain) (addr : common_Address)
    : BlockChain * (error + ContractState) :=
  match hotCache bc with
  | None => (bc, inl ErrHotCacheDisabled)
  | Some c =>
    if negb (IsEnabled c) then (bc, inl ErrHotCacheDisabled)
    else
      match GetContractState c addr with
      | (c, inl err) =>
        if errors_Is err ErrNotFound
        then (mkBlockChain (Some c), inl ErrHotCacheNotFound)
        else (mkBlockChain (Some c), inl err)
      | (c, inr state) => (mkBlockChain (Some c), inr state)
      end
  end.

Definition GetHotCachedUniswapV2State (bc : BlockChain) (addr : common_Address)
    : BlockChain * (error + UniswapV2State) :=
  match GetHotCachedContractState bc addr with
  | (bc, inl err) => (bc, inl err)
  | (bc, inr state) =>
    match Type_ state with
    | ContractTypeUniswapV2 =>
      match Decoded state with
      | None => (bc, inl (errorString "contract state not decoded"))
      | Some (DecodedUniswapV2 v2State) => (bc, inr v2State)
      | Some _ => (bc, inl (errorString "failed to cast to Uniswap V2 state"))
      end
    | _ => (bc, inl (errorString "contract is not a Uniswap V2 pool"))
    end
  end.

Definition GetHotCacheStatistics (bc : BlockChain) : error + Statistics :=
  match hotCache bc with
  | None => inl ErrHotCacheDisabled
  | Some c =>
    if negb (IsEnabled c) then inl ErrHotCacheDisabled
    else inr (GetStatistics c)
  end.

(** [RegisterHotCacheDecoder] only asks for a cache to be there, enabled
    or not. *)
Definition RegisterHotCacheDecoder (bc : BlockChain) (addr : common_Address)
    (decoder : ContractDecoder) : BlockChain * option error :=
  match hotCache bc with
  | None => (bc, Some ErrHotCacheDisabled)
  | Some c => (mkBlockChain (Some (RegisterDecoder c addr decoder)), None)
  end.

(** ** Known contracts ([known_contracts.go]) *)

Definition UniswapV2PairsMainnet : gmap string common_Address :=
  list_to_map
    [("USDC/WETH", 0xB4e16d0168e52d35CaCD2c6185b44281Ec28C9Dc);
     ("USDT/WETH", 0x0d4a11d5EEaaC28EC3F61d100daF4d40471f1852);
     ("DAI/WETH", 0xA478c2975Ab1Ea89e8196811F51A7B7Ade33eB11);
     ("WBTC/WETH", 0xBb2b8038a1640196FbE3e38816F3e67Cba72D940);
     ("USDC/USDT", 0x3041CbD36888bECc7bbCBc0045E3B1f144466f5f)].

(** Indexing the map: the zero address for a missing name. *)
Definition pairAddress (name : string) : common_Address :=
  default 0 (UniswapV2PairsMainnet !! name).

(** [GetDefaultWatchlist]. *)
Definition GetDefaultWatchlist (chainID : Z) : list common_Address :=
  if chainID =? 1 then
    [pairAddress "USDC/WETH"; pairAddress "USDT/WETH";
     pairAddress "DAI/WETH"; pairAddress "WBTC/WETH"]
  else if chainID =? 11155111 then []
  else [].

(** [RegisterDefaultDecoders]. The map of pairs is ranged over in an
    unspecified order: [pairs] is the enumeration the loop follows. *)
Definition RegisterDefaultDecoders (pairs : list (string * common_Address))
    (cache : Cache) (chainID : Z) : Cache :=
  let decoder := UniswapV2Decoder in
  if chainID =? 1 then
    foldl (fun cache '(_, addr) => RegisterDecoder cache addr decoder) cache pairs
  else if chainID =? 11155111 then cache
  else cache.

(** ** Auxiliary definitions for the further properties *)

(** Every snapshot of the history is filed under its own block hash. *)
Definition historyKeyed (c : Cache) : Prop :=
  forall k s, snapshots c !! k = Some s -> BlockHash s = k.

(** The heights in the history are below [n] and no two entries share one:
    what ingestion in canonical order gives. *)
Definition heightsBelow (c : Cache) (n : Z) : Prop :=
  (forall k s, snapshots c !! k = Some s -> 0 <= BlockNumber s < n) /\
  (forall k1 k2 s1 s2,
     snapshots c !! k1 = Some s1 -> snapshots c !! k2 = Some s2 ->
     BlockNumber s1 = BlockNumber s2 -> k1 = k2).

(** The old-chain block nearest to the old tip whose hash is not zero and
    occurs in the new chain. *)
Definition sharedBlock (oldChain newChain : list Header) : option Header :=
  find (fun o => bool_decide (Hash o ≠ 0 /\ Hash o ∈ Hash <$> newChain))
       (reverse oldChain).

(** Headers whose heights, as [Update] reads them, increase strictly and
    start at [n] or above. *)
Fixpoint increasingFrom (n : Z) (headers : list Header) : Prop :=
  match headers with
  | [] => True
  | header :: rest =>
    n <= Uint64 (Number header) /\
    increasingFrom (Uint64 (Number header) + 1) rest
  end.

(** The current snapshot is in the history, under its own hash. *)
Definition currentFiled (c : Cache) : Prop :=
  snapshots c !! BlockHash (current c) = Some (current c).

(** ** Further data for the worked instances *)

(** The pool's entry after the basic ingest. *)
Definition poolContract : ContractState :=
  mkContractState poolAddr ContractTypeUniswapV2
    (readRequiredSlots poolAddr poolReader ∅ (dec_RequiredSlots UniswapV2Decoder))
    (Some (DecodedUniswapV2
       (mkUniswapV2State
          0xA0b86991c6218b36c1d19D4a2e9Eb0cE3606eB48
          0xC02aaA39b223FE8D0A0e5C4F27eAD9083C756Cc2
          1000000 500 1234567890 123456 789012 999999)))
    0.

(** Two blocks ingested with [MaxSnapshots = 2], and with a negative
    [MaxSnapshots]. *)
Definition retentionCache : Cache :=
  ingest (New retentionConfig) [retBlock1; retBlock2] zeroReader.
Definition unboundedConfig : Config := mkConfig true [] true (-1).
Definition unboundedCache : Cache :=
  ingest (New unboundedConfig) [retBlock1; retBlock2] zeroReader.

(** A reorg whose lists share the fork block H1. *)
Definition reorgCache : Cache :=
  ingest (New reorgConfig) [reorgBlock1; reorgBlock2a; reorgBlock3a] zeroReader.
Definition reorgOldChain : list Header := [reorgBlock1; reorgBlock2a; reorgBlock3a].
Definition reorgNewChain : list Header := [reorgBlock1; reorgBlock2b; reorgBlock3b].
Definition reorgSnapshot1 : Snapshot :=
  publishedSnapshot (New reorgConfig) reorgBlock1 zeroReader.

(** * Properties *)

(** ** Bytes and words *)

Lemma be_bytes_length (n : nat) (x : Z) : length (be_bytes n x) = n.
Proof.
  revert x; induction n as [|n IH]; intros x; simpl; [done|].
  rewrite length_app, IH; simpl; lia.
Qed.

Lemma SetBytes_snoc (l : list Z) (b : Z) : SetBytes (l ++ [b]) = SetBytes l * 256 + b.
Proof. unfold SetBytes. by rewrite foldl_app. Qed.

Lemma SetBytes_be_bytes (n : nat) (x : Z) :
  SetBytes (be_bytes n x) = x mod 256 ^ Z.of_nat n.
Proof.
  revert x; induction n as [|n IH]; intros x.
  - simpl. by rewrite Z.mod_1_r.
  - cbn [be_bytes]. rewrite SetBytes_snoc, IH.
    rewrite Nat2Z.inj_succ, Z.pow_succ_r by lia.
    rewrite (Z.rem_mul_r x 256 (256 ^ Z.of_nat n)) by lia. lia.
Qed.

Lemma Hash_Bytes_length (h : Z) : length (Hash_Bytes h) = 32%nat.
Proof. apply be_bytes_length. Qed.

Lemma SetBytes_Hash_Bytes (h : Z) : SetBytes (Hash_Bytes h) = h mod 2 ^ 256.
Proof. unfold Hash_Bytes. by rewrite SetBytes_be_bytes. Qed.

Lemma Z_land_mask112 (x : Z) : Z.land x (Z.shiftl 1 112 - 1) = x mod 2 ^ 112.
Proof.
  replace (Z.shiftl 1 112 - 1) with (Z.ones 112) by reflexivity.
  by rewrite Z.land_ones.
Qed.

(** What the [len(bytes) == 32] branch computes on a hash, as arithmetic. *)
Lemma decodeReserves_Hash_Bytes (w : Z) (state : UniswapV2State) :
  0 <= w < 2 ^ 256 ->
  decodeReserves (Hash_Bytes w) state =
  set_BlockTimestampLast (w / 2 ^ 224)
    (set_Reserve1 ((w / 2 ^ 112) mod 2 ^ 112)
       (set_Reserve0 (w mod 2 ^ 112) state)).
Proof.
  intros Hw. unfold decodeReserves.
  rewrite SetBytes_Hash_Bytes, (Z.mod_small w) by lia.
  rewrite !Z_land_mask112, !Z.shiftr_div_pow2 by lia.
  assert (0 <= w / 2 ^ 224 < 2 ^ 32).
  { split; [apply Z.div_pos; lia|].
    apply Z.div_lt_upper_bound; [lia|].
    replace (2 ^ 224 * 2 ^ 32) with (2 ^ 256) by reflexivity. lia. }
  unfold uint32_of_uint64, Uint64.
  rewrite Z.abs_eq by lia.
  rewrite (Z.mod_small (w / 2 ^ 224) (2 ^ 64)) by lia.
  by rewrite (Z.mod_small (w / 2 ^ 224) (2 ^ 32)) by lia.
Qed.

Lemma uniswapV2_slots :
  uniswapV2SlotToken0 = 6 /\ uniswapV2SlotToken1 = 7 /\
  uniswapV2SlotReserves = 8 /\ uniswapV2SlotPrice0Cumulative = 9 /\
  uniswapV2SlotPrice1Cumulative = 10 /\ uniswapV2SlotKLast = 11.
Proof. repeat split; reflexivity. Qed.

(** ** The Uniswap V2 decoder *)

(** The result of [Decode] once the three mandatory slots are there. *)
Lemma Decode_present (slots : gmap Z Z) (token0Value token1Value reservesValue : Z) :
  slots !! uniswapV2SlotToken0 = Some token0Value ->
  slots !! uniswapV2SlotToken1 = Some token1Value ->
  slots !! uniswapV2SlotReserves = Some reservesValue ->
  UniswapV2Decoder_Decode slots =
  inr (setOptional set_KLast slots uniswapV2SlotKLast
        (setOptional set_Price1Cumulative slots uniswapV2SlotPrice1Cumulative
          (setOptional set_Price0Cumulative slots uniswapV2SlotPrice0Cumulative
            (decodeReserves (Hash_Bytes reservesValue)
              (set_Token1 (BytesToAddress (Hash_Bytes token1Value))
                (set_Token0 (BytesToAddress (Hash_Bytes token0Value))
                  UniswapV2State_new)))))).
Proof.
  intros H0 H1 H8. unfold UniswapV2Decoder_Decode.
  rewrite H0, H1, H8, Hash_Bytes_length. reflexivity.
Qed.

Lemma setOptional_preserves {A : Type} (f : UniswapV2State -> A)
    (set : Z -> UniswapV2State -> UniswapV2State)
    (slots : gmap Z Z) (slot : Z) (state : UniswapV2State) :
  (forall v s, f (set v s) = f s) ->
  f (setOptional set slots slot state) = f state.
Proof. intros Hset. unfold setOptional. by destruct (slots !! slot). Qed.

Lemma setOptional_None (set : Z -> UniswapV2State -> UniswapV2State)
    (slots : gmap Z Z) (slot : Z) (state : UniswapV2State) :
  slots !! slot = None -> setOptional set slots slot state = state.
Proof. intros H. unfold setOptional. by rewrite H. Qed.

Lemma Decode_is_error (slots : gmap Z Z) :
  (exists err, UniswapV2Decoder_Decode slots = inl err) <->
  slots !! uniswapV2SlotToken0 = None \/
  slots !! uniswapV2SlotToken1 = None \/
  slots !! uniswapV2SlotReserves = None.
Proof.
  destruct (slots !! uniswapV2SlotToken0) as [t0|] eqn:H0;
  destruct (slots !! uniswapV2SlotToken1) as [t1|] eqn:H1;
  destruct (slots !! uniswapV2SlotReserves) as [w|] eqn:H8;
  try (rewrite (Decode_present _ _ _ _ H0 H1 H8);
       split; [intros [? ?]; discriminate | intros [?|[?|?]]; discriminate]);
  unfold UniswapV2Decoder_Decode; rewrite ?H0, ?H1, ?H8; split; eauto.
Qed.

(** C3. Slot-8 bit extraction: when slots 6 and 7 are present and slot 8
    holds [reserve0 + reserve1 * 2^112 + ts * 2^224] with both reserves below
    [2^112] and [ts] below [2^32], [Decode] succeeds and the decoded state
    carries exactly [reserve0], [reserve1] and [ts]. *)
Theorem Decode_extracts_packed_reserves
    (slots : gmap Z Z) (reserve0 reserve1 ts : Z) :
  0 <= reserve0 < 2 ^ 112 ->
  0 <= reserve1 < 2 ^ 112 ->
  0 <= ts < 2 ^ 32 ->
  is_Some (slots !! uniswapV2SlotToken0) ->
  is_Some (slots !! uniswapV2SlotToken1) ->
  slots !! uniswapV2SlotReserves =
    Some (reserve0 + reserve1 * 2 ^ 112 + ts * 2 ^ 224) ->
  exists state,
    UniswapV2Decoder_Decode slots = inr state /\
    dec_Decode UniswapV2Decoder slots = inr (Some (DecodedUniswapV2 state)) /\
    Reserve0 state = reserve0 /\
    Reserve1 state = reserve1 /\
    BlockTimestampLast state = ts.
Proof.
  intros Hr0 Hr1 Hts [t0 H0] [t1 H1] H8.
  set (w := reserve0 + reserve1 * 2 ^ 112 + ts * 2 ^ 224) in *.
  assert (Hw : 0 <= w < 2 ^ 256).
  { subst w. replace (2 ^ 256) with (2 ^ 32 * 2 ^ 224) by reflexivity.
    replace (2 ^ 224) with (2 ^ 112 * 2 ^ 112) by reflexivity. nia. }
  assert (Hlo : w mod 2 ^ 112 = reserve0).
  { subst w. replace (2 ^ 224) with (2 ^ 112 * 2 ^ 112) by reflexivity.
    replace (reserve0 + reserve1 * 2 ^ 112 + ts * (2 ^ 112 * 2 ^ 112))
      with (reserve0 + (reserve1 + ts * 2 ^ 112) * 2 ^ 112) by ring.
    rewrite Z.mod_add by lia. apply Z.mod_small; lia. }
  assert (Hdiv : w / 2 ^ 112 = reserve1 + ts * 2 ^ 112).
  { subst w. replace (2 ^ 224) with (2 ^ 112 * 2 ^ 112) by reflexivity.
    replace (reserve0 + reserve1 * 2 ^ 112 + ts * (2 ^ 112 * 2 ^ 112))
      with (reserve0 + (reserve1 + ts * 2 ^ 112) * 2 ^ 112) by ring.
    rewrite Z.div_add by lia. rewrite Z.div_small by lia. lia. }
  assert (Hmid : (w / 2 ^ 112) mod 2 ^ 112 = reserve1).
  { rewrite Hdiv, Z.mod_add by lia. apply Z.mod_small; lia. }
  assert (Hhi : w / 2 ^ 224 = ts).
  { replace (2 ^ 224) with (2 ^ 112 * 2 ^ 112) by reflexivity.
    rewrite <- Z.div_div by lia. rewrite Hdiv, Z.div_add by lia.
    rewrite Z.div_small by lia. lia. }
  eexists. split; [apply (Decode_present _ _ _ _ H0 H1 H8)|].
  split; [cbn [dec_Decode UniswapV2Decoder];
          by rewrite (Decode_present _ _ _ _ H0 H1 H8)|].
  rewrite !(setOptional_preserves Reserve0), !(setOptional_preserves Reserve1),
    !(setOptional_preserves BlockTimestampLast) by reflexivity.
  rewrite decodeReserves_Hash_Bytes by done.
  rewrite Hlo, Hmid, Hhi. done.
Qed.

(** The boundary values [2^112 - 1] and [2^32 - 1]. *)
Lemma Decode_extracts_packed_reserves_witness :
  exists state,
    UniswapV2Decoder_Decode
      (<[6 := 1]> (<[7 := 2]>
        (<[8 := (2 ^ 112 - 1) + (2 ^ 112 - 1) * 2 ^ 112 + (2 ^ 32 - 1) * 2 ^ 224]> ∅)))
      = inr state /\
    dec_Decode UniswapV2Decoder
      (<[6 := 1]> (<[7 := 2]>
        (<[8 := (2 ^ 112 - 1) + (2 ^ 112 - 1) * 2 ^ 112 + (2 ^ 32 - 1) * 2 ^ 224]> ∅)))
      = inr (Some (DecodedUniswapV2 state)) /\
    Reserve0 state = 2 ^ 112 - 1 /\
    Reserve1 state = 2 ^ 112 - 1 /\
    BlockTimestampLast state = 2 ^ 32 - 1.
Proof.
  apply (Decode_extracts_packed_reserves _ (2 ^ 112 - 1) (2 ^ 112 - 1) (2 ^ 32 - 1)).
  - lia.
  - lia.
  - lia.
  - exists 1. reflexivity.
  - exists 2. reflexivity.
  - reflexivity.
Defined.

(** C4. [Decode] fails exactly when slot 6, 7 or 8 is absent, the message
    naming the first missing field; with the three of them present it
    succeeds, and a field whose slot 9, 10 or 11 is absent is zero. *)
Theorem Decode_error_conditions (slots : gmap Z Z) :
  ((exists err, UniswapV2Decoder_Decode slots = inl err) <->
   slots !! uniswapV2SlotToken0 = None \/
   slots !! uniswapV2SlotToken1 = None \/
   slots !! uniswapV2SlotReserves = None) /\
  (slots !! uniswapV2SlotToken0 = None ->
   UniswapV2Decoder_Decode slots = inl (errorString "missing token0 slot")) /\
  (is_Some (slots !! uniswapV2SlotToken0) ->
   slots !! uniswapV2SlotToken1 = None ->
   UniswapV2Decoder_Decode slots = inl (errorString "missing token1 slot")) /\
  (is_Some (slots !! uniswapV2SlotToken0) ->
   is_Some (slots !! uniswapV2SlotToken1) ->
   slots !! uniswapV2SlotReserves = None ->
   UniswapV2Decoder_Decode slots = inl (errorString "missing reserves slot")) /\
  (is_Some (slots !! uniswapV2SlotToken0) ->
   is_Some (slots !! uniswapV2SlotToken1) ->
   is_Some (slots !! uniswapV2SlotReserves) ->
   exists state,
     UniswapV2Decoder_Decode slots = inr state /\
     (slots !! uniswapV2SlotPrice0Cumulative = None -> Price0Cumulative state = 0) /\
     (slots !! uniswapV2SlotPrice1Cumulative = None -> Price1Cumulative state = 0) /\
     (slots !! uniswapV2SlotKLast = None -> KLast state = 0)).
Proof.
  split; [apply Decode_is_error|].
  unfold UniswapV2Decoder_Decode at 1 2 3.
  split; [by intros ->|].
  split; [by intros [? ->] ->|].
  split; [by intros [? ->] [? ->] ->|].
  intros [t0 H0] [t1 H1] [w H8].
  eexists. split; [apply (Decode_present _ _ _ _ H0 H1 H8)|].
  split; [|split]; intros Hnone.
  - rewrite !(setOptional_preserves Price0Cumulative) by reflexivity.
    by rewrite setOptional_None.
  - rewrite !(setOptional_preserves Price1Cumulative) by reflexivity.
    rewrite setOptional_None by done.
    by rewrite !(setOptional_preserves Price1Cumulative) by reflexivity.
  - rewrite setOptional_None by done.
    by rewrite !(setOptional_preserves KLast) by reflexivity.
Qed.

(** Only the three mandatory slots: success, and the optional fields are 0. *)
Example Decode_mandatory_only :
  UniswapV2Decoder_Decode (<[6 := 1]> (<[7 := 2]> (<[8 := 3]> ∅))) =
  inr (mkUniswapV2State 1 2 3 0 0 0 0 0).
Proof. reflexivity. Qed.

Example Decode_missing_token1 :
  UniswapV2Decoder_Decode (<[6 := 1]> (<[8 := 3]> (<[9 := 4]> ∅))) =
  inl (errorString "missing token1 slot").
Proof. reflexivity. Qed.

(** The literal data of the package's own decoder test. *)
Example Decode_test_vector :
  UniswapV2Decoder_Decode
    (<[6 := 0xA0b86991c6218b36c1d19D4a2e9Eb0cE3606eB48]>
    (<[7 := 0xC02aaA39b223FE8D0A0e5C4F27eAD9083C756Cc2]>
    (<[8 := 1000000 + 500 * 2 ^ 112 + 1234567890 * 2 ^ 224]>
    (<[9 := 123456]> (<[10 := 789012]> (<[11 := 999999]> ∅)))))) =
  inr (mkUniswapV2State
         0xA0b86991c6218b36c1d19D4a2e9Eb0cE3606eB48
         0xC02aaA39b223FE8D0A0e5C4F27eAD9083C756Cc2
         1000000 500 1234567890 123456 789012 999999).
Proof. vm_compute. reflexivity. Qed.

(** ** Ranging over a map *)

Section RangeFacts.
Context {MR : MapRange}.

Lemma elem_of_range {V : Type} (m : gmap Z V) (k : Z) (v : V) :
  (k, v) ∈ range m <-> m !! k = Some v.
Proof. rewrite range_perm. apply elem_of_map_to_list. Qed.

Lemma elem_of_range_fst {V : Type} (m : gmap Z V) (k : Z) :
  k ∈ (range m).*1 <-> is_Some (m !! k).
Proof.
  rewrite list_elem_of_fmap. split.
  - intros [[k' v] [-> Hin]]. apply elem_of_range in Hin. by exists v.
  - intros [v Hv]. exists (k, v). split; [done|]. by apply elem_of_range.
Qed.

End RangeFacts.

(** ** Retention: [cleanupOldSnapshots] *)

(** Deleting while ranging: the entries of [l] that are older than the
    cut-off go, the others stay. *)
Lemma foldl_delete_old_lookup (cutoff : Z) (l : list (Z * Snapshot))
    (m : gmap Z Snapshot) (k : Z) :
  (forall h s, (h, s) ∈ l -> m !! h = Some s) ->
  foldl (fun (m : gmap Z Snapshot) '(hash, snapshot) =>
           if BlockNumber snapshot <? cutoff then delete hash m else m) m l !! k =
  match m !! k with
  | Some s => if bool_decide (k ∈ l.*1 /\ BlockNumber s < cutoff) then None else Some s
  | None => None
  end.
Proof.
  induction l as [|[h s] l IH] using rev_ind; intros Hl.
  - cbn [foldl]. destruct (m !! k) as [s|]; [|done].
    case_bool_decide as Hin; [|done]. destruct Hin as [Hin _].
    by apply elem_of_nil in Hin.
  - rewrite foldl_app. cbn [foldl].
    assert (Hl' : forall h s, (h, s) ∈ l -> m !! h = Some s).
    { intros h' s' Hin. apply Hl. apply elem_of_app. by left. }
    assert (Hhs : m !! h = Some s).
    { apply Hl. apply elem_of_app. right. by apply list_elem_of_singleton. }
    specialize (IH Hl').
    assert (Hmem : k ∈ (l ++ [(h, s)]).*1 <-> k ∈ l.*1 \/ k = h).
    { rewrite fmap_app, elem_of_app. cbn. by rewrite list_elem_of_singleton. }
    destruct (BlockNumber s <? cutoff) eqn:Hold.
    + apply Z.ltb_lt in Hold. destruct (decide (k = h)) as [->|Hne].
      * rewrite lookup_delete_eq, Hhs.
        rewrite bool_decide_eq_true_2; [done|]. split; [|done]. apply Hmem. by right.
      * rewrite lookup_delete_ne by done. rewrite IH.
        destruct (m !! k) as [s'|]; [|done].
        apply (f_equal (fun b : bool => if b then None else Some s')).
        apply bool_decide_ext. rewrite Hmem. intuition congruence.
    + apply Z.ltb_ge in Hold. rewrite IH.
      destruct (m !! k) as [s'|] eqn:Hk; [|done].
      apply (f_equal (fun b : bool => if b then None else Some s')).
      apply bool_decide_ext. rewrite Hmem. split; [tauto|].
      intros [[Hin| ->] Hlt]; [done|].
      rewrite Hhs in Hk. injection Hk as ->. lia.
Qed.

Section CleanupFacts.
Context {MR : MapRange}.

Lemma cleanupOldSnapshots_lookup (c : Cache) (currentBlock k : Z) :
  snapshots (cleanupOldSnapshots c currentBlock) !! k =
  if Z.of_nat (size (snapshots c)) <=? uint64_of_int (MaxSnapshots (config c))
  then snapshots c !! k
  else
    match snapshots c !! k with
    | Some s =>
      if bool_decide (BlockNumber s < cutoffOf c currentBlock) then None else Some s
    | None => None
    end.
Proof.
  unfold cleanupOldSnapshots. fold (cutoffOf c currentBlock).
  destruct (_ <=? _); [done|]. cbn [snapshots set_snapshots].
  rewrite foldl_delete_old_lookup by (intros h s; apply elem_of_range).
  destruct (snapshots c !! k) as [s|] eqn:Hk; [|done].
  apply (f_equal (fun b : bool => if b then None else Some s)).
  apply bool_decide_ext. rewrite elem_of_range_fst, Hk. split; [tauto|eauto].
Qed.

Lemma cleanupOldSnapshots_lookup_None (c : Cache) (currentBlock k : Z) :
  snapshots c !! k = None ->
  snapshots (cleanupOldSnapshots c currentBlock) !! k = None.
Proof.
  intros Hk. rewrite cleanupOldSnapshots_lookup, Hk. by destruct (_ <=? _).
Qed.

Lemma cleanupOldSnapshots_lookup_keep (c : Cache) (currentBlock k : Z) (s : Snapshot) :
  snapshots c !! k = Some s ->
  cutoffOf c currentBlock <= BlockNumber s ->
  snapshots (cleanupOldSnapshots c currentBlock) !! k = Some s.
Proof.
  intros Hk Hle. rewrite cleanupOldSnapshots_lookup, Hk.
  destruct (_ <=? _); [done|]. rewrite bool_decide_eq_false_2; [done|lia].
Qed.

Lemma cleanupOldSnapshots_lookup_Some (c : Cache) (currentBlock k : Z) (s : Snapshot) :
  snapshots (cleanupOldSnapshots c currentBlock) !! k = Some s ->
  snapshots c !! k = Some s.
Proof.
  rewrite cleanupOldSnapshots_lookup.
  destruct (_ <=? _); [done|].
  destruct (snapshots c !! k) as [s'|]; [|done]. by case_bool_decide.
Qed.

(** Only the history map is touched. *)
Lemma cleanupOldSnapshots_frame (c : Cache) (currentBlock : Z) :
  cleanupOldSnapshots c currentBlock =
  set_snapshots (snapshots (cleanupOldSnapshots c currentBlock)) c.
Proof.
  unfold cleanupOldSnapshots. destruct (_ <=? _); [by destruct c|done].
Qed.

End CleanupFacts.

(** ** [Update] and [updateContract] *)

Lemma updateContracts_lookup (c : Cache) (stateDB : StateReader)
    (entries : list (Z * bool)) (contracts : gmap Z ContractState) (a : Z) :
  updateContracts c stateDB contracts entries !! a =
  match updateContract c a stateDB with
  | inr contractState =>
    if bool_decide (a ∈ entries.*1) then Some contractState else contracts !! a
  | inl _ => contracts !! a
  end.
Proof.
  unfold updateContracts.
  induction entries as [|[addr w] entries IH] using rev_ind.
  - cbn [foldl]. destruct (updateContract c a stateDB); [done|].
    case_bool_decide as Hin; [by apply elem_of_nil in Hin|done].
  - rewrite foldl_app. cbn [foldl].
    assert (Hmem : a ∈ (entries ++ [(addr, w)]).*1 <-> a ∈ entries.*1 \/ a = addr).
    { rewrite fmap_app, elem_of_app. cbn. by rewrite list_elem_of_singleton. }
    destruct (decide (a = addr)) as [->|Hne].
    + destruct (updateContract c addr stateDB) as [err|cs] eqn:Hu.
      * exact IH.
      * rewrite lookup_insert_eq. rewrite bool_decide_eq_true_2; [done|].
        apply Hmem. by right.
    + assert (Hother :
        (match updateContract c addr stateDB with
         | inl _ => foldl (fun (contracts : gmap Z ContractState) '(addr, _) =>
                      match updateContract c addr stateDB with
                      | inl _ => contracts
                      | inr contractState => <[addr := contractState]> contracts
                      end) contracts entries
         | inr contractState =>
           <[addr := contractState]>
             (foldl (fun (contracts : gmap Z ContractState) '(addr, _) =>
                      match updateContract c addr stateDB with
                      | inl _ => contracts
                      | inr contractState => <[addr := contractState]> contracts
                      end) contracts entries)
         end) !! a =
        foldl (fun (contracts : gmap Z ContractState) '(addr, _) =>
                 match updateContract c addr stateDB with
                 | inl _ => contracts
                 | inr contractState => <[addr := contractState]> contracts
                 end) contracts entries !! a).
      { destruct (updateContract c addr stateDB); [done|].
        by rewrite lookup_insert_ne. }
      rewrite Hother, IH. destruct (updateContract c a stateDB) as [|cs]; [done|].
      apply (f_equal (fun b : bool => if b then Some cs else contracts !! a)).
      apply bool_decide_ext. rewrite Hmem. tauto.
Qed.

Section UpdateFacts.
Context {MR : MapRange}.

Lemma Update_disabled (c : Cache) (block : Header) (stateDB : StateReader) :
  Enabled (config c) = false -> Update c block stateDB = (c, None).
Proof. intros H. unfold Update. by rewrite H. Qed.

Lemma Update_enabled (c : Cache) (block : Header) (stateDB : StateReader) :
  Enabled (config c) = true ->
  Update c block stateDB =
  (set_current (publishedSnapshot c block stateDB)
     (cleanupOldSnapshots
        (set_snapshots
           (<[Hash block := publishedSnapshot c block stateDB]> (snapshots c))
           (set_stats (add_Updates (stats c)) c))
        (Uint64 (Number block))),
   None).
Proof. intros H. unfold Update. rewrite H. reflexivity. Qed.

Lemma publishedSnapshot_contracts (c : Cache) (block : Header)
    (stateDB : StateReader) (a : Z) :
  Contracts (publishedSnapshot c block stateDB) !! a =
  match watchlist c !! a with
  | Some _ =>
    match updateContract c a stateDB with
    | inr contractState => Some contractState
    | inl _ => None
    end
  | None => None
  end.
Proof.
  cbn [Contracts publishedSnapshot]. rewrite updateContracts_lookup, lookup_empty.
  destruct (updateContract c a stateDB) as [|cs]; [by destruct (watchlist c !! a)|].
  case_bool_decide as Hin; rewrite elem_of_range_fst in Hin.
  - by destruct Hin as [w ->].
  - destruct (watchlist c !! a); [|done]. destruct Hin. eauto.
Qed.

Lemma Update_error (c : Cache) (block : Header) (stateDB : StateReader) :
  (Update c block stateDB).2 = None.
Proof. unfold Update. by destruct (negb _). Qed.

Lemma Update_current (c : Cache) (block : Header) (stateDB : StateReader) :
  Enabled (config c) = true ->
  current (Update c block stateDB).1 = publishedSnapshot c block stateDB.
Proof. intros H. by rewrite Update_enabled. Qed.

Lemma Update_config (c : Cache) (block : Header) (stateDB : StateReader) :
  config (Update c block stateDB).1 = config c.
Proof.
  unfold Update. destruct (negb _); [done|]. cbn.
  by rewrite cleanupOldSnapshots_frame.
Qed.

Lemma Update_watchlist (c : Cache) (block : Header) (stateDB : StateReader) :
  watchlist (Update c block stateDB).1 = watchlist c.
Proof.
  unfold Update. destruct (negb _); [done|]. cbn.
  by rewrite cleanupOldSnapshots_frame.
Qed.

Lemma Update_decoders (c : Cache) (block : Header) (stateDB : StateReader) :
  decoders (Update c block stateDB).1 = decoders c.
Proof.
  unfold Update. destruct (negb _); [done|]. cbn.
  by rewrite cleanupOldSnapshots_frame.
Qed.

Lemma Update_stats (c : Cache) (block : Header) (stateDB : StateReader) :
  Enabled (config c) = true ->
  stats (Update c block stateDB).1 = add_Updates (stats c).
Proof.
  intros H. rewrite Update_enabled by done. cbn.
  by rewrite cleanupOldSnapshots_frame.
Qed.

Lemma Update_ReorgCount (c : Cache) (block : Header) (stateDB : StateReader) :
  ReorgCount (stats (Update c block stateDB).1) = ReorgCount (stats c).
Proof.
  destruct (Enabled (config c)) eqn:H.
  - by rewrite Update_stats.
  - by rewrite Update_disabled.
Qed.

(** The history after [Update]: the new snapshot is inserted, then the
    retention sweep runs over the enlarged map. *)
Lemma Update_snapshots_lookup (c : Cache) (block : Header) (stateDB : StateReader)
    (k : Z) :
  Enabled (config c) = true ->
  snapshots (Update c block stateDB).1 !! k =
  snapshots
    (cleanupOldSnapshots
       (set_snapshots
          (<[Hash block := publishedSnapshot c block stateDB]> (snapshots c)) c)
       (Uint64 (Number block))) !! k.
Proof.
  intros H. rewrite Update_enabled by done. cbn [fst snapshots set_current].
  by rewrite !cleanupOldSnapshots_lookup.
Qed.

Lemma cutoffOf_le (c : Cache) (currentBlock : Z) :
  0 <= currentBlock -> cutoffOf c currentBlock <= currentBlock.
Proof.
  intros H. unfold cutoffOf, uint64_of_int.
  pose proof (Z.mod_pos_bound (MaxSnapshots (config c)) (2 ^ 64)).
  destruct (_ >? _); lia.
Qed.

Lemma Uint64_nonneg (x : Z) : 0 <= Uint64 x.
Proof. unfold Uint64. apply Z.mod_pos_bound. lia. Qed.

(** The snapshot just inserted always survives the sweep. *)
Lemma Update_snapshots_new (c : Cache) (block : Header) (stateDB : StateReader) :
  Enabled (config c) = true ->
  snapshots (Update c block stateDB).1 !! Hash block =
  Some (publishedSnapshot c block stateDB).
Proof.
  intros H. rewrite Update_snapshots_lookup by done.
  apply cleanupOldSnapshots_lookup_keep.
  - cbn. by rewrite lookup_insert_eq.
  - cbn [BlockNumber publishedSnapshot]. apply cutoffOf_le, Uint64_nonneg.
Qed.

Lemma Update_snapshots_None (c : Cache) (block : Header) (stateDB : StateReader)
    (k : Z) :
  k ≠ Hash block ->
  snapshots c !! k = None ->
  snapshots (Update c block stateDB).1 !! k = None.
Proof.
  intros Hne Hk. destruct (Enabled (config c)) eqn:H.
  - rewrite Update_snapshots_lookup by done.
    apply cleanupOldSnapshots_lookup_None. cbn. by rewrite lookup_insert_ne.
  - by rewrite Update_disabled.
Qed.

Lemma Update_snapshots_keep (c : Cache) (block : Header) (stateDB : StateReader)
    (k : Z) (s : Snapshot) :
  Enabled (config c) = true ->
  k ≠ Hash block ->
  snapshots c !! k = Some s ->
  cutoffOf c (Uint64 (Number block)) <= BlockNumber s ->
  snapshots (Update c block stateDB).1 !! k = Some s.
Proof.
  intros H Hne Hk Hle. rewrite Update_snapshots_lookup by done.
  apply cleanupOldSnapshots_lookup_keep; [|done].
  cbn. by rewrite lookup_insert_ne.
Qed.

End UpdateFacts.

Section UpdateClaims.
Context {MR : MapRange}.

Lemma updateContract_no_decoder (c : Cache) (addr : Z) (stateDB : StateReader) :
  decoders c !! addr = None ->
  updateContract c addr stateDB =
  inr (mkContractState addr ContractTypeUnknown ∅ None 0).
Proof. intros H. unfold updateContract. by rewrite H. Qed.

Lemma updateContract_decode_error (c : Cache) (addr : Z) (stateDB : StateReader)
    (decoder : ContractDecoder) (err : error) :
  decoders c !! addr = Some decoder ->
  dec_Decode decoder
    (readRequiredSlots addr stateDB ∅ (dec_RequiredSlots decoder)) = inl err ->
  updateContract c addr stateDB =
  inl (wrapError ("failed to decode " +:+ ContractType_String (dec_Type decoder)) err).
Proof. intros H Hd. unfold updateContract. rewrite H. cbn. by rewrite Hd. Qed.

Lemma updateContract_decoded (c : Cache) (addr : Z) (stateDB : StateReader)
    (decoder : ContractDecoder) (decoded : option DecodedValue) :
  decoders c !! addr = Some decoder ->
  dec_Decode decoder
    (readRequiredSlots addr stateDB ∅ (dec_RequiredSlots decoder)) = inr decoded ->
  updateContract c addr stateDB =
  inr (mkContractState addr (dec_Type decoder)
         (readRequiredSlots addr stateDB ∅ (dec_RequiredSlots decoder)) decoded 0).
Proof. intros H Hd. unfold updateContract. rewrite H. cbn. by rewrite Hd. Qed.

(** C6. Per-address outcome of [Update] on an enabled cache, for a watched
    address [addr]: the call returns no error and publishes the snapshot of
    [block]; without a registered decoder [addr] is in it with type Unknown,
    no raw slots and no decoded record; when the registered decoder fails
    on the slots read from the state reader, [addr] is absent from it; when
    it succeeds, [addr] carries the slots read and the decoded record. *)
Theorem Update_per_address_outcome (c : Cache) (block : Header)
    (stateDB : StateReader) (addr : Z) :
  Enabled (config c) = true ->
  is_Some (watchlist c !! addr) ->
  (Update c block stateDB).2 = None /\
  BlockHash (current (Update c block stateDB).1) = Hash block /\
  (decoders c !! addr = None ->
   Contracts (current (Update c block stateDB).1) !! addr =
   Some (mkContractState addr ContractTypeUnknown ∅ None 0)) /\
  (forall decoder err,
     decoders c !! addr = Some decoder ->
     dec_Decode decoder
       (readRequiredSlots addr stateDB ∅ (dec_RequiredSlots decoder)) = inl err ->
     Contracts (current (Update c block stateDB).1) !! addr = None) /\
  (forall decoder decoded,
     decoders c !! addr = Some decoder ->
     dec_Decode decoder
       (readRequiredSlots addr stateDB ∅ (dec_RequiredSlots decoder)) = inr decoded ->
     Contracts (current (Update c block stateDB).1) !! addr =
     Some (mkContractState addr (dec_Type decoder)
             (readRequiredSlots addr stateDB ∅ (dec_RequiredSlots decoder))
             decoded 0)).
Proof.
  intros Hen [w Hw]. split; [apply Update_error|].
  rewrite Update_current by done. split; [done|].
  rewrite publishedSnapshot_contracts, Hw.
  split; [|split].
  - intros Hd. by rewrite updateContract_no_decoder.
  - intros decoder err Hd He. by rewrite (updateContract_decode_error _ _ _ _ _ Hd He).
  - intros decoder decoded Hd He.
    by rewrite (updateContract_decoded _ _ _ _ _ Hd He).
Qed.

(** The replay loop of [HandleReorg] runs to the end of the chain. *)
Lemma replayNewChain_all (c : Cache) (commonSnapshot : Snapshot)
    (headers : list Header) (stateDB : StateReader) :
  replayNewChain c commonSnapshot headers stateDB =
  (foldl (fun c header => (Update c header stateDB).1) c
     (filter (fun header =>
                ¬ Uint64 (Number header) <= BlockNumber commonSnapshot) headers),
   None).
Proof.
  revert c. induction headers as [|header rest IH]; intros c; [done|].
  cbn [replayNewChain]. destruct (_ <=? _) eqn:Hle.
  - apply Z.leb_le in Hle. rewrite filter_cons_False by tauto. apply IH.
  - apply Z.leb_gt in Hle. rewrite filter_cons_True by lia.
    cbn [foldl]. pose proof (Update_error c header stateDB) as Herr.
    destruct (Update c header stateDB) as [c' err]. cbn in Herr. subst err.
    apply IH.
Qed.

(** C9. [Update] returns a nil error for every cache (enabled or not),
    header and state reader; hence the replay loop of [HandleReorg] applies
    [Update] to every header above the ancestor without stopping, and
    [HandleReorg] never returns an error. *)
Theorem Update_never_fails :
  (forall (c : Cache) (block : Header) (stateDB : StateReader),
     (Update c block stateDB).2 = None) /\
  (forall (c : Cache) (commonSnapshot : Snapshot) (headers : list Header)
          (stateDB : StateReader),
     replayNewChain c commonSnapshot headers stateDB =
     (foldl (fun c header => (Update c header stateDB).1) c
        (filter (fun header =>
                   ¬ Uint64 (Number header) <= BlockNumber commonSnapshot) headers),
      None)) /\
  (forall (c : Cache) (oldChain newChain : list Header) (stateDB : StateReader)
          (err : error),
     (HandleReorg c oldChain newChain stateDB).2 ≠ Returned (Some err)).
Proof.
  split; [apply Update_error|]. split; [apply replayNewChain_all|].
  intros c oldChain newChain stateDB err. unfold HandleReorg.
  destruct (negb _); [done|]. cbn zeta.
  destruct (_ !! findCommonAncestor oldChain newChain) as [commonSnapshot|].
  - rewrite replayNewChain_all. by destruct (index newChain _).
  - destruct (index newChain _) as [tip|]; [|done].
    pose proof (Update_error (set_stats (add_ReorgCount (stats c)) c) tip stateDB) as H.
    destruct (Update _ tip stateDB) as [c' e]. cbn in H. by subst e.
Qed.

End UpdateClaims.

(** ** The order of [range] does not matter to [Update] and [HandleReorg] *)

Lemma publishedSnapshot_range_irrelevant (MR1 MR2 : MapRange) (c : Cache)
    (block : Header) (stateDB : StateReader) :
  @publishedSnapshot MR1 c block stateDB = @publishedSnapshot MR2 c block stateDB.
Proof.
  unfold publishedSnapshot. f_equal. apply map_eq. intros a.
  pose proof (@publishedSnapshot_contracts MR1 c block stateDB a) as H1.
  pose proof (@publishedSnapshot_contracts MR2 c block stateDB a) as H2.
  cbn [Contracts publishedSnapshot] in H1, H2. by rewrite H1, H2.
Qed.

Lemma cleanupOldSnapshots_range_irrelevant (MR1 MR2 : MapRange) (c : Cache)
    (currentBlock : Z) :
  @cleanupOldSnapshots MR1 c currentBlock = @cleanupOldSnapshots MR2 c currentBlock.
Proof.
  rewrite (@cleanupOldSnapshots_frame MR1), (@cleanupOldSnapshots_frame MR2).
  f_equal. apply map_eq. intros k.
  by rewrite (@cleanupOldSnapshots_lookup MR1), (@cleanupOldSnapshots_lookup MR2).
Qed.

Lemma Update_range_irrelevant (MR1 MR2 : MapRange) (c : Cache) (block : Header)
    (stateDB : StateReader) :
  @Update MR1 c block stateDB = @Update MR2 c block stateDB.
Proof.
  destruct (Enabled (config c)) eqn:H.
  - rewrite (@Update_enabled MR1), (@Update_enabled MR2) by done.
    rewrite (publishedSnapshot_range_irrelevant MR1 MR2).
    by rewrite (cleanupOldSnapshots_range_irrelevant MR1 MR2).
  - by rewrite (@Update_disabled MR1), (@Update_disabled MR2).
Qed.

Lemma replayNewChain_range_irrelevant (MR1 MR2 : MapRange) (c : Cache)
    (commonSnapshot : Snapshot) (headers : list Header) (stateDB : StateReader) :
  @replayNewChain MR1 c commonSnapshot headers stateDB =
  @replayNewChain MR2 c commonSnapshot headers stateDB.
Proof.
  revert c. induction headers as [|header rest IH]; intros c; [done|].
  cbn [replayNewChain]. rewrite (Update_range_irrelevant MR1 MR2).
  destruct (_ <=? _); [apply IH|].
  destruct (Update c header stateDB) as [c' [err|]]; [done|apply IH].
Qed.

Lemma HandleReorg_range_irrelevant (MR1 MR2 : MapRange) (c : Cache)
    (oldChain newChain : list Header) (stateDB : StateReader) :
  @HandleReorg MR1 c oldChain newChain stateDB =
  @HandleReorg MR2 c oldChain newChain stateDB.
Proof.
  unfold HandleReorg. destruct (negb _); [done|]. cbn zeta.
  destruct (_ !! findCommonAncestor oldChain newChain).
  - by rewrite (replayNewChain_range_irrelevant MR1 MR2).
  - destruct (index newChain _); [|done].
    by rewrite (Update_range_irrelevant MR1 MR2).
Qed.

(** ** The ancestor search *)

Lemma scanNew_no_match (oldHash : Z) (newRev : list Header) (commonHash : Z) :
  (forall n, n ∈ newRev -> oldHash ≠ Hash n) ->
  scanNew oldHash newRev commonHash = commonHash.
Proof.
  induction newRev as [|n rest IH]; intros Hne; [done|].
  cbn [scanNew]. rewrite decide_False by (apply Hne; left).
  apply IH. intros n' Hin. apply Hne. by right.
Qed.

Lemma scanOld_no_match (oldRev newRev : list Header) :
  (forall o n, o ∈ oldRev -> n ∈ newRev -> Hash o ≠ Hash n) ->
  scanOld oldRev newRev 0 = 0.
Proof.
  induction oldRev as [|o rest IH]; intros Hne; [done|].
  cbn [scanOld]. rewrite scanNew_no_match by (intros n; apply Hne; left).
  rewrite decide_False by (intros H; by apply H).
  apply IH. intros o' n Ho. apply Hne. by right.
Qed.

(** Two chains without a common hash: [commonHash] stays the zero hash. *)
Lemma findCommonAncestor_disjoint (oldChain newChain : list Header) :
  (forall o n, o ∈ oldChain -> n ∈ newChain -> Hash o ≠ Hash n) ->
  findCommonAncestor oldChain newChain = 0.
Proof.
  intros Hne. apply scanOld_no_match. intros o n Ho Hn.
  apply Hne; by apply elem_of_reverse.
Qed.

Lemma index_last {A : Type} (s : list A) :
  index s (Z.of_nat (length s) - 1) = last s.
Proof.
  unfold index. rewrite last_lookup. destruct s as [|x s]; [done|].
  cbn [length]. destruct (_ <? 0) eqn:Hlt; [apply Z.ltb_lt in Hlt; lia|].
  f_equal. lia.
Qed.

Section ReorgFacts.
Context {MR : MapRange}.

Lemma foldl_Update_ReorgCount (stateDB : StateReader) (headers : list Header)
    (c : Cache) :
  ReorgCount (stats (foldl (fun c header => (Update c header stateDB).1) c headers))
  = ReorgCount (stats c).
Proof.
  revert c. induction headers as [|header rest IH]; intros c; [done|].
  cbn [foldl]. by rewrite IH, Update_ReorgCount.
Qed.

(** The branch of [HandleReorg] taken when the ancestor is not in history. *)
Lemma HandleReorg_fallback (c : Cache) (oldChain newChain : list Header)
    (stateDB : StateReader) :
  Enabled (config c) = true ->
  snapshots c !! findCommonAncestor oldChain newChain = None ->
  HandleReorg c oldChain newChain stateDB =
  match last newChain with
  | Some tip =>
    ((Update (set_stats (add_ReorgCount (stats c)) c) tip stateDB).1, Returned None)
  | None => (set_stats (add_ReorgCount (stats c)) c, Panicked panic_index)
  end.
Proof.
  intros Hen Hnone. unfold HandleReorg. rewrite Hen. cbn [negb].
  cbn [snapshots set_stats]. rewrite Hnone, index_last.
  destruct (last newChain) as [tip|]; [|done].
  pose proof (Update_error (set_stats (add_ReorgCount (stats c)) c) tip stateDB) as H.
  destruct (Update _ tip stateDB) as [c' e]. cbn in H. by subst e.
Qed.

(** The branch taken when the ancestor is in history. *)
Lemma HandleReorg_found (c : Cache) (oldChain newChain : list Header)
    (stateDB : StateReader) (commonSnapshot : Snapshot) :
  Enabled (config c) = true ->
  snapshots c !! findCommonAncestor oldChain newChain = Some commonSnapshot ->
  HandleReorg c oldChain newChain stateDB =
  (foldl (fun c header => (Update c header stateDB).1)
     (set_current commonSnapshot (set_stats (add_ReorgCount (stats c)) c))
     (filter (fun header =>
                ¬ Uint64 (Number header) <= BlockNumber commonSnapshot) newChain),
   match last newChain with
   | Some _ => Returned None
   | None => Panicked panic_index
   end).
Proof.
  intros Hen Hsome. unfold HandleReorg. rewrite Hen. cbn [negb].
  cbn [snapshots set_stats]. rewrite Hsome, index_last, replayNewChain_all.
  by destruct (last newChain).
Qed.

Lemma HandleReorg_ReorgCount (c : Cache) (oldChain newChain : list Header)
    (stateDB : StateReader) :
  Enabled (config c) = true ->
  ReorgCount (stats (HandleReorg c oldChain newChain stateDB).1) =
  atomic_add1 (ReorgCount (stats c)).
Proof.
  intros Hen.
  destruct (snapshots c !! findCommonAncestor oldChain newChain) as [s|] eqn:Hc.
  - rewrite (HandleReorg_found _ _ _ _ _ Hen Hc). cbn [fst].
    by rewrite foldl_Update_ReorgCount.
  - rewrite (HandleReorg_fallback _ _ _ _ Hen Hc).
    destruct (last newChain); cbn [fst]; [|done].
    by rewrite Update_ReorgCount.
Qed.

Lemma atomic_add1_small (x : Z) : 0 <= x < 2 ^ 64 - 1 -> atomic_add1 x = x + 1.
Proof. intros H. unfold atomic_add1. apply Z.mod_small. lia. Qed.

End ReorgFacts.

Section ReorgClaims.
Context {MR : MapRange}.

(** C7. Reorg with missing ancestor, on an enabled cache: when the hash the
    search computes is not a key of the history and [newChain] has a last
    header [tip], [HandleReorg] is one [Update] with [tip] (after the reorg
    counter is bumped), returns no error, and the current snapshot is the
    one built for [tip]; two chains without a common hash give the zero
    hash as the computed ancestor; and every call bumps the reorg counter
    exactly once, whether or not the ancestor is in history. *)
Theorem HandleReorg_missing_ancestor (c : Cache) (oldChain newChain : list Header)
    (stateDB : StateReader) :
  Enabled (config c) = true ->
  (forall tip,
     last newChain = Some tip ->
     snapshots c !! findCommonAncestor oldChain newChain = None ->
     HandleReorg c oldChain newChain stateDB =
       ((Update (set_stats (add_ReorgCount (stats c)) c) tip stateDB).1,
        Returned None) /\
     current (HandleReorg c oldChain newChain stateDB).1 =
       publishedSnapshot c tip stateDB /\
     BlockHash (current (HandleReorg c oldChain newChain stateDB).1) = Hash tip /\
     snapshots (HandleReorg c oldChain newChain stateDB).1 !! Hash tip =
       Some (publishedSnapshot c tip stateDB)) /\
  ((forall o n, o ∈ oldChain -> n ∈ newChain -> Hash o ≠ Hash n) ->
   findCommonAncestor oldChain newChain = 0) /\
  ReorgCount (stats (HandleReorg c oldChain newChain stateDB).1) =
    atomic_add1 (ReorgCount (stats c)) /\
  (0 <= ReorgCount (stats c) < 2 ^ 64 - 1 ->
   ReorgCount (stats (HandleReorg c oldChain newChain stateDB).1) =
     ReorgCount (stats c) + 1).
Proof.
  intros Hen. split; [|split; [apply findCommonAncestor_disjoint|split]].
  - intros tip Htip Hnone.
    rewrite (HandleReorg_fallback _ _ _ _ Hen Hnone), Htip. cbn [fst].
    split; [done|].
    rewrite Update_current by done. rewrite Update_snapshots_new by done.
    done.
  - by apply HandleReorg_ReorgCount.
  - intros Hsmall. rewrite HandleReorg_ReorgCount by done.
    by apply atomic_add1_small.
Qed.

(** C10. On an enabled cache whose history has no snapshot under the zero
    hash, [HandleReorg] with an empty [newChain] indexes it at [-1]: the
    call panics (after bumping the reorg counter), it does not return. *)
Theorem HandleReorg_empty_newChain_panics (c : Cache) (oldChain : list Header)
    (stateDB : StateReader) :
  Enabled (config c) = true ->
  snapshots c !! 0 = None ->
  index ([] : list Header) (Z.of_nat (length ([] : list Header)) - 1) = None /\
  HandleReorg c oldChain [] stateDB =
    (set_stats (add_ReorgCount (stats c)) c, Panicked panic_index).
Proof.
  intros Hen Hzero. split; [done|].
  assert (Hc : findCommonAncestor oldChain [] = 0).
  { apply findCommonAncestor_disjoint. intros o n _ Hn. by apply elem_of_nil in Hn. }
  rewrite HandleReorg_fallback by (by rewrite ?Hc). done.
Qed.

(** With the zero hash in history the call panics all the same, in the
    closing log statement. *)
Lemma HandleReorg_empty_newChain_always_panics (c : Cache) (oldChain : list Header)
    (stateDB : StateReader) :
  Enabled (config c) = true ->
  (HandleReorg c oldChain [] stateDB).2 = Panicked panic_index.
Proof.
  intros Hen.
  destruct (snapshots c !! findCommonAncestor oldChain []) as [s|] eqn:Hc.
  - by rewrite (HandleReorg_found _ _ _ _ _ Hen Hc).
  - by rewrite (HandleReorg_fallback _ _ _ _ Hen Hc).
Qed.

End ReorgClaims.

(** ** Scenarios *)

Lemma ingest_range_irrelevant (MR1 MR2 : MapRange) (c : Cache)
    (headers : list Header) (stateDB : StateReader) :
  @ingest MR1 c headers stateDB = @ingest MR2 c headers stateDB.
Proof.
  revert c. induction headers as [|header rest IH]; intros c; [done|].
  cbn [ingest foldl]. rewrite (Update_range_irrelevant MR1 MR2). apply IH.
Qed.

(** C1. With [MaxSnapshots = 2], after [Update] for blocks 1, 2, 3 and 4 the
    history holds three snapshots, those of blocks 2, 3 and 4: one more
    than [MaxSnapshots]. Block 1 is gone. *)
Theorem retention_scenario_history (MR : MapRange) (stateDB : StateReader) :
  MaxSnapshots (config (New retentionConfig)) = 2 /\
  snapshots (ingest (New retentionConfig)
               [retBlock1; retBlock2; retBlock3; retBlock4] stateDB) =
    <[retH2 := mkSnapshot 2 retH2 1700000002 ∅]>
      (<[retH3 := mkSnapshot 3 retH3 1700000003 ∅]>
         (<[retH4 := mkSnapshot 4 retH4 1700000004 ∅]> ∅)) /\
  size (snapshots (ingest (New retentionConfig)
                     [retBlock1; retBlock2; retBlock3; retBlock4] stateDB)) = 3%nat /\
  snapshots (ingest (New retentionConfig)
               [retBlock1; retBlock2; retBlock3; retBlock4] stateDB) !! retH1 = None.
Proof.
  rewrite (ingest_range_irrelevant MR MapRange_default).
  vm_compute. done.
Qed.

Section ReorgScenario.
Context {MR : MapRange}.

Lemma cutoffOf_bound (c : Cache) (currentBlock bound : Z) :
  0 <= MaxSnapshots (config c) < 2 ^ 64 ->
  0 <= bound ->
  currentBlock - MaxSnapshots (config c) <= bound ->
  cutoffOf c currentBlock <= bound.
Proof.
  intros HM Hb Hle. unfold cutoffOf, uint64_of_int.
  rewrite Z.mod_small by lia. destruct (_ >? _); lia.
Qed.

Lemma ingest_cons (c : Cache) (header : Header) (headers : list Header)
    (stateDB : StateReader) :
  ingest c (header :: headers) stateDB =
  ingest (Update c header stateDB).1 headers stateDB.
Proof. reflexivity. Qed.

Lemma ingest_config (c : Cache) (headers : list Header) (stateDB : StateReader) :
  config (ingest c headers stateDB) = config c.
Proof.
  revert c. induction headers as [|header rest IH]; intros c; [done|].
  by rewrite ingest_cons, IH, Update_config.
Qed.

Lemma ingest_ReorgCount (c : Cache) (headers : list Header) (stateDB : StateReader) :
  ReorgCount (stats (ingest c headers stateDB)) = ReorgCount (stats c).
Proof. apply foldl_Update_ReorgCount. Qed.

(** C2, as the code has it. An enabled cache with an empty history and
    [MaxSnapshots >= 2] ingests H1 (block 1), H2a (block 2), H3a (block 3);
    all hashes are distinct and not zero, and H2b names H1 as its parent.
    [HandleReorg] with old = [H2a, H3a] and new = [H2b, H3b] compares the
    hashes of the two lists only: none agree, the computed ancestor is the
    zero hash, which is not in history, and the call is a single [Update]
    with H3b. The current snapshot is H3b's, H1 and H3b are in history, H2b
    is not, and the reorg counter has grown by exactly 1. *)
Theorem HandleReorg_sibling_chains_scenario (c0 : Cache) (stateDB : StateReader)
    (h1 h2a h3a h2b h3b : Header) :
  Enabled (config c0) = true ->
  2 <= MaxSnapshots (config c0) < 2 ^ 63 ->
  snapshots c0 = ∅ ->
  0 <= ReorgCount (stats c0) < 2 ^ 64 - 1 ->
  Number h1 = 1 -> Number h2a = 2 -> Number h3a = 3 ->
  Number h2b = 2 -> Number h3b = 3 ->
  ParentHash h2a = Hash h1 -> ParentHash h3a = Hash h2a ->
  ParentHash h2b = Hash h1 -> ParentHash h3b = Hash h2b ->
  NoDup [0; Hash h1; Hash h2a; Hash h3a; Hash h2b; Hash h3b] ->
  BlockHash (current (ingest c0 [h1; h2a; h3a] stateDB)) = Hash h3a /\
  findCommonAncestor [h2a; h3a] [h2b; h3b] = 0 /\
  snapshots (ingest c0 [h1; h2a; h3a] stateDB) !! 0 = None /\
  HandleReorg (ingest c0 [h1; h2a; h3a] stateDB) [h2a; h3a] [h2b; h3b] stateDB =
    ((Update
        (set_stats (add_ReorgCount (stats (ingest c0 [h1; h2a; h3a] stateDB)))
           (ingest c0 [h1; h2a; h3a] stateDB))
        h3b stateDB).1,
     Returned None) /\
  BlockHash (current (HandleReorg (ingest c0 [h1; h2a; h3a] stateDB)
                        [h2a; h3a] [h2b; h3b] stateDB).1) = Hash h3b /\
  is_Some (snapshots (HandleReorg (ingest c0 [h1; h2a; h3a] stateDB)
                        [h2a; h3a] [h2b; h3b] stateDB).1 !! Hash h1) /\
  is_Some (snapshots (HandleReorg (ingest c0 [h1; h2a; h3a] stateDB)
                        [h2a; h3a] [h2b; h3b] stateDB).1 !! Hash h3b) /\
  snapshots (HandleReorg (ingest c0 [h1; h2a; h3a] stateDB)
               [h2a; h3a] [h2b; h3b] stateDB).1 !! Hash h2b = None /\
  ReorgCount (stats (HandleReorg (ingest c0 [h1; h2a; h3a] stateDB)
                       [h2a; h3a] [h2b; h3b] stateDB).1) =
    ReorgCount (stats (ingest c0 [h1; h2a; h3a] stateDB)) + 1.
Proof.
  intros Hen HM Hempty Hcnt N1 N2a N3a N2b N3b _ _ _ _ Hdup.
  (* the hashes are pairwise distinct *)
  assert (Hne : 0 ≠ Hash h1 /\ 0 ≠ Hash h2a /\ 0 ≠ Hash h3a /\ 0 ≠ Hash h3b /\
                Hash h1 ≠ Hash h2a /\ Hash h1 ≠ Hash h3a /\ Hash h1 ≠ Hash h3b /\
                Hash h2a ≠ Hash h2b /\ Hash h2a ≠ Hash h3b /\
                Hash h3a ≠ Hash h2b /\ Hash h3a ≠ Hash h3b /\
                Hash h2b ≠ Hash h1 /\ Hash h2b ≠ Hash h3b).
  { repeat match goal with
           | H : NoDup (_ :: _) |- _ => apply NoDup_cons in H; destruct H
           end.
    repeat match goal with
           | H : _ ∉ _ :: _ |- _ => apply not_elem_of_cons in H; destruct H
           end.
    repeat split; congruence. }
  destruct Hne as (Z1 & Z2a & Z3a & Z3b & A1 & A2 & A3 & B1 & B2 & B3 & B4 & B5 & B6).
  set (c1 := (Update c0 h1 stateDB).1).
  set (c2 := (Update c1 h2a stateDB).1).
  set (c3 := (Update c2 h3a stateDB).1).
  assert (E3 : ingest c0 [h1; h2a; h3a] stateDB = c3) by reflexivity.
  rewrite !E3. clear E3.
  assert (C1 : config c1 = config c0) by apply Update_config.
  assert (C2 : config c2 = config c0) by (unfold c2; by rewrite Update_config).
  assert (C3 : config c3 = config c0) by (unfold c3; by rewrite Update_config).
  assert (En1 : Enabled (config c1) = true) by (by rewrite C1).
  assert (En2 : Enabled (config c2) = true) by (by rewrite C2).
  assert (En3 : Enabled (config c3) = true) by (by rewrite C3).
  assert (U1 : Uint64 1 = 1) by reflexivity.
  assert (U2 : Uint64 2 = 2) by reflexivity.
  assert (U3 : Uint64 3 = 3) by reflexivity.
  (* H1 enters the history with block 1 and is never below the cut-off *)
  set (s1 := publishedSnapshot c0 h1 stateDB).
  assert (Bs1 : BlockNumber s1 = 1) by (cbn; by rewrite N1).
  assert (K1 : snapshots c1 !! Hash h1 = Some s1) by (by apply Update_snapshots_new).
  assert (K2 : snapshots c2 !! Hash h1 = Some s1).
  { apply Update_snapshots_keep; [done..|].
    rewrite N2a, U2, Bs1. apply cutoffOf_bound; rewrite ?C1; lia. }
  assert (K3 : snapshots c3 !! Hash h1 = Some s1).
  { apply Update_snapshots_keep; [done..|].
    rewrite N3a, U3, Bs1. apply cutoffOf_bound; rewrite ?C2; lia. }
  (* neither the zero hash nor H2b is ever inserted *)
  assert (Zero3 : snapshots c3 !! 0 = None).
  { do 3 (apply Update_snapshots_None; [done|]). by rewrite Hempty. }
  assert (B3' : snapshots c3 !! Hash h2b = None).
  { do 3 (apply Update_snapshots_None; [done|]). by rewrite Hempty. }
  assert (Hanc : findCommonAncestor [h2a; h3a] [h2b; h3b] = 0).
  { apply findCommonAncestor_disjoint. intros o n Ho Hn.
    apply elem_of_cons in Ho as [->|Ho]; [|apply list_elem_of_singleton in Ho as ->];
    (apply elem_of_cons in Hn as [->|Hn]; [|apply list_elem_of_singleton in Hn as ->]);
    done. }
  set (c3' := set_stats (add_ReorgCount (stats c3)) c3).
  assert (Hre : HandleReorg c3 [h2a; h3a] [h2b; h3b] stateDB =
                ((Update c3' h3b stateDB).1, Returned None)).
  { rewrite HandleReorg_fallback by (by rewrite ?Hanc). done. }
  split; [unfold c3; by rewrite Update_current|].
  split; [done|]. split; [done|]. split; [done|].
  rewrite Hre. cbn [fst].
  split; [by rewrite Update_current|].
  split.
  { exists s1. apply Update_snapshots_keep; [done..|].
    rewrite N3b, U3, Bs1. apply cutoffOf_bound; cbn [config c3' set_stats];
      rewrite ?C3; lia. }
  split; [rewrite Update_snapshots_new by done; eauto|].
  split; [by apply Update_snapshots_None|].
  rewrite Update_ReorgCount. cbn. apply atomic_add1_small.
  unfold c3, c2, c1. rewrite !Update_ReorgCount. done.
Qed.

End ReorgScenario.

Lemma size_three (a b c : Z) :
  a ≠ b -> a ≠ c -> b ≠ c -> size ({[a; b; c]} : gset Z) = 3%nat.
Proof.
  intros Hab Hac Hbc.
  rewrite size_union.
  - rewrite size_union, !size_singleton; [done|].
    apply disjoint_singleton_l. by rewrite elem_of_singleton.
  - apply disjoint_singleton_r. rewrite elem_of_union, !elem_of_singleton.
    intros [?|?]; congruence.
Qed.

Lemma three_keys_size {V : Type} (m : gmap Z V) (a b c : Z) :
  a ≠ b -> a ≠ c -> b ≠ c ->
  is_Some (m !! a) -> is_Some (m !! b) -> is_Some (m !! c) ->
  (3 <= size m)%nat.
Proof.
  intros Hab Hac Hbc Ha Hb Hc.
  rewrite <- size_dom.
  assert (Hsub : ({[a; b; c]} : gset Z) ⊆ dom m).
  { intros k Hk. apply elem_of_dom.
    apply elem_of_union in Hk as [Hk|Hk]; [apply elem_of_union in Hk as [Hk|Hk]|];
      apply elem_of_singleton in Hk; by subst k. }
  apply subseteq_size in Hsub. by rewrite size_three in Hsub.
Qed.

Section RetentionScenario.
Context {MR : MapRange}.

(** A snapshot below the cut-off goes once the history is over the limit. *)
Lemma Update_snapshots_dropped (c : Cache) (block : Header) (stateDB : StateReader)
    (k : Z) (s : Snapshot) :
  Enabled (config c) = true ->
  k ≠ Hash block ->
  snapshots c !! k = Some s ->
  uint64_of_int (MaxSnapshots (config c)) <
    Z.of_nat (size (<[Hash block := publishedSnapshot c block stateDB]> (snapshots c))) ->
  BlockNumber s < cutoffOf c (Uint64 (Number block)) ->
  snapshots (Update c block stateDB).1 !! k = None.
Proof.
  intros Hen Hne Hk Hsize Hold. rewrite Update_snapshots_lookup by done.
  rewrite cleanupOldSnapshots_lookup. cbn [snapshots set_snapshots config].
  rewrite (proj2 (Z.leb_gt _ _)) by done.
  rewrite lookup_insert_ne, Hk by done.
  rewrite bool_decide_eq_true_2; done.
Qed.

(** The retention scenario for any watchlist, decoders and reader: with
    [MaxSnapshots = 2] and an empty history, after blocks 1 to 4 (distinct
    hashes) the history is exactly H2, H3, H4. *)
Lemma retention_keeps_one_more (c0 : Cache) (stateDB : StateReader)
    (h1 h2 h3 h4 : Header) :
  Enabled (config c0) = true ->
  MaxSnapshots (config c0) = 2 ->
  snapshots c0 = ∅ ->
  Number h1 = 1 -> Number h2 = 2 -> Number h3 = 3 -> Number h4 = 4 ->
  NoDup [Hash h1; Hash h2; Hash h3; Hash h4] ->
  dom (snapshots (ingest c0 [h1; h2; h3; h4] stateDB)) =
    ({[Hash h2; Hash h3; Hash h4]} : gset Z) /\
  size (snapshots (ingest c0 [h1; h2; h3; h4] stateDB)) = 3%nat.
Proof.
  intros Hen HM Hempty N1 N2 N3 N4 Hdup.
  assert (Hne : Hash h1 ≠ Hash h2 /\ Hash h1 ≠ Hash h3 /\ Hash h1 ≠ Hash h4 /\
                Hash h2 ≠ Hash h3 /\ Hash h2 ≠ Hash h4 /\ Hash h3 ≠ Hash h4).
  { repeat match goal with
           | H : NoDup (_ :: _) |- _ => apply NoDup_cons in H; destruct H
           end.
    repeat match goal with
           | H : _ ∉ _ :: _ |- _ => apply not_elem_of_cons in H; destruct H
           end.
    repeat split; congruence. }
  destruct Hne as (A12 & A13 & A14 & A23 & A24 & A34).
  set (c1 := (Update c0 h1 stateDB).1).
  set (c2 := (Update c1 h2 stateDB).1).
  set (c3 := (Update c2 h3 stateDB).1).
  set (c4 := (Update c3 h4 stateDB).1).
  assert (E4 : ingest c0 [h1; h2; h3; h4] stateDB = c4) by reflexivity.
  rewrite !E4. clear E4.
  assert (C1 : config c1 = config c0) by apply Update_config.
  assert (C2 : config c2 = config c0) by (unfold c2; by rewrite Update_config).
  assert (C3 : config c3 = config c0) by (unfold c3; by rewrite Update_config).
  assert (En1 : Enabled (config c1) = true) by (by rewrite C1).
  assert (En2 : Enabled (config c2) = true) by (by rewrite C2).
  assert (En3 : Enabled (config c3) = true) by (by rewrite C3).
  assert (U2 : Uint64 2 = 2) by reflexivity.
  assert (U3 : Uint64 3 = 3) by reflexivity.
  assert (U4 : Uint64 4 = 4) by reflexivity.
  set (s1 := publishedSnapshot c0 h1 stateDB).
  set (s2 := publishedSnapshot c1 h2 stateDB).
  set (s3 := publishedSnapshot c2 h3 stateDB).
  set (s4 := publishedSnapshot c3 h4 stateDB).
  assert (B1 : BlockNumber s1 = 1) by (cbn; by rewrite N1).
  assert (B2 : BlockNumber s2 = 2) by (cbn; by rewrite N2).
  assert (B3 : BlockNumber s3 = 3) by (cbn; by rewrite N3).
  (* up to block 3 nothing is below the cut-off *)
  assert (K11 : snapshots c1 !! Hash h1 = Some s1) by (by apply Update_snapshots_new).
  assert (K21 : snapshots c2 !! Hash h1 = Some s1).
  { apply Update_snapshots_keep; [done..|].
    rewrite N2, U2, B1. apply cutoffOf_bound; rewrite ?C1, ?HM; lia. }
  assert (K22 : snapshots c2 !! Hash h2 = Some s2) by (by apply Update_snapshots_new).
  assert (K31 : snapshots c3 !! Hash h1 = Some s1).
  { apply Update_snapshots_keep; [done..|].
    rewrite N3, U3, B1. apply cutoffOf_bound; rewrite ?C2, ?HM; lia. }
  assert (K32 : snapshots c3 !! Hash h2 = Some s2).
  { apply Update_snapshots_keep; [done..|].
    rewrite N3, U3, B2. apply cutoffOf_bound; rewrite ?C2, ?HM; lia. }
  assert (K33 : snapshots c3 !! Hash h3 = Some s3) by (by apply Update_snapshots_new).
  (* block 4: the cut-off is 2 and the history is over the limit *)
  assert (Hcut : cutoffOf c3 (Uint64 (Number h4)) = 2).
  { unfold cutoffOf. rewrite C3, HM, N4. reflexivity. }
  assert (K41 : snapshots c4 !! Hash h1 = None).
  { apply (Update_snapshots_dropped c3 h4 stateDB (Hash h1) s1); [done..| |].
    - rewrite C3, HM. change (uint64_of_int 2) with 2.
      pose proof (three_keys_size
                    (<[Hash h4 := publishedSnapshot c3 h4 stateDB]> (snapshots c3))
                    (Hash h1) (Hash h2) (Hash h3) A12 A13 A23) as Hsz.
      rewrite !lookup_insert_ne in Hsz by done.
      rewrite K31, K32, K33 in Hsz. specialize (Hsz ltac:(eauto) ltac:(eauto) ltac:(eauto)).
      lia.
    - rewrite Hcut, B1. lia. }
  assert (K42 : snapshots c4 !! Hash h2 = Some s2).
  { apply Update_snapshots_keep; [done..|]. rewrite Hcut, B2. lia. }
  assert (K43 : snapshots c4 !! Hash h3 = Some s3).
  { apply Update_snapshots_keep; [done..|]. rewrite Hcut, B3. lia. }
  assert (K44 : snapshots c4 !! Hash h4 = Some s4) by (by apply Update_snapshots_new).
  assert (Kother : forall k, k ≠ Hash h1 -> k ≠ Hash h2 -> k ≠ Hash h3 ->
                             k ≠ Hash h4 -> snapshots c4 !! k = None).
  { intros k ? ? ? ?. do 4 (apply Update_snapshots_None; [done|]).
    by rewrite Hempty. }
  assert (Hdom : dom (snapshots c4) = ({[Hash h2; Hash h3; Hash h4]} : gset Z)).
  { apply set_eq. intros k. rewrite elem_of_dom.
    rewrite !elem_of_union, !elem_of_singleton. split.
    - intros [s Hs].
      destruct (decide (k = Hash h2)) as [|D2]; [tauto|].
      destruct (decide (k = Hash h3)) as [|D3]; [tauto|].
      destruct (decide (k = Hash h4)) as [|D4]; [tauto|].
      destruct (decide (k = Hash h1)) as [->|D1]; [congruence|].
      rewrite Kother in Hs by done. discriminate.
    - intros [[->| ->]| ->]; eauto. }
  split; [done|].
  rewrite <- size_dom, Hdom. by apply size_three.
Qed.

End RetentionScenario.

(** C2 as stated does not hold: in the concrete scenario the ancestor the
    code computes is the zero hash, not H1, and H2b never enters the
    history. *)
Lemma reorg_known_ancestor_counterexample :
  findCommonAncestor [reorgBlock2a; reorgBlock3a] [reorgBlock2b; reorgBlock3b] = 0 /\
  snapshots
    (HandleReorg
       (ingest (New reorgConfig) [reorgBlock1; reorgBlock2a; reorgBlock3a] zeroReader)
       [reorgBlock2a; reorgBlock3a] [reorgBlock2b; reorgBlock3b] zeroReader).1
    !! reorgH2b = None /\
  ~ (findCommonAncestor [reorgBlock2a; reorgBlock3a] [reorgBlock2b; reorgBlock3b]
       = reorgH1 /\
     BlockHash (current
       (HandleReorg
          (ingest (New reorgConfig) [reorgBlock1; reorgBlock2a; reorgBlock3a] zeroReader)
          [reorgBlock2a; reorgBlock3a] [reorgBlock2b; reorgBlock3b] zeroReader).1)
       = reorgH3b /\
     is_Some (snapshots
       (HandleReorg
          (ingest (New reorgConfig) [reorgBlock1; reorgBlock2a; reorgBlock3a] zeroReader)
          [reorgBlock2a; reorgBlock3a] [reorgBlock2b; reorgBlock3b] zeroReader).1
       !! reorgH1) /\
     is_Some (snapshots
       (HandleReorg
          (ingest (New reorgConfig) [reorgBlock1; reorgBlock2a; reorgBlock3a] zeroReader)
          [reorgBlock2a; reorgBlock3a] [reorgBlock2b; reorgBlock3b] zeroReader).1
       !! reorgH2b) /\
     is_Some (snapshots
       (HandleReorg
          (ingest (New reorgConfig) [reorgBlock1; reorgBlock2a; reorgBlock3a] zeroReader)
          [reorgBlock2a; reorgBlock3a] [reorgBlock2b; reorgBlock3b] zeroReader).1
       !! reorgH3b) /\
     ReorgCount (stats
       (HandleReorg
          (ingest (New reorgConfig) [reorgBlock1; reorgBlock2a; reorgBlock3a] zeroReader)
          [reorgBlock2a; reorgBlock3a] [reorgBlock2b; reorgBlock3b] zeroReader).1)
       = ReorgCount (stats
           (ingest (New reorgConfig) [reorgBlock1; reorgBlock2a; reorgBlock3a] zeroReader))
         + 1).
Proof.
  split; [reflexivity|]. split; [vm_compute; reflexivity|].
  intros (Hanc & _). vm_compute in Hanc. discriminate.
Qed.

Lemma HandleReorg_sibling_chains_scenario_witness :
  BlockHash (current (ingest (New reorgConfig)
                        [reorgBlock1; reorgBlock2a; reorgBlock3a] zeroReader))
    = Hash reorgBlock3a /\
  findCommonAncestor [reorgBlock2a; reorgBlock3a] [reorgBlock2b; reorgBlock3b] = 0 /\
  snapshots (ingest (New reorgConfig)
               [reorgBlock1; reorgBlock2a; reorgBlock3a] zeroReader) !! 0 = None /\
  HandleReorg (ingest (New reorgConfig)
                 [reorgBlock1; reorgBlock2a; reorgBlock3a] zeroReader)
      [reorgBlock2a; reorgBlock3a] [reorgBlock2b; reorgBlock3b] zeroReader =
    ((Update
        (set_stats
           (add_ReorgCount
              (stats (ingest (New reorgConfig)
                        [reorgBlock1; reorgBlock2a; reorgBlock3a] zeroReader)))
           (ingest (New reorgConfig)
              [reorgBlock1; reorgBlock2a; reorgBlock3a] zeroReader))
        reorgBlock3b zeroReader).1,
     Returned None) /\
  BlockHash (current (HandleReorg (ingest (New reorgConfig)
                        [reorgBlock1; reorgBlock2a; reorgBlock3a] zeroReader)
                        [reorgBlock2a; reorgBlock3a] [reorgBlock2b; reorgBlock3b]
                        zeroReader).1) = Hash reorgBlock3b /\
  is_Some (snapshots (HandleReorg (ingest (New reorgConfig)
                        [reorgBlock1; reorgBlock2a; reorgBlock3a] zeroReader)
                        [reorgBlock2a; reorgBlock3a] [reorgBlock2b; reorgBlock3b]
                        zeroReader).1 !! Hash reorgBlock1) /\
  is_Some (snapshots (HandleReorg (ingest (New reorgConfig)
                        [reorgBlock1; reorgBlock2a; reorgBlock3a] zeroReader)
                        [reorgBlock2a; reorgBlock3a] [reorgBlock2b; reorgBlock3b]
                        zeroReader).1 !! Hash reorgBlock3b) /\
  snapshots (HandleReorg (ingest (New reorgConfig)
               [reorgBlock1; reorgBlock2a; reorgBlock3a] zeroReader)
               [reorgBlock2a; reorgBlock3a] [reorgBlock2b; reorgBlock3b]
               zeroReader).1 !! Hash reorgBlock2b = None /\
  ReorgCount (stats (HandleReorg (ingest (New reorgConfig)
                       [reorgBlock1; reorgBlock2a; reorgBlock3a] zeroReader)
                       [reorgBlock2a; reorgBlock3a] [reorgBlock2b; reorgBlock3b]
                       zeroReader).1) =
    ReorgCount (stats (ingest (New reorgConfig)
                         [reorgBlock1; reorgBlock2a; reorgBlock3a] zeroReader)) + 1.
Proof.
  apply (HandleReorg_sibling_chains_scenario (New reorgConfig) zeroReader
           reorgBlock1 reorgBlock2a reorgBlock3a reorgBlock2b reorgBlock3b);
    try reflexivity.
  - simpl. lia.
  - simpl. lia.
  - compute_done.
Defined.

(** ** The shadow validator *)

Lemma validateSlots_Some (addr : Z) (stateDB : StateReader) (slots : list (Z * Z))
    (slot cached canonical : Z) :
  validateSlots addr stateDB slots = Some (slot, cached, canonical) ->
  (slot, cached) ∈ slots /\ canonical = stateDB addr slot /\ cached ≠ canonical.
Proof.
  induction slots as [|[s v] rest IH]; [done|]. cbn [validateSlots].
  case_decide as Hne.
  - intros [= -> -> <-]. split; [left|done].
  - intros H. destruct (IH H) as (Hin & ? & ?). split; [by right|done].
Qed.

Lemma validateSlots_None (addr : Z) (stateDB : StateReader) (slots : list (Z * Z)) :
  validateSlots addr stateDB slots = None <->
  forall slot cached, (slot, cached) ∈ slots -> cached = stateDB addr slot.
Proof.
  induction slots as [|[s v] rest IH]; cbn [validateSlots].
  - split; [|done]. intros _ slot cached Hin. by apply elem_of_nil in Hin.
  - case_decide as Hne.
    + split; [done|]. intros H. destruct Hne. apply H. left.
    + rewrite IH. split.
      * intros H slot cached [[= -> ->]|Hin]%elem_of_cons; [|by apply H].
        by destruct (decide (v = stateDB addr s)).
      * intros H slot cached Hin. apply H. by right.
Qed.

Section ValidateFacts.
Context {MR : MapRange}.

Lemma validateContracts_Some (stateDB : StateReader)
    (contracts : list (Z * ContractState)) (err : error) :
  validateContracts stateDB contracts = Some err ->
  exists addr cachedState slot cached,
    (addr, cachedState) ∈ contracts /\
    RawSlots cachedState !! slot = Some cached /\
    cached ≠ stateDB addr slot /\
    err = inconsistentStateError addr slot cached (stateDB addr slot).
Proof.
  induction contracts as [|[a cs] rest IH]; [done|]. cbn [validateContracts].
  destruct (validateSlots a stateDB (range (RawSlots cs))) as [[[s v] can]|] eqn:Hs.
  - intros [= <-]. apply validateSlots_Some in Hs as (Hin & -> & Hne).
    apply elem_of_range in Hin. exists a, cs, s, v.
    split; [left|done].
  - intros H. destruct (IH H) as (a' & cs' & s & v & Hin & ?).
    exists a', cs', s, v. split; [by right|done].
Qed.

Lemma validateContracts_None (stateDB : StateReader)
    (contracts : list (Z * ContractState)) :
  validateContracts stateDB contracts = None <->
  forall addr cachedState slot cached,
    (addr, cachedState) ∈ contracts ->
    RawSlots cachedState !! slot = Some cached ->
    cached = stateDB addr slot.
Proof.
  induction contracts as [|[a cs] rest IH]; cbn [validateContracts].
  - split; [|done]. intros _ addr cachedState slot cached Hin.
    by apply elem_of_nil in Hin.
  - destruct (validateSlots a stateDB (range (RawSlots cs))) as [[[s v] can]|] eqn:Hs.
    + split; [done|]. intros H.
      apply validateSlots_Some in Hs as (Hin & -> & Hne).
      apply elem_of_range in Hin. destruct Hne. apply (H a cs); [left|done].
    + rewrite IH. split.
      * intros H addr cachedState slot cached [[= -> ->]|Hin]%elem_of_cons Hraw.
        -- apply (proj1 (validateSlots_None _ _ _) Hs). by apply elem_of_range.
        -- by apply (H addr cachedState).
      * intros H addr cachedState slot cached Hin. apply H. by right.
Qed.

Lemma validateContracts_current_None (c : Cache) (stateDB : StateReader) :
  validateContracts stateDB (range (Contracts (current c))) = None <->
  ~ drifted c stateDB.
Proof.
  rewrite validateContracts_None. split.
  - intros H (addr & slot & cached & (cs & Hc & Hs) & Hne).
    apply Hne. apply (H addr cs); [by apply elem_of_range|done].
  - intros H addr cs slot cached Hin Hs. apply elem_of_range in Hin.
    destruct (decide (cached = stateDB addr slot)) as [|Hne]; [done|].
    destruct H. exists addr, slot, cached. split; [by exists cs|done].
Qed.

(** C8. With shadow mode off [Validate] returns success and leaves the
    cache as it is. With shadow mode on it returns an error exactly when some
    slot cached in the current snapshot differs from what the reader
    returns; the error is an [ErrInconsistentState] carrying the address,
    slot, cached value and canonical value of such a slot, and the only
    change to the cache is [ValidationErrors] bumped once; when every
    cached slot matches, the call returns success and changes nothing. *)
Theorem Validate_reports_drift (c : Cache) (stateDB : StateReader) :
  (ShadowMode (config c) = false -> Validate c stateDB = (c, None)) /\
  (ShadowMode (config c) = true ->
   ((exists err, (Validate c stateDB).2 = Some err) <-> drifted c stateDB) /\
   (forall err,
      (Validate c stateDB).2 = Some err ->
      (exists addr slot cached,
         cachedSlot c addr slot cached /\
         cached ≠ stateDB addr slot /\
         err = inconsistentStateError addr slot cached (stateDB addr slot)) /\
      is_ErrInconsistentState err = true /\
      (Validate c stateDB).1 = set_stats (add_ValidationErrors (stats c)) c /\
      ValidationErrors (stats (Validate c stateDB).1) =
        atomic_add1 (ValidationErrors (stats c)) /\
      (0 <= ValidationErrors (stats c) < 2 ^ 64 - 1 ->
       ValidationErrors (stats (Validate c stateDB).1) =
         ValidationErrors (stats c) + 1)) /\
   (~ drifted c stateDB -> Validate c stateDB = (c, None))).
Proof.
  split; [intros H; unfold Validate; by rewrite H|].
  intros Hsh. unfold Validate, GetSnapshot. rewrite Hsh. cbn [negb].
  destruct (validateContracts stateDB (range (Contracts (current c))))
    as [e|] eqn:Hv.
  - apply validateContracts_Some in Hv as (addr & cs & slot & cached & Hin & Hs & Hne & ->).
    apply elem_of_range in Hin.
    assert (Hc : cachedSlot c addr slot cached) by (by exists cs).
    assert (Hd : drifted c stateDB) by (by exists addr, slot, cached).
    split; [split; eauto|]. split; [|done].
    intros err [= <-].
    split; [by exists addr, slot, cached|].
    split; [done|]. split; [done|]. split; [done|].
    intros Hsmall. cbn. by apply atomic_add1_small.
  - apply validateContracts_current_None in Hv.
    split; [split; [by intros [? ?]|done]|]. split; [done|done].
Qed.

End ValidateFacts.

(** ** The price helpers *)

Lemma roundNearestEven_spec (N D : Z) :
  0 < D -> 2 * Z.abs (roundNearestEven N D * D - N) <= D.
Proof.
  intros HD. unfold roundNearestEven.
  pose proof (Z.div_mod N D ltac:(lia)) as Hdm.
  pose proof (Z.mod_pos_bound N D HD) as Hr.
  destruct (2 * (N mod D) <? D) eqn:H1; [apply Z.ltb_lt in H1; lia|].
  apply Z.ltb_ge in H1.
  destruct (D <? 2 * (N mod D)) eqn:H2; [apply Z.ltb_lt in H2; lia|].
  apply Z.ltb_ge in H2.
  destruct (Z.even (N / D)); lia.
Qed.

Section PriceFacts.
Local Open Scope Q_scope.

Lemma Qpow2_pos (z : Z) : 0 < 2 ^ z.
Proof. apply Qpower_0_lt. reflexivity. Qed.

Lemma Qpow2_add (a b : Z) : 2 ^ (a + b) == 2 ^ a * 2 ^ b.
Proof. apply Qpower_plus. discriminate. Qed.

Lemma Qpow2_opp (z : Z) : 2 ^ (- z) == / 2 ^ z.
Proof. apply Qpower_opp. Qed.

Lemma Qpow2_inject (z : Z) : (0 <= z)%Z -> inject_Z (2 ^ z) == 2 ^ z.
Proof. intros H. by rewrite Zpower_Qpower. Qed.

Lemma inject_Z_pos (z : Z) : (0 < z)%Z -> 0 < inject_Z z.
Proof. intros H. rewrite Zlt_Qlt in H. exact H. Qed.

(** Rounding to nearest moves a quotient by at most one half. *)
Lemma roundNearestEven_Q (N D : Z) :
  (0 < D)%Z ->
  Qabs (inject_Z (roundNearestEven N D) - inject_Z N / inject_Z D) <= 1 # 2.
Proof.
  intros HD. pose proof (roundNearestEven_spec N D HD) as H.
  set (m := roundNearestEven N D) in *.
  pose proof (inject_Z_pos D HD) as HDq.
  assert (Hlo : (- D <= 2 * (m * D - N))%Z) by lia.
  assert (Hhi : (2 * (m * D - N) <= D)%Z) by lia.
  rewrite Zle_Qle in Hlo, Hhi. unfold Z.sub in Hlo, Hhi.
  repeat rewrite ?inject_Z_plus, ?inject_Z_mult, ?inject_Z_opp in Hlo.
  repeat rewrite ?inject_Z_plus, ?inject_Z_mult, ?inject_Z_opp in Hhi.
  change (inject_Z 2) with 2 in *.
  apply Qabs_Qle_condition.
  assert (Heq : inject_Z m - inject_Z N / inject_Z D ==
                (inject_Z m * inject_Z D - inject_Z N) / inject_Z D).
  { field. intros H0. rewrite H0 in HDq. by apply Qlt_irrefl in HDq. }
  rewrite Heq. split.
  - apply Qle_shift_div_l; [done|]. lra.
  - apply Qle_shift_div_r; [done|]. lra.
Qed.

Lemma Qpow2_cancel (z : Z) : 2 ^ (- z) * 2 ^ z == 1.
Proof. rewrite <- Qpow2_add. by replace (- z + z)%Z with 0%Z by lia. Qed.

(** [floorLog2Quo n d] is not above the binary logarithm of [n / d]. *)
Lemma floorLog2Quo_lower (n d : Z) :
  (0 < n)%Z -> (0 < d)%Z ->
  2 ^ floorLog2Quo n d * inject_Z d <= inject_Z n.
Proof.
  intros Hn Hd.
  pose proof (Z.log2_spec n Hn) as [Hna _].
  pose proof (Z.log2_spec d Hd) as [_ Hdb].
  pose proof (Z.log2_nonneg n) as Ha0. pose proof (Z.log2_nonneg d) as Hb0.
  rewrite Zle_Qle, Qpow2_inject in Hna by done.
  rewrite Zlt_Qlt, Qpow2_inject in Hdb by lia.
  pose proof (inject_Z_pos d Hd) as Hdq.
  assert (Hbelow :
    2 ^ (Z.log2 n - Z.log2 d - 1) * inject_Z d <= inject_Z n).
  { apply Qle_trans with (2 ^ Z.log2 n); [|done].
    replace (Z.log2 n) with ((Z.log2 n - Z.log2 d - 1) + Z.succ (Z.log2 d))%Z at 2
      by lia.
    rewrite Qpow2_add. apply Qmult_le_l; [apply Qpow2_pos|]. by apply Qlt_le_weak. }
  unfold floorLog2Quo. set (k := (Z.log2 n - Z.log2 d)%Z) in *.
  destruct (0 <=? k)%Z eqn:Hk.
  - apply Z.leb_le in Hk. destruct (n <? d * 2 ^ k)%Z eqn:Ht; [done|].
    apply Z.ltb_ge in Ht. rewrite Zle_Qle, inject_Z_mult, Qpow2_inject in Ht by done.
    by rewrite Qmult_comm.
  - apply Z.leb_gt in Hk. destruct (n * 2 ^ (- k) <? d)%Z eqn:Ht; [done|].
    apply Z.ltb_ge in Ht. rewrite Zle_Qle, inject_Z_mult, Qpow2_inject in Ht by lia.
    apply (Qmult_le_compat_r _ _ (2 ^ k)) in Ht; [|apply Qlt_le_weak, Qpow2_pos].
    rewrite <- Qmult_assoc, Qpow2_cancel, Qmult_1_r in Ht.
    by rewrite Qmult_comm.
Qed.

(** The rounded quotient is within a relative error of [2^-p]. *)
Lemma quoRound_error (p n d m e : Z) :
  (0 < n)%Z -> (0 < d)%Z ->
  quoRound p n d = (m, e) ->
  Qabs (inject_Z m * 2 ^ e - inject_Z n / inject_Z d) <=
  inject_Z n / inject_Z d * 2 ^ (- p).
Proof.
  intros Hn Hd [= Hm He]. rewrite He in Hm.
  pose proof (floorLog2Quo_lower n d Hn Hd) as HE.
  pose proof (inject_Z_pos d Hd) as Hdq. pose proof (inject_Z_pos n Hn) as Hnq.
  assert (Hd0 : ~ inject_Z d == 0).
  { intros H0. rewrite H0 in Hdq. by apply Qlt_irrefl in Hdq. }
  set (t := 2 ^ e). set (u := 2 ^ (p - 1)).
  assert (Ht : 0 < t) by apply Qpow2_pos.
  assert (Hu : 0 < u) by apply Qpow2_pos.
  assert (Ht0 : ~ t == 0).
  { intros H0. rewrite H0 in Ht. by apply Qlt_irrefl in Ht. }
  assert (Hu0 : ~ u == 0).
  { intros H0. rewrite H0 in Hu. by apply Qlt_irrefl in Hu. }
  replace (floorLog2Quo n d) with (e + (p - 1))%Z in HE by lia.
  rewrite Qpow2_add in HE. fold t u in HE.
  set (y := inject_Z n / inject_Z d / t).
  assert (Hround : Qabs (inject_Z m - y) <= 1 # 2).
  { rewrite <- Hm. unfold y. destruct (0 <=? e)%Z eqn:Hsign.
    - apply Z.leb_le in Hsign.
      assert (HD : (0 < d * 2 ^ e)%Z) by (apply Z.mul_pos_pos; [done|by apply Z.pow_pos_nonneg]).
      pose proof (roundNearestEven_Q n (d * 2 ^ e) HD) as H.
      rewrite inject_Z_mult, Qpow2_inject in H by done. fold t in H.
      assert (Heq : inject_Z n / inject_Z d / t == inject_Z n / (inject_Z d * t))
        by (by field).
      by rewrite Heq.
    - apply Z.leb_gt in Hsign.
      pose proof (roundNearestEven_Q (n * 2 ^ (- e)) d Hd) as H.
      rewrite inject_Z_mult, Qpow2_inject, Qpow2_opp in H by lia. fold t in H.
      assert (Heq : inject_Z n / inject_Z d / t == inject_Z n * / t / inject_Z d)
        by (by field).
      by rewrite Heq. }
  assert (Hx : inject_Z n / inject_Z d == y * t) by (unfold y; by field).
  assert (Hy : u <= y).
  { unfold y. apply Qle_shift_div_l; [done|]. apply Qle_shift_div_l; [done|].
    rewrite (Qmult_comm u t). exact HE. }
  assert (Hp : 2 ^ (- p) == / (2 * u)).
  { rewrite Qpow2_opp. replace p with (1 + (p - 1))%Z at 1 by lia.
    rewrite Qpow2_add. fold u. reflexivity. }
  rewrite Hx, Hp.
  assert (Hfac : inject_Z m * t - y * t == (inject_Z m - y) * t) by ring.
  rewrite Hfac, Qabs_Qmult, (Qabs_pos t) by (by apply Qlt_le_weak).
  apply Qle_trans with ((1 # 2) * t).
  - apply Qmult_le_compat_r; [done|by apply Qlt_le_weak].
  - assert (Hgoal : y * t * / (2 * u) == (y / u) * ((1 # 2) * t)) by (by field).
    rewrite Hgoal.
    rewrite <- (Qmult_1_l ((1 # 2) * t)) at 1.
    apply Qmult_le_compat_r.
    + apply Qle_shift_div_l; [done|]. by rewrite Qmult_1_l.
    + apply Qlt_le_weak. apply Qmult_lt_0_compat; [reflexivity|done].
Qed.

Lemma Qpow2_le (a b : Z) : (a <= b)%Z -> 2 ^ a <= 2 ^ b.
Proof. intros H. by apply Qpower_le_compat_l. Qed.


(** [Quo] on two non-zero integers held exactly. *)
Lemma Quo_SetInt (n d : Z) :
  (0 < n)%Z -> (0 < d)%Z ->
  exists p m e,
    Quo (SetInt n) (SetInt d) = Some (finite p m e) /\
    (64 <= p)%Z /\
    Qabs (inject_Z m * 2 ^ e - inject_Z n / inject_Z d) <=
      inject_Z n / inject_Z d * 2 ^ (- p).
Proof.
  intros Hn Hd. unfold Quo, SetInt. cbn [Float_prec].
  set (p := Z.max (Z.max (BitLen n) 64) (Z.max (BitLen d) 64)).
  rewrite (proj2 (Z.eqb_neq n 0)), (proj2 (Z.eqb_neq d 0)) by lia.
  rewrite (Z.abs_eq n), (Z.abs_eq d) by lia.
  destruct (quoRound p n d) as [m e] eqn:Hq.
  exists p, (Z.sgn n * Z.sgn d * m)%Z, (e + 0 - 0)%Z.
  split; [done|]. split; [lia|].
  rewrite (Z.sgn_pos n), (Z.sgn_pos d) by done.
  replace (1 * 1 * m)%Z with m by lia. replace (e + 0 - 0)%Z with e by lia.
  by apply quoRound_error.
Qed.


Lemma rounded_within_2_64 (x v : Q) (p : Z) :
  0 <= x -> (64 <= p)%Z ->
  Qabs (v - x) <= x * 2 ^ (- p) ->
  Qabs (v - x) <= x * (1 # 2 ^ 64).
Proof.
  intros Hx Hp H. eapply Qle_trans; [exact H|].
  assert (Hle : 2 ^ (- p) <= 2 ^ (- 64)) by (apply Qpow2_le; lia).
  assert (Heq : 2 ^ (- 64) == 1 # 2 ^ 64) by reflexivity.
  rewrite <- Heq.
  rewrite (Qmult_comm x (2 ^ (- p))), (Qmult_comm x (2 ^ (- 64))).
  by apply Qmult_le_compat_r.
Qed.

















End PriceFacts.


(** The data of the package's decoder test: the price and its inverse are
    both non-zero. *)
Example prices_test_vector :
  GetPrice (mkUniswapV2State 0 0 1000000 500 1234567890 0 0 0) =
    Some (finite 64 9444732965739290427 (-74)) /\
  GetInversePrice (mkUniswapV2State 0 0 1000000 500 1234567890 0 0 0) =
    Some (finite 64 18014398509481984000 (-53)) /\
  GetPrice (mkUniswapV2State 0 0 0 500 0 0 0 0) = Some NewFloat_0.
Proof. vm_compute. done. Qed.

(** ** Worked examples *)

Lemma Update_per_address_outcome_witness :
  (Update outcomeCache block100 poolReader).2 = None /\
  BlockHash (current (Update outcomeCache block100 poolReader).1) = Hash block100 /\
  (decoders outcomeCache !! brokenAddr = None ->
   Contracts (current (Update outcomeCache block100 poolReader).1) !! brokenAddr =
   Some (mkContractState brokenAddr ContractTypeUnknown ∅ None 0)) /\
  (forall decoder err,
     decoders outcomeCache !! brokenAddr = Some decoder ->
     dec_Decode decoder
       (readRequiredSlots brokenAddr poolReader ∅ (dec_RequiredSlots decoder))
       = inl err ->
     Contracts (current (Update outcomeCache block100 poolReader).1) !! brokenAddr
       = None) /\
  (forall decoder decoded,
     decoders outcomeCache !! brokenAddr = Some decoder ->
     dec_Decode decoder
       (readRequiredSlots brokenAddr poolReader ∅ (dec_RequiredSlots decoder))
       = inr decoded ->
     Contracts (current (Update outcomeCache block100 poolReader).1) !! brokenAddr =
     Some (mkContractState brokenAddr (dec_Type decoder)
             (readRequiredSlots brokenAddr poolReader ∅ (dec_RequiredSlots decoder))
             decoded 0)).
Proof.
  apply (Update_per_address_outcome outcomeCache block100 poolReader brokenAddr).
  - reflexivity.
  - exists true. reflexivity.
Defined.

(** The three outcomes side by side, and the decoded pool of the
    basic-ingest scenario. *)
Example Update_outcomes :
  Contracts (current (Update outcomeCache block100 poolReader).1) !! plainAddr =
    Some (mkContractState plainAddr ContractTypeUnknown ∅ None 0) /\
  Contracts (current (Update outcomeCache block100 poolReader).1) !! brokenAddr = None /\
  (Decoded <$> Contracts (current (Update outcomeCache block100 poolReader).1) !! poolAddr) =
    Some (Some (DecodedUniswapV2
      (mkUniswapV2State
         0xA0b86991c6218b36c1d19D4a2e9Eb0cE3606eB48
         0xC02aaA39b223FE8D0A0e5C4F27eAD9083C756Cc2
         1000000 500 1234567890 123456 789012 999999))) /\
  BlockNumber (current (Update outcomeCache block100 poolReader).1) = 100 /\
  Updates (stats (Update outcomeCache block100 poolReader).1) = 1.
Proof. vm_compute. done. Qed.

Lemma HandleReorg_missing_ancestor_witness :
  (forall tip,
     last [reorgBlock5b] = Some tip ->
     snapshots smallCache !! findCommonAncestor [reorgBlock3a] [reorgBlock5b] = None ->
     HandleReorg smallCache [reorgBlock3a] [reorgBlock5b] zeroReader =
       ((Update (set_stats (add_ReorgCount (stats smallCache)) smallCache)
           tip zeroReader).1,
        Returned None) /\
     current (HandleReorg smallCache [reorgBlock3a] [reorgBlock5b] zeroReader).1 =
       publishedSnapshot smallCache tip zeroReader /\
     BlockHash (current (HandleReorg smallCache [reorgBlock3a] [reorgBlock5b]
                           zeroReader).1) = Hash tip /\
     snapshots (HandleReorg smallCache [reorgBlock3a] [reorgBlock5b] zeroReader).1
       !! Hash tip = Some (publishedSnapshot smallCache tip zeroReader)) /\
  ((forall o n, o ∈ [reorgBlock3a] -> n ∈ [reorgBlock5b] -> Hash o ≠ Hash n) ->
   findCommonAncestor [reorgBlock3a] [reorgBlock5b] = 0) /\
  ReorgCount (stats (HandleReorg smallCache [reorgBlock3a] [reorgBlock5b]
                       zeroReader).1) =
    atomic_add1 (ReorgCount (stats smallCache)) /\
  (0 <= ReorgCount (stats smallCache) < 2 ^ 64 - 1 ->
   ReorgCount (stats (HandleReorg smallCache [reorgBlock3a] [reorgBlock5b]
                        zeroReader).1) =
     ReorgCount (stats smallCache) + 1).
Proof.
  apply (HandleReorg_missing_ancestor smallCache [reorgBlock3a] [reorgBlock5b]
           zeroReader).
  reflexivity.
Defined.

Example HandleReorg_missing_ancestor_run :
  snapshots smallCache !! findCommonAncestor [reorgBlock3a] [reorgBlock5b] = None /\
  BlockHash (current (HandleReorg smallCache [reorgBlock3a] [reorgBlock5b]
                        zeroReader).1) = Hash reorgBlock5b /\
  BlockNumber (current (HandleReorg smallCache [reorgBlock3a] [reorgBlock5b]
                          zeroReader).1) = 5 /\
  (HandleReorg smallCache [reorgBlock3a] [reorgBlock5b] zeroReader).2 = Returned None /\
  ReorgCount (stats (HandleReorg smallCache [reorgBlock3a] [reorgBlock5b]
                       zeroReader).1) = 1.
Proof. vm_compute. done. Qed.

Lemma HandleReorg_empty_newChain_panics_witness :
  index ([] : list Header) (Z.of_nat (length ([] : list Header)) - 1) = None /\
  HandleReorg smallCache [reorgBlock2a; reorgBlock3a] [] zeroReader =
    (set_stats (add_ReorgCount (stats smallCache)) smallCache, Panicked panic_index).
Proof.
  apply (HandleReorg_empty_newChain_panics smallCache [reorgBlock2a; reorgBlock3a]
           zeroReader).
  - reflexivity.
  - reflexivity.
Defined.

(** A reorg whose lists do contain the fork block: the ancestor is found,
    restored and the new branch replayed, H2b included. *)
Example HandleReorg_with_shared_block :
  findCommonAncestor [reorgBlock1; reorgBlock2a; reorgBlock3a]
                     [reorgBlock1; reorgBlock2b; reorgBlock3b] = reorgH1 /\
  (BlockNumber <$>
     snapshots
       (HandleReorg
          (ingest (New reorgConfig) [reorgBlock1; reorgBlock2a; reorgBlock3a] zeroReader)
          [reorgBlock1; reorgBlock2a; reorgBlock3a]
          [reorgBlock1; reorgBlock2b; reorgBlock3b] zeroReader).1) =
    <[reorgH1 := 1]> (<[reorgH2a := 2]> (<[reorgH3a := 3]>
      (<[reorgH2b := 2]> (<[reorgH3b := 3]> ∅)))) /\
  BlockHash (current
       (HandleReorg
          (ingest (New reorgConfig) [reorgBlock1; reorgBlock2a; reorgBlock3a] zeroReader)
          [reorgBlock1; reorgBlock2a; reorgBlock3a]
          [reorgBlock1; reorgBlock2b; reorgBlock3b] zeroReader).1) = reorgH3b.
Proof. vm_compute. done. Qed.

Example Validate_detects_drift :
  (Validate (Update outcomeCache block100 poolReader).1 poolReader).2 = None /\
  ValidationErrors
    (stats (Validate (Update outcomeCache block100 poolReader).1 poolReader).1) = 0 /\
  (Validate (Update outcomeCache block100 poolReader).1 driftedReader).2 =
    Some (inconsistentStateError poolAddr 6
            0xA0b86991c6218b36c1d19D4a2e9Eb0cE3606eB48 0x1234) /\
  ValidationErrors
    (stats (Validate (Update outcomeCache block100 poolReader).1 driftedReader).1) = 1.
Proof. vm_compute. done. Qed.

(** * Further properties *)

(** ** Construction and the watchlist *)

Lemma foldl_watch_lookup (l : list Z) (w : gmap Z bool) (a : Z) :
  foldl (fun (w : gmap Z bool) addr => <[addr := true]> w) w l !! a =
  if bool_decide (a ∈ l) then Some true else w !! a.
Proof.
  revert w. induction l as [|x l IH]; intros w.
  - cbn [foldl]. case_bool_decide as Hin; [by apply elem_of_nil in Hin|done].
  - cbn [foldl]. rewrite IH. destruct (decide (a = x)) as [->|Hne].
    + rewrite lookup_insert_eq.
      rewrite (bool_decide_eq_true_2 (x ∈ x :: l)) by left.
      by case_bool_decide.
    + rewrite lookup_insert_ne by done.
      apply (f_equal (fun b : bool => if b then Some true else w !! a)).
      apply bool_decide_ext. rewrite elem_of_cons. tauto.
Qed.

Lemma New_watchlist_lookup (cfg : Config) (a : Z) :
  watchlist (New cfg) !! a = if bool_decide (a ∈ Watchlist cfg) then Some true else None.
Proof.
  unfold New. cbn [watchlist].
  assert (HW : Watchlist
                 (if MaxSnapshots cfg =? 0
                  then mkConfig (Enabled cfg) (Watchlist cfg) (ShadowMode cfg) 64
                  else cfg) = Watchlist cfg) by (by destruct (_ =? _)).
  rewrite HW, foldl_watch_lookup, lookup_empty. done.
Qed.

(** X1. [New] turns the configured list into the watchlist map:
    [IsWatched] answers true exactly for the listed addresses, however
    often and in whatever order they are listed. *)
Theorem New_IsWatched (cfg : Config) (a : Z) :
  IsWatched (New cfg) a = true <-> a ∈ Watchlist cfg.
Proof.
  unfold IsWatched. rewrite New_watchlist_lookup.
  case_bool_decide; cbn; split; (done || congruence).
Qed.

(** ** What [updateContract] returns *)

Lemma readRequiredSlots_lookup (addr : Z) (stateDB : StateReader)
    (slots : list Z) (rawSlots : gmap Z Z) (slot : Z) :
  readRequiredSlots addr stateDB rawSlots slots !! slot =
  if bool_decide (slot ∈ slots) then Some (stateDB addr slot) else rawSlots !! slot.
Proof.
  unfold readRequiredSlots.
  induction slots as [|x slots IH] using rev_ind.
  - cbn [foldl]. case_bool_decide as Hin; [by apply elem_of_nil in Hin|done].
  - rewrite foldl_app. cbn [foldl]. destruct (decide (slot = x)) as [->|Hne].
    + rewrite lookup_insert_eq. rewrite bool_decide_eq_true_2; [done|].
      apply elem_of_app. right. by apply list_elem_of_singleton.
    + rewrite lookup_insert_ne by done. rewrite IH.
      apply (f_equal (fun b : bool =>
                        if b then Some (stateDB addr slot) else rawSlots !! slot)).
      apply bool_decide_ext. rewrite elem_of_app, list_elem_of_singleton. tauto.
Qed.

Lemma updateContract_inr (c : Cache) (addr : Z) (stateDB : StateReader)
    (contractState : ContractState) :
  updateContract c addr stateDB = inr contractState ->
  (decoders c !! addr = None /\
   contractState = mkContractState addr ContractTypeUnknown ∅ None 0) \/
  (exists decoder,
     decoders c !! addr = Some decoder /\
     dec_Decode decoder
       (readRequiredSlots addr stateDB ∅ (dec_RequiredSlots decoder)) =
       inr (Decoded contractState) /\
     contractState =
       mkContractState addr (dec_Type decoder)
         (readRequiredSlots addr stateDB ∅ (dec_RequiredSlots decoder))
         (Decoded contractState) 0).
Proof.
  unfold updateContract. destruct (decoders c !! addr) as [decoder|].
  - cbn. destruct (dec_Decode decoder _) as [err|decoded] eqn:Hd; [done|].
    intros [= <-]. right. exists decoder. cbn. by rewrite Hd.
  - intros [= <-]. by left.
Qed.

Section SnapshotContents.
Context {MR : MapRange}.

(** X2. The contents of the snapshot [Update] publishes on an enabled
    cache. An entry under [addr] is for a watched address, carries [addr]
    as its own address and no block number ([LastUpdated] is never set);
    its raw slots are exactly the decoder's required slots, each with the
    value the state reader gives; without a decoder it has type Unknown and
    no slots, with one it has the decoder's type and the record the decoder
    returned for those slots. *)
Theorem Update_snapshot_contents (c : Cache) (block : Header)
    (stateDB : StateReader) (addr : Z) (contractState : ContractState) :
  Enabled (config c) = true ->
  Contracts (current (Update c block stateDB).1) !! addr = Some contractState ->
  is_Some (watchlist c !! addr) /\
  Address contractState = addr /\
  LastUpdated contractState = 0 /\
  (forall slot value,
     RawSlots contractState !! slot = Some value -> value = stateDB addr slot) /\
  match decoders c !! addr with
  | None =>
    Type_ contractState = ContractTypeUnknown /\
    RawSlots contractState = ∅ /\
    Decoded contractState = None
  | Some decoder =>
    Type_ contractState = dec_Type decoder /\
    (forall slot, is_Some (RawSlots contractState !! slot) <->
                  slot ∈ dec_RequiredSlots decoder) /\
    dec_Decode decoder (RawSlots contractState) = inr (Decoded contractState)
  end.
Proof.
  intros Hen. rewrite Update_current by done.
  rewrite publishedSnapshot_contracts.
  destruct (watchlist c !! addr) as [w|] eqn:Hw; [|done].
  destruct (updateContract c addr stateDB) as [err|cs] eqn:Hu; [done|].
  intros [= <-]. split; [by eexists|].
  apply updateContract_inr in Hu as [[Hd ->]|(decoder & Hd & Hdec & Hcs)].
  - rewrite Hd. cbn. repeat split; done.
  - rewrite Hd, Hcs. cbn [Address LastUpdated RawSlots Type_ Decoded].
    split; [done|]. split; [done|]. split.
    + intros slot value. rewrite readRequiredSlots_lookup, lookup_empty.
      case_bool_decide; [by intros [= <-]|done].
    + split; [done|]. split; [|by rewrite Hdec, Hcs].
      intros slot. rewrite readRequiredSlots_lookup, lookup_empty.
      case_bool_decide; split; (done || by intros [? ?] || eauto).
Qed.

Lemma Update_cached_values (c : Cache) (block : Header) (stateDB : StateReader)
    (addr slot value : Z) (contractState : ContractState) :
  Enabled (config c) = true ->
  Contracts (current (Update c block stateDB).1) !! addr = Some contractState ->
  RawSlots contractState !! slot = Some value ->
  value = stateDB addr slot.
Proof.
  intros Hen. rewrite Update_current by done.
  rewrite publishedSnapshot_contracts.
  destruct (watchlist c !! addr); [|done].
  destruct (updateContract c addr stateDB) as [err|cs] eqn:Hu; [done|].
  intros [= <-].
  apply updateContract_inr in Hu as [[_ ->]|(decoder & _ & _ & ->)]; cbn [RawSlots].
  - by rewrite lookup_empty.
  - rewrite readRequiredSlots_lookup, lookup_empty.
    case_bool_decide; [by intros [= <-]|done].
Qed.

Lemma Update_not_drifted (c : Cache) (block : Header) (stateDB : StateReader) :
  Enabled (config c) = true ->
  ~ drifted (Update c block stateDB).1 stateDB.
Proof.
  intros Hen (addr & slot & cached & (cs & Hc & Hs) & Hne).
  apply Hne. by apply (Update_cached_values c block stateDB addr slot cached cs).
Qed.

(** X3. Validating right after an update, against the reader the update
    read from, finds nothing: [Validate] returns nil and leaves the cache
    as it is, and so does [ValidateContract] for every address of the
    snapshot (apart from the hit it counts). *)
Theorem Validate_after_Update (c : Cache) (block : Header) (stateDB : StateReader) :
  Enabled (config c) = true ->
  Validate (Update c block stateDB).1 stateDB = ((Update c block stateDB).1, None) /\
  (forall addr,
     is_Some (Contracts (current (Update c block stateDB).1) !! addr) ->
     ValidateContract (Update c block stateDB).1 addr stateDB =
     (if ShadowMode (config c)
      then set_stats (add_Hits (stats (Update c block stateDB).1))
             (Update c block stateDB).1
      else (Update c block stateDB).1,
      None)).
Proof.
  intros Hen. pose proof (Update_not_drifted c block stateDB Hen) as Hnd.
  split.
  - unfold Validate, GetSnapshot. destruct (negb _); [done|].
    by rewrite (proj2 (validateContracts_current_None _ _) Hnd).
  - intros addr [cs Hcs]. unfold ValidateContract.
    rewrite Update_config. destruct (ShadowMode (config c)); [|done]. cbn [negb].
    unfold GetContractState, GetSnapshot. rewrite Hcs.
    destruct (validateSlots addr stateDB (range (RawSlots cs)))
      as [[[slot cached] canonical]|] eqn:Hv; [|done].
    apply validateSlots_Some in Hv as (Hin & -> & Hne).
    apply elem_of_range in Hin. destruct Hnd.
    exists addr, slot, cached. split; [by exists cs|done].
Qed.

End SnapshotContents.

(** ** Reading the cache after an update *)

Section ReadAfterUpdate.
Context {MR : MapRange}.

(** X4. [GetRawSlot] after [Update] on an enabled cache, for a slot of
    address [addr]. An address that is not watched, or whose decoder failed,
    is a miss with [ErrNotFound]. A watched address is a hit: with a decoder
    the call returns what the state reader gave for a required slot and
    the error "slot <hex> not found" for any other slot; without a decoder
    every slot is reported as not found. *)
Theorem GetRawSlot_after_Update (c : Cache) (block : Header)
    (stateDB : StateReader) (addr slot : Z) :
  Enabled (config c) = true ->
  (watchlist c !! addr = None ->
   GetRawSlot (Update c block stateDB).1 addr slot =
   (set_stats (add_Misses (stats (Update c block stateDB).1))
      (Update c block stateDB).1,
    inl ErrNotFound)) /\
  (forall decoder err,
     decoders c !! addr = Some decoder ->
     dec_Decode decoder
       (readRequiredSlots addr stateDB ∅ (dec_RequiredSlots decoder)) = inl err ->
     GetRawSlot (Update c block stateDB).1 addr slot =
     (set_stats (add_Misses (stats (Update c block stateDB).1))
        (Update c block stateDB).1,
      inl ErrNotFound)) /\
  (is_Some (watchlist c !! addr) ->
   decoders c !! addr = None ->
   GetRawSlot (Update c block stateDB).1 addr slot =
   (set_stats (add_Hits (stats (Update c block stateDB).1))
      (Update c block stateDB).1,
    inl (errorString ("slot " +:+ Hash_Hex slot +:+ " not found")))) /\
  (forall decoder decoded,
     is_Some (watchlist c !! addr) ->
     decoders c !! addr = Some decoder ->
     dec_Decode decoder
       (readRequiredSlots addr stateDB ∅ (dec_RequiredSlots decoder)) = inr decoded ->
     GetRawSlot (Update c block stateDB).1 addr slot =
     (set_stats (add_Hits (stats (Update c block stateDB).1))
        (Update c block stateDB).1,
      if bool_decide (slot ∈ dec_RequiredSlots decoder)
      then inr (stateDB addr slot)
      else inl (errorString ("slot " +:+ Hash_Hex slot +:+ " not found")))).
Proof.
  intros Hen. unfold GetRawSlot, GetContractState, GetSnapshot.
  rewrite Update_current by done. rewrite publishedSnapshot_contracts.
  split; [by intros ->|]. split; [|split].
  - intros decoder err Hd He.
    rewrite (updateContract_decode_error _ _ _ _ _ Hd He).
    by destruct (watchlist c !! addr).
  - intros [w ->] Hd. rewrite (updateContract_no_decoder _ _ _ Hd).
    cbn [RawSlots]. by rewrite lookup_empty.
  - intros decoder decoded [w ->] Hd He.
    rewrite (updateContract_decoded _ _ _ _ _ Hd He). cbn [RawSlots].
    rewrite readRequiredSlots_lookup, lookup_empty. by case_bool_decide.
Qed.

End ReadAfterUpdate.

(** ** What [Update] and [HandleReorg] leave alone *)

Section Frames.
Context {MR : MapRange}.

Lemma foldl_Update_frame (stateDB : StateReader) (headers : list Header)
    (c : Cache) :
  config (foldl (fun c header => (Update c header stateDB).1) c headers) = config c /\
  watchlist (foldl (fun c header => (Update c header stateDB).1) c headers)
    = watchlist c /\
  decoders (foldl (fun c header => (Update c header stateDB).1) c headers)
    = decoders c.
Proof.
  revert c. induction headers as [|header rest IH]; intros c; [done|].
  cbn [foldl]. destruct (IH (Update c header stateDB).1) as (-> & -> & ->).
  by rewrite Update_config, Update_watchlist, Update_decoders.
Qed.

Lemma Update_other_counters (c : Cache) (block : Header) (stateDB : StateReader) :
  Hits (stats (Update c block stateDB).1) = Hits (stats c) /\
  Misses (stats (Update c block stateDB).1) = Misses (stats c) /\
  ValidationErrors (stats (Update c block stateDB).1) = ValidationErrors (stats c).
Proof.
  destruct (Enabled (config c)) eqn:H.
  - by rewrite Update_stats.
  - by rewrite Update_disabled.
Qed.

Lemma foldl_Update_other_counters (stateDB : StateReader) (headers : list Header)
    (c : Cache) :
  Hits (stats (foldl (fun c header => (Update c header stateDB).1) c headers))
    = Hits (stats c) /\
  Misses (stats (foldl (fun c header => (Update c header stateDB).1) c headers))
    = Misses (stats c) /\
  ValidationErrors
    (stats (foldl (fun c header => (Update c header stateDB).1) c headers))
    = ValidationErrors (stats c).
Proof.
  revert c. induction headers as [|header rest IH]; intros c; [done|].
  cbn [foldl]. destruct (IH (Update c header stateDB).1) as (-> & -> & ->).
  apply Update_other_counters.
Qed.

(** X5. [Update] and [HandleReorg] never touch the configuration, the
    watchlist, the decoder registry or the hit, miss and validation-error
    counters, whatever the arguments and whether the call returns or
    panics; [Update] bumps the update counter once when the cache is
    enabled and leaves the reorg counter alone. *)
Theorem Update_HandleReorg_frame (c : Cache) (block : Header)
    (oldChain newChain : list Header) (stateDB : StateReader) :
  (config (Update c block stateDB).1 = config c /\
   watchlist (Update c block stateDB).1 = watchlist c /\
   decoders (Update c block stateDB).1 = decoders c /\
   Hits (stats (Update c block stateDB).1) = Hits (stats c) /\
   Misses (stats (Update c block stateDB).1) = Misses (stats c) /\
   ValidationErrors (stats (Update c block stateDB).1) = ValidationErrors (stats c) /\
   ReorgCount (stats (Update c block stateDB).1) = ReorgCount (stats c) /\
   Updates (stats (Update c block stateDB).1) =
     (if Enabled (config c) then atomic_add1 (Updates (stats c))
      else Updates (stats c))) /\
  (config (HandleReorg c oldChain newChain stateDB).1 = config c /\
   watchlist (HandleReorg c oldChain newChain stateDB).1 = watchlist c /\
   decoders (HandleReorg c oldChain newChain stateDB).1 = decoders c /\
   Hits (stats (HandleReorg c oldChain newChain stateDB).1) = Hits (stats c) /\
   Misses (stats (HandleReorg c oldChain newChain stateDB).1) = Misses (stats c) /\
   ValidationErrors (stats (HandleReorg c oldChain newChain stateDB).1) =
     ValidationErrors (stats c)).
Proof.
  split.
  - rewrite Update_config, Update_watchlist, Update_decoders, Update_ReorgCount.
    destruct (Update_other_counters c block stateDB) as (-> & -> & ->).
    repeat split. destruct (Enabled (config c)) eqn:H.
    + by rewrite Update_stats.
    + by rewrite Update_disabled.
  - destruct (Enabled (config c)) eqn:Hen.
    + destruct (snapshots c !! findCommonAncestor oldChain newChain) as [s|] eqn:Hc.
      * rewrite (HandleReorg_found _ _ _ _ _ Hen Hc). cbn [fst].
        destruct (foldl_Update_frame stateDB
                    (filter (fun header => ¬ Uint64 (Number header) <= BlockNumber s)
                            newChain)
                    (set_current s (set_stats (add_ReorgCount (stats c)) c)))
          as (-> & -> & ->).
        destruct (foldl_Update_other_counters stateDB
                    (filter (fun header => ¬ Uint64 (Number header) <= BlockNumber s)
                            newChain)
                    (set_current s (set_stats (add_ReorgCount (stats c)) c)))
          as (-> & -> & ->).
        done.
      * rewrite (HandleReorg_fallback _ _ _ _ Hen Hc).
        destruct (last newChain) as [tip|]; cbn [fst]; [|done].
        rewrite Update_config, Update_watchlist, Update_decoders.
        destruct (Update_other_counters (set_stats (add_ReorgCount (stats c)) c)
                    tip stateDB) as (-> & -> & ->).
        done.
    + unfold HandleReorg. by rewrite Hen.
Qed.

End Frames.

(** ** The history *)

Section History.
Context {MR : MapRange}.

Lemma Update_snapshots_Some (c : Cache) (block : Header) (stateDB : StateReader)
    (k : Z) (s : Snapshot) :
  Enabled (config c) = true ->
  snapshots (Update c block stateDB).1 !! k = Some s ->
  (k = Hash block /\ s = publishedSnapshot c block stateDB) \/
  (k ≠ Hash block /\ snapshots c !! k = Some s).
Proof.
  intros Hen. rewrite Update_snapshots_lookup by done.
  intros Hs. apply cleanupOldSnapshots_lookup_Some in Hs. cbn in Hs.
  destruct (decide (k = Hash block)) as [->|Hne].
  - rewrite lookup_insert_eq in Hs. left. split; congruence.
  - rewrite lookup_insert_ne in Hs by done. by right.
Qed.

Lemma Update_historyKeyed (c : Cache) (block : Header) (stateDB : StateReader) :
  historyKeyed c -> historyKeyed (Update c block stateDB).1.
Proof.
  intros Hk. destruct (Enabled (config c)) eqn:Hen.
  - intros k s Hs.
    apply (Update_snapshots_Some _ _ _ _ _ Hen) in Hs as [[-> ->]|[_ Hs]];
      [reflexivity|by apply Hk].
  - by rewrite Update_disabled.
Qed.

Lemma foldl_Update_historyKeyed (stateDB : StateReader) (headers : list Header)
    (c : Cache) :
  historyKeyed c ->
  historyKeyed (foldl (fun c header => (Update c header stateDB).1) c headers).
Proof.
  revert c. induction headers as [|header rest IH]; intros c Hk; [done|].
  cbn [foldl]. by apply IH, Update_historyKeyed.
Qed.

Lemma Update_currentFiled (c : Cache) (block : Header) (stateDB : StateReader) :
  Enabled (config c) = true -> currentFiled (Update c block stateDB).1.
Proof.
  intros Hen. unfold currentFiled. rewrite Update_current by done.
  by apply Update_snapshots_new.
Qed.

Lemma foldl_Update_currentFiled (stateDB : StateReader) (headers : list Header)
    (c : Cache) :
  Enabled (config c) = true ->
  currentFiled c ->
  currentFiled (foldl (fun c header => (Update c header stateDB).1) c headers).
Proof.
  revert c. induction headers as [|header rest IH]; intros c Hen Hc; [done|].
  cbn [foldl]. apply IH; [by rewrite Update_config|by apply Update_currentFiled].
Qed.

(** X6. The history stays filed by block hash: a fresh cache has an empty
    history, and if every snapshot of the history is stored under its own
    block hash, the same holds after [Update] and after [HandleReorg]. On an
    enabled cache the current snapshot is in the history after [Update],
    and after [HandleReorg] with a non-empty new chain, whether the ancestor
    was found or not. *)
Theorem history_filed_by_hash (c : Cache) (block : Header)
    (oldChain newChain : list Header) (stateDB : StateReader) :
  (forall cfg, snapshots (New cfg) = ∅ /\ historyKeyed (New cfg)) /\
  (historyKeyed c ->
   historyKeyed (Update c block stateDB).1 /\
   historyKeyed (HandleReorg c oldChain newChain stateDB).1) /\
  (Enabled (config c) = true -> currentFiled (Update c block stateDB).1) /\
  (Enabled (config c) = true -> historyKeyed c -> newChain ≠ [] ->
   currentFiled (HandleReorg c oldChain newChain stateDB).1).
Proof.
  split; [intros cfg; split; [done|by intros k s]|].
  split; [|split; [apply Update_currentFiled|]].
  - intros Hk. split; [by apply Update_historyKeyed|].
    destruct (Enabled (config c)) eqn:Hen.
    + destruct (snapshots c !! findCommonAncestor oldChain newChain) as [s|] eqn:Hc.
      * rewrite (HandleReorg_found _ _ _ _ _ Hen Hc). cbn [fst].
        by apply foldl_Update_historyKeyed.
      * rewrite (HandleReorg_fallback _ _ _ _ Hen Hc).
        destruct (last newChain); cbn [fst]; [|done].
        by apply Update_historyKeyed.
    + unfold HandleReorg. by rewrite Hen.
  - intros Hen Hk Hnew.
    destruct (snapshots c !! findCommonAncestor oldChain newChain) as [s|] eqn:Hc.
    + rewrite (HandleReorg_found _ _ _ _ _ Hen Hc). cbn [fst].
      apply foldl_Update_currentFiled; [done|].
      unfold currentFiled. cbn. by rewrite (Hk _ _ Hc).
    + rewrite (HandleReorg_fallback _ _ _ _ Hen Hc).
      destruct (last newChain) as [tip|] eqn:Hl.
      * cbn [fst]. by apply Update_currentFiled.
      * by apply last_None in Hl.
Qed.

(** What the retention sweep guarantees once it has run. *)
Lemma Update_retained (c : Cache) (block : Header) (stateDB : StateReader) :
  Enabled (config c) = true ->
  Z.of_nat (size (snapshots (Update c block stateDB).1)) <=
    uint64_of_int (MaxSnapshots (config c)) \/
  (forall k s, snapshots (Update c block stateDB).1 !! k = Some s ->
               cutoffOf c (Uint64 (Number block)) <= BlockNumber s).
Proof.
  intros Hen.
  set (ins := set_snapshots
                (<[Hash block := publishedSnapshot c block stateDB]> (snapshots c)) c).
  destruct (Z.of_nat (size (snapshots ins)) <=?
            uint64_of_int (MaxSnapshots (config ins))) eqn:Hsz.
  - left. apply Z.leb_le in Hsz.
    assert (Heq : snapshots (Update c block stateDB).1 = snapshots ins).
    { apply map_eq. intros k. rewrite Update_snapshots_lookup by done.
      fold ins. rewrite cleanupOldSnapshots_lookup.
      by rewrite (proj2 (Z.leb_le _ _) Hsz). }
    by rewrite Heq.
  - right. intros k s. rewrite Update_snapshots_lookup by done. fold ins.
    rewrite cleanupOldSnapshots_lookup, Hsz.
    destruct (snapshots ins !! k) as [s'|]; [|done].
    case_bool_decide as Hlt; [done|]. intros [= <-].
    change (cutoffOf ins (Uint64 (Number block)))
      with (cutoffOf c (Uint64 (Number block))) in Hlt. lia.
Qed.

Lemma heightsBelow_mono (c : Cache) (n m : Z) :
  n <= m -> heightsBelow c n -> heightsBelow c m.
Proof.
  intros Hle [Hb Hinj]. split; [|done].
  intros k s Hs. specialize (Hb k s Hs). lia.
Qed.

Lemma Update_heightsBelow (c : Cache) (block : Header) (stateDB : StateReader) :
  Enabled (config c) = true ->
  heightsBelow c (Uint64 (Number block)) ->
  heightsBelow (Update c block stateDB).1 (Uint64 (Number block) + 1).
Proof.
  intros Hen [Hb Hinj]. pose proof (Uint64_nonneg (Number block)) as Hn.
  split.
  - intros k s Hs.
    apply (Update_snapshots_Some _ _ _ _ _ Hen) in Hs as [[-> ->]|[_ Hs]].
    + cbn. lia.
    + specialize (Hb k s Hs). lia.
  - intros k1 k2 s1 s2 H1 H2 Heq.
    apply (Update_snapshots_Some _ _ _ _ _ Hen) in H1 as [[-> ->]|[_ H1]];
    apply (Update_snapshots_Some _ _ _ _ _ Hen) in H2 as [[-> ->]|[_ H2]];
      try done.
    + specialize (Hb k2 s2 H2). cbn in Heq. lia.
    + specialize (Hb k1 s1 H1). cbn in Heq. lia.
    + by apply (Hinj k1 k2 s1 s2).
Qed.

(** Entries with pairwise different heights, all in a window of [w]
    heights: at most [w] of them. *)
Lemma size_heights_window {V : Type} (height : V -> Z) (m : gmap Z V) (lo w : Z) :
  0 <= w ->
  (forall k s, m !! k = Some s -> lo <= height s < lo + w) ->
  (forall k1 k2 s1 s2,
     m !! k1 = Some s1 -> m !! k2 = Some s2 -> height s1 = height s2 -> k1 = k2) ->
  Z.of_nat (size m) <= w.
Proof.
  intros Hw Hwin Hinj.
  assert (Hnd : NoDup ((fun e : Z * V => height e.2) <$> map_to_list m)).
  { apply NoDup_fmap_2_strong; [|apply NoDup_map_to_list].
    intros [k1 s1] [k2 s2] H1 H2 Heq. cbn in Heq.
    apply elem_of_map_to_list in H1, H2.
    assert (k1 = k2) by (by apply (Hinj k1 k2 s1 s2)). subst k2.
    rewrite H1 in H2. by injection H2 as ->. }
  assert (Hsub : (fun e : Z * V => height e.2) <$> map_to_list m ⊆+ seqZ lo w).
  { apply NoDup_submseteq; [done|]. intros h Hh.
    apply list_elem_of_fmap in Hh as ([k s] & -> & Hin).
    apply elem_of_map_to_list in Hin. apply elem_of_seqZ. cbn. by apply (Hwin k). }
  apply submseteq_length in Hsub.
  rewrite length_fmap, length_map_to_list, length_seqZ in Hsub. lia.
Qed.

Lemma Update_size_bound (c : Cache) (block : Header) (stateDB : StateReader) :
  Enabled (config c) = true ->
  0 <= MaxSnapshots (config c) < 2 ^ 63 ->
  heightsBelow c (Uint64 (Number block)) ->
  Z.of_nat (size (snapshots (Update c block stateDB).1)) <=
    MaxSnapshots (config c) + 1.
Proof.
  intros Hen HM Hh.
  pose proof (Update_heightsBelow c block stateDB Hen Hh) as [Hb Hinj].
  assert (HU : uint64_of_int (MaxSnapshots (config c)) = MaxSnapshots (config c)).
  { unfold uint64_of_int. apply Z.mod_small. lia. }
  destruct (Update_retained c block stateDB Hen) as [Hsz|Hcut]; [lia|].
  pose proof (Uint64_nonneg (Number block)) as Hn.
  set (n := Uint64 (Number block)) in *.
  apply (size_heights_window BlockNumber _ (cutoffOf c n)
           (MaxSnapshots (config c) + 1)); [lia| |done].
  intros k s Hs. specialize (Hb k s Hs). specialize (Hcut k s Hs).
  split; [done|]. unfold cutoffOf in *. rewrite HU in *.
  destruct (n >? MaxSnapshots (config c)) eqn:Hgt; lia.
Qed.

(** X7. The retention bound the code keeps. On an enabled cache with
    [0 <= MaxSnapshots < 2^63], when the history holds pairwise different
    heights, all below the height of [block] (ingestion in canonical order),
    then after [Update] with [block] the same holds one height further and
    the history has at most [MaxSnapshots + 1] snapshots. *)
Theorem Update_history_bound (c : Cache) (block : Header) (stateDB : StateReader) :
  Enabled (config c) = true ->
  0 <= MaxSnapshots (config c) < 2 ^ 63 ->
  heightsBelow c (Uint64 (Number block)) ->
  heightsBelow (Update c block stateDB).1 (Uint64 (Number block) + 1) /\
  Z.of_nat (size (snapshots (Update c block stateDB).1)) <=
    MaxSnapshots (config c) + 1.
Proof.
  intros Hen HM Hh. split.
  - by apply Update_heightsBelow.
  - by apply Update_size_bound.
Qed.

Lemma ingest_history_bound_aux (stateDB : StateReader) (headers : list Header)
    (c : Cache) (n : Z) :
  Enabled (config c) = true ->
  0 <= MaxSnapshots (config c) < 2 ^ 63 ->
  heightsBelow c n ->
  Z.of_nat (size (snapshots c)) <= MaxSnapshots (config c) + 1 ->
  increasingFrom n headers ->
  Z.of_nat (size (snapshots (ingest c headers stateDB))) <=
    MaxSnapshots (config c) + 1.
Proof.
  revert c n. induction headers as [|header rest IH]; intros c n Hen HM Hh Hsz Hinc;
    [done|].
  destruct Hinc as [Hle Hinc]. rewrite ingest_cons.
  apply (heightsBelow_mono c n (Uint64 (Number header)) Hle) in Hh.
  pose proof (Update_heightsBelow c header stateDB Hen Hh) as Hh'.
  pose proof (Update_size_bound c header stateDB Hen HM Hh) as Hsz'.
  rewrite <- (Update_config c header stateDB).
  apply (IH _ (Uint64 (Number header) + 1)); rewrite ?Update_config; done.
Qed.

(** X8. Starting from an empty history, after any run of [Update] calls
    whose headers have strictly increasing heights, the history of an
    enabled cache with [0 <= MaxSnapshots < 2^63] has at most
    [MaxSnapshots + 1] snapshots. *)
Theorem ingest_history_bound (c : Cache) (headers : list Header)
    (stateDB : StateReader) :
  Enabled (config c) = true ->
  0 <= MaxSnapshots (config c) < 2 ^ 63 ->
  snapshots c = ∅ ->
  increasingFrom 0 headers ->
  Z.of_nat (size (snapshots (ingest c headers stateDB))) <=
    MaxSnapshots (config c) + 1.
Proof.
  intros Hen HM Hempty Hinc.
  apply (ingest_history_bound_aux stateDB headers c 0); try done.
  - split; intros ?; rewrite Hempty; intros; by rewrite ?lookup_empty in *.
  - rewrite Hempty, map_size_empty. lia.
Qed.

(** X9. A negative [MaxSnapshots] switches retention off: converted to
    [uint64] it is at least [2^63], more than any map can hold, so the sweep
    returns at once and [Update] only ever adds to the history. *)
Theorem negative_MaxSnapshots_keeps_everything (c : Cache) (block : Header)
    (stateDB : StateReader) :
  Enabled (config c) = true ->
  - 2 ^ 63 <= MaxSnapshots (config c) < 0 ->
  Z.of_nat (size (snapshots c)) < 2 ^ 63 - 1 ->
  snapshots (Update c block stateDB).1 =
    <[Hash block := publishedSnapshot c block stateDB]> (snapshots c) /\
  (forall k s, snapshots c !! k = Some s -> k ≠ Hash block ->
               snapshots (Update c block stateDB).1 !! k = Some s).
Proof.
  intros Hen HM Hsz.
  assert (Heq : snapshots (Update c block stateDB).1 =
                <[Hash block := publishedSnapshot c block stateDB]> (snapshots c)).
  { apply map_eq. intros k. rewrite Update_snapshots_lookup by done.
    rewrite cleanupOldSnapshots_lookup. cbn [snapshots set_snapshots config].
    assert (HU : 2 ^ 63 <= uint64_of_int (MaxSnapshots (config c))).
    { unfold uint64_of_int.
      replace (MaxSnapshots (config c) mod 2 ^ 64)
        with (MaxSnapshots (config c) + 2 ^ 64); [lia|].
      apply (Z.mod_unique _ _ (-1)); lia. }
    rewrite (proj2 (Z.leb_le _ _)); [done|].
    destruct (snapshots c !! Hash block) as [s0|] eqn:Hold.
    - rewrite map_size_insert_Some by eauto. lia.
    - rewrite map_size_insert_None by done. lia. }
  split; [done|]. intros k s Hs Hne. by rewrite Heq, lookup_insert_ne.
Qed.

End History.

(** ** The ancestor search and the replay *)

Lemma scanNew_spec (oldHash : Z) (newRev : list Header) (commonHash : Z) :
  scanNew oldHash newRev commonHash =
  if bool_decide (oldHash ∈ Hash <$> newRev) then oldHash else commonHash.
Proof.
  induction newRev as [|n rest IH]; cbn [scanNew fmap list_fmap].
  - case_bool_decide as Hin; [by apply elem_of_nil in Hin|done].
  - destruct (decide (oldHash = Hash n)) as [Heq|Hne].
    + rewrite bool_decide_eq_true_2; [done|]. rewrite Heq. apply elem_of_cons. by left.
    + rewrite IH.
      apply (f_equal (fun b : bool => if b then oldHash else commonHash)).
      apply bool_decide_ext. rewrite elem_of_cons. tauto.
Qed.

Lemma scanOld_spec (oldRev newRev : list Header) :
  scanOld oldRev newRev 0 =
  match find (fun o => bool_decide (Hash o ≠ 0 /\ Hash o ∈ Hash <$> newRev)) oldRev with
  | Some o => Hash o
  | None => 0
  end.
Proof.
  induction oldRev as [|o rest IH]; [done|].
  cbn [scanOld find]. rewrite scanNew_spec.
  destruct (bool_decide (Hash o ∈ Hash <$> newRev)) eqn:Hin.
  - apply bool_decide_eq_true in Hin.
    destruct (decide (Hash o ≠ 0)) as [Hz|Hz].
    + rewrite bool_decide_eq_true_2; done.
    + rewrite bool_decide_eq_false_2 by tauto.
      assert (H0 : Hash o = 0) by (by destruct (decide (Hash o = 0))).
      rewrite H0. exact IH.
  - apply bool_decide_eq_false in Hin.
    rewrite decide_False by (intros H; by apply H).
    rewrite bool_decide_eq_false_2 by tauto. exact IH.
Qed.

Lemma find_pointwise {A : Type} (f g : A -> bool) (l : list A) :
  (forall x, f x = g x) -> find f l = find g l.
Proof.
  intros Hfg. induction l as [|x l IH]; [done|].
  cbn [find]. by rewrite Hfg, IH.
Qed.

(** X10. The ancestor search returns the hash of the old-chain block
    nearest to the old tip whose hash is not zero and also occurs in the new
    chain, and the zero hash when there is none; so the result is the zero
    hash or a hash the two chains share. *)
Theorem findCommonAncestor_nearest_shared (oldChain newChain : list Header) :
  findCommonAncestor oldChain newChain =
    match sharedBlock oldChain newChain with
    | Some o => Hash o
    | None => 0
    end /\
  (findCommonAncestor oldChain newChain = 0 \/
   exists o n, o ∈ oldChain /\ n ∈ newChain /\
               Hash o = findCommonAncestor oldChain newChain /\
               Hash n = findCommonAncestor oldChain newChain).
Proof.
  assert (Heq : findCommonAncestor oldChain newChain =
                match sharedBlock oldChain newChain with
                | Some o => Hash o
                | None => 0
                end).
  { unfold findCommonAncestor, sharedBlock. rewrite scanOld_spec.
    assert (Hext : forall o,
              bool_decide (Hash o ≠ 0 /\ Hash o ∈ Hash <$> reverse newChain) =
              bool_decide (Hash o ≠ 0 /\ Hash o ∈ Hash <$> newChain)).
    { intros o. apply bool_decide_ext. by rewrite fmap_reverse, elem_of_reverse. }
    by rewrite (find_pointwise _ _ _ Hext). }
  split; [done|]. rewrite Heq. unfold sharedBlock.
  destruct (find _ (reverse oldChain)) as [o|] eqn:Hf; [|by left]. right.
  apply find_some in Hf as [Hin Hp]. apply bool_decide_eq_true in Hp as [_ Hp].
  apply list_elem_of_fmap in Hp as (n & Hn & Hnin).
  exists o, n. split; [|done].
  apply elem_of_reverse. by apply list_elem_of_In.
Qed.

Lemma filter_above_nil (bound : Z) (headers : list Header) :
  (forall header, header ∈ headers -> Uint64 (Number header) <= bound) ->
  filter (fun header => ¬ Uint64 (Number header) <= bound) headers = [].
Proof.
  induction headers as [|h rest IH]; intros Hall; [done|].
  rewrite filter_cons_False.
  - apply IH. intros header Hin. apply Hall. by right.
  - intros Hn. apply Hn, Hall. left.
Qed.

Section Replay.
Context {MR : MapRange}.

Lemma foldl_Update_snoc (stateDB : StateReader) (headers : list Header)
    (tip : Header) (c : Cache) :
  foldl (fun c header => (Update c header stateDB).1) c (headers ++ [tip]) =
  (Update (foldl (fun c header => (Update c header stateDB).1) c headers)
     tip stateDB).1.
Proof. by rewrite foldl_app. Qed.

(** X11. [HandleReorg] when the ancestor is in the history and the new
    chain is not empty: the call returns nil; if no header of the new chain
    is above the ancestor the cache is just rolled back to the ancestor's
    snapshot; if the last header is above it, the current snapshot ends as
    that header's snapshot, which is also in the history. *)
Theorem HandleReorg_rolls_back_and_replays (c : Cache)
    (oldChain newChain : list Header) (stateDB : StateReader)
    (commonSnapshot : Snapshot) (tip : Header) :
  Enabled (config c) = true ->
  snapshots c !! findCommonAncestor oldChain newChain = Some commonSnapshot ->
  last newChain = Some tip ->
  (HandleReorg c oldChain newChain stateDB).2 = Returned None /\
  ((forall header, header ∈ newChain ->
                   Uint64 (Number header) <= BlockNumber commonSnapshot) ->
   (HandleReorg c oldChain newChain stateDB).1 =
   set_current commonSnapshot (set_stats (add_ReorgCount (stats c)) c)) /\
  (BlockNumber commonSnapshot < Uint64 (Number tip) ->
   BlockHash (current (HandleReorg c oldChain newChain stateDB).1) = Hash tip /\
   BlockNumber (current (HandleReorg c oldChain newChain stateDB).1) =
     Uint64 (Number tip) /\
   BlockTime (current (HandleReorg c oldChain newChain stateDB).1) = Time tip /\
   snapshots (HandleReorg c oldChain newChain stateDB).1 !! Hash tip =
     Some (current (HandleReorg c oldChain newChain stateDB).1)).
Proof.
  intros Hen Hc Htip. rewrite (HandleReorg_found _ _ _ _ _ Hen Hc), Htip.
  cbn [fst snd]. split; [done|]. split.
  - intros Hall. by rewrite filter_above_nil.
  - intros Habove. apply last_Some in Htip as [init ->].
    rewrite filter_app, filter_cons_True, filter_nil by lia.
    rewrite foldl_Update_snoc.
    set (c' := foldl _ _ (filter _ init)).
    assert (Hen' : Enabled (config c') = true).
    { unfold c'.
      destruct (foldl_Update_frame stateDB
                  (filter (fun header =>
                             ¬ Uint64 (Number header) <= BlockNumber commonSnapshot)
                          init)
                  (set_current commonSnapshot
                     (set_stats (add_ReorgCount (stats c)) c))) as (-> & _).
      done. }
    rewrite Update_current, Update_snapshots_new by done. done.
Qed.

End Replay.

(** ** The decoder, field by field *)

Lemma be_bytes_drop (k n : nat) (x : Z) :
  drop k (be_bytes (k + n) x) = be_bytes n x.
Proof.
  revert x. induction n as [|n IH]; intros x.
  - rewrite Nat.add_0_r. apply drop_ge. by rewrite be_bytes_length.
  - rewrite Nat.add_succ_r. cbn [be_bytes].
    rewrite drop_app_le by (rewrite be_bytes_length; lia).
    by rewrite IH.
Qed.

Lemma BytesToAddress_Hash_Bytes (h : Z) :
  BytesToAddress (Hash_Bytes h) = h mod 2 ^ 160.
Proof.
  unfold BytesToAddress. rewrite Hash_Bytes_length.
  unfold Hash_Bytes, HashLength, AddressLength.
  change (32 - 20)%nat with 12%nat. change 32%nat with (12 + 20)%nat.
  by rewrite be_bytes_drop, SetBytes_be_bytes.
Qed.

Lemma decodeReserves_fields (w : Z) (state : UniswapV2State) :
  decodeReserves (Hash_Bytes w) state =
  set_BlockTimestampLast ((w mod 2 ^ 256) / 2 ^ 224)
    (set_Reserve1 (((w mod 2 ^ 256) / 2 ^ 112) mod 2 ^ 112)
       (set_Reserve0 ((w mod 2 ^ 256) mod 2 ^ 112) state)).
Proof.
  pose proof (Z.mod_pos_bound w (2 ^ 256) ltac:(lia)) as Hw.
  rewrite <- (decodeReserves_Hash_Bytes (w mod 2 ^ 256)) by done.
  unfold decodeReserves. by rewrite !SetBytes_Hash_Bytes, Z.mod_mod by lia.
Qed.

(** X12. [Decode] field by field, when slots 6, 7 and 8 are present:
    the tokens are the low 160 bits of slots 6 and 7, the reserves the low
    and the next 112 bits of slot 8 and the timestamp its top 32 bits, and
    the two cumulative prices and [kLast] are slots 9, 10 and 11 as numbers
    (zero when the slot is absent). *)
Theorem Decode_fields (slots : gmap Z Z) (token0Value token1Value reservesValue : Z) :
  slots !! uniswapV2SlotToken0 = Some token0Value ->
  slots !! uniswapV2SlotToken1 = Some token1Value ->
  slots !! uniswapV2SlotReserves = Some reservesValue ->
  0 <= reservesValue < 2 ^ 256 ->
  UniswapV2Decoder_Decode slots =
  inr (mkUniswapV2State
         (token0Value mod 2 ^ 160)
         (token1Value mod 2 ^ 160)
         (reservesValue mod 2 ^ 112)
         ((reservesValue / 2 ^ 112) mod 2 ^ 112)
         (reservesValue / 2 ^ 224)
         (from_option (fun v => v mod 2 ^ 256) 0 (slots !! uniswapV2SlotPrice0Cumulative))
         (from_option (fun v => v mod 2 ^ 256) 0 (slots !! uniswapV2SlotPrice1Cumulative))
         (from_option (fun v => v mod 2 ^ 256) 0 (slots !! uniswapV2SlotKLast))).
Proof.
  intros H0 H1 H8 Hw. rewrite (Decode_present _ _ _ _ H0 H1 H8).
  rewrite decodeReserves_Hash_Bytes by done.
  rewrite !BytesToAddress_Hash_Bytes. unfold setOptional.
  destruct (slots !! uniswapV2SlotPrice0Cumulative);
    destruct (slots !! uniswapV2SlotPrice1Cumulative);
    destruct (slots !! uniswapV2SlotKLast);
    cbn [from_option]; rewrite ?SetBytes_Hash_Bytes; reflexivity.
Qed.

Lemma Decode_fields_witness :
  UniswapV2Decoder_Decode
    (<[6 := 2 ^ 160 + 5]> (<[7 := 7]> (<[8 := 2 ^ 255 + 2 ^ 112 + 9]>
       (<[10 := 11]> ∅)))) =
  inr (mkUniswapV2State
         ((2 ^ 160 + 5) mod 2 ^ 160)
         (7 mod 2 ^ 160)
         ((2 ^ 255 + 2 ^ 112 + 9) mod 2 ^ 112)
         (((2 ^ 255 + 2 ^ 112 + 9) / 2 ^ 112) mod 2 ^ 112)
         ((2 ^ 255 + 2 ^ 112 + 9) / 2 ^ 224)
         (from_option (fun v => v mod 2 ^ 256) 0
            ((<[6 := 2 ^ 160 + 5]> (<[7 := 7]> (<[8 := 2 ^ 255 + 2 ^ 112 + 9]>
                (<[10 := 11]> ∅))) : gmap Z Z) !! uniswapV2SlotPrice0Cumulative))
         (from_option (fun v => v mod 2 ^ 256) 0
            ((<[6 := 2 ^ 160 + 5]> (<[7 := 7]> (<[8 := 2 ^ 255 + 2 ^ 112 + 9]>
                (<[10 := 11]> ∅))) : gmap Z Z) !! uniswapV2SlotPrice1Cumulative))
         (from_option (fun v => v mod 2 ^ 256) 0
            ((<[6 := 2 ^ 160 + 5]> (<[7 := 7]> (<[8 := 2 ^ 255 + 2 ^ 112 + 9]>
                (<[10 := 11]> ∅))) : gmap Z Z) !! uniswapV2SlotKLast))).
Proof.
  apply (Decode_fields _ (2 ^ 160 + 5) 7 (2 ^ 255 + 2 ^ 112 + 9)).
  - reflexivity.
  - reflexivity.
  - reflexivity.
  - lia.
Defined.

(** X13. [Decode] reads the six required slots and nothing else: two
    inputs that agree on them decode alike, error or record. *)
Theorem Decode_ignores_other_slots (slots1 slots2 : gmap Z Z) :
  (forall slot, slot ∈ dec_RequiredSlots UniswapV2Decoder ->
                slots1 !! slot = slots2 !! slot) ->
  UniswapV2Decoder_Decode slots1 = UniswapV2Decoder_Decode slots2 /\
  dec_Decode UniswapV2Decoder slots1 = dec_Decode UniswapV2Decoder slots2.
Proof.
  intros Hagree.
  assert (Heq : UniswapV2Decoder_Decode slots1 = UniswapV2Decoder_Decode slots2).
  { unfold UniswapV2Decoder_Decode.
    rewrite (Hagree uniswapV2SlotToken0), (Hagree uniswapV2SlotToken1),
      (Hagree uniswapV2SlotReserves), (Hagree uniswapV2SlotPrice0Cumulative),
      (Hagree uniswapV2SlotPrice1Cumulative), (Hagree uniswapV2SlotKLast);
      [done|cbn [dec_RequiredSlots UniswapV2Decoder]; set_solver..]. }
  split; [done|]. cbn [dec_Decode UniswapV2Decoder]. by rewrite Heq.
Qed.

Lemma Decode_ignores_other_slots_witness :
  UniswapV2Decoder_Decode (<[6 := 1]> (<[7 := 2]> (<[8 := 3]> (<[99 := 4]> ∅)))) =
    UniswapV2Decoder_Decode (<[6 := 1]> (<[7 := 2]> (<[8 := 3]> ∅))) /\
  dec_Decode UniswapV2Decoder (<[6 := 1]> (<[7 := 2]> (<[8 := 3]> (<[99 := 4]> ∅)))) =
    dec_Decode UniswapV2Decoder (<[6 := 1]> (<[7 := 2]> (<[8 := 3]> ∅))).
Proof.
  apply (Decode_ignores_other_slots
           (<[6 := 1]> (<[7 := 2]> (<[8 := 3]> (<[99 := 4]> ∅))))
           (<[6 := 1]> (<[7 := 2]> (<[8 := 3]> ∅)))).
  intros slot Hin.
  assert (Hne : slot ≠ 99).
  { intros ->. revert Hin. vm_compute. intros Hin.
    repeat (apply elem_of_cons in Hin as [Hin|Hin]; [discriminate|]).
    by apply elem_of_nil in Hin. }
  rewrite !lookup_insert.
  repeat case_decide; try done; congruence.
Defined.

Lemma readRequiredSlots_UniswapV2 (addr : Z) (stateDB : StateReader) (slot : Z) :
  slot ∈ dec_RequiredSlots UniswapV2Decoder ->
  readRequiredSlots addr stateDB ∅ (dec_RequiredSlots UniswapV2Decoder) !! slot =
  Some (stateDB addr slot).
Proof.
  intros Hin. rewrite readRequiredSlots_lookup. by rewrite bool_decide_eq_true_2.
Qed.

(** The Uniswap V2 decoder on the slots [updateContract] has read. *)
Lemma Decode_readRequiredSlots (addr : Z) (stateDB : StateReader) :
  UniswapV2Decoder_Decode
    (readRequiredSlots addr stateDB ∅ (dec_RequiredSlots UniswapV2Decoder)) =
  inr (mkUniswapV2State
         (stateDB addr uniswapV2SlotToken0 mod 2 ^ 160)
         (stateDB addr uniswapV2SlotToken1 mod 2 ^ 160)
         ((stateDB addr uniswapV2SlotReserves mod 2 ^ 256) mod 2 ^ 112)
         (((stateDB addr uniswapV2SlotReserves mod 2 ^ 256) / 2 ^ 112) mod 2 ^ 112)
         ((stateDB addr uniswapV2SlotReserves mod 2 ^ 256) / 2 ^ 224)
         (stateDB addr uniswapV2SlotPrice0Cumulative mod 2 ^ 256)
         (stateDB addr uniswapV2SlotPrice1Cumulative mod 2 ^ 256)
         (stateDB addr uniswapV2SlotKLast mod 2 ^ 256)).
Proof.
  assert (Hall : forall slot,
            slot ∈ dec_RequiredSlots UniswapV2Decoder ->
            readRequiredSlots addr stateDB ∅ (dec_RequiredSlots UniswapV2Decoder)
              !! slot = Some (stateDB addr slot))
    by apply readRequiredSlots_UniswapV2.
  rewrite (Decode_present _ (stateDB addr uniswapV2SlotToken0)
             (stateDB addr uniswapV2SlotToken1)
             (stateDB addr uniswapV2SlotReserves));
    [|apply Hall; cbn [dec_RequiredSlots UniswapV2Decoder]; set_solver..].
  rewrite decodeReserves_fields, !BytesToAddress_Hash_Bytes. unfold setOptional.
  rewrite (Hall uniswapV2SlotPrice0Cumulative), (Hall uniswapV2SlotPrice1Cumulative),
    (Hall uniswapV2SlotKLast)
    by (cbn [dec_RequiredSlots UniswapV2Decoder]; set_solver).
  by rewrite !SetBytes_Hash_Bytes.
Qed.

Section UniswapInUpdate.
Context {MR : MapRange}.

(** X14. Inside [Update] the Uniswap V2 decoder cannot fail, because
    [updateContract] reads every required slot before it decodes: a watched
    address registered with it is always in the published snapshot, with
    type UniswapV2, its six slots as the reader gave them, and the record
    made of the reader's values (tokens cut to 160 bits, the reserves word
    split at bits 112 and 224). *)
Theorem Update_UniswapV2_always_decodes (c : Cache) (block : Header)
    (stateDB : StateReader) (addr : Z) :
  Enabled (config c) = true ->
  is_Some (watchlist c !! addr) ->
  decoders c !! addr = Some UniswapV2Decoder ->
  Contracts (current (Update c block stateDB).1) !! addr =
  Some (mkContractState addr ContractTypeUniswapV2
          (readRequiredSlots addr stateDB ∅ (dec_RequiredSlots UniswapV2Decoder))
          (Some (DecodedUniswapV2
             (mkUniswapV2State
                (stateDB addr uniswapV2SlotToken0 mod 2 ^ 160)
                (stateDB addr uniswapV2SlotToken1 mod 2 ^ 160)
                ((stateDB addr uniswapV2SlotReserves mod 2 ^ 256) mod 2 ^ 112)
                (((stateDB addr uniswapV2SlotReserves mod 2 ^ 256) / 2 ^ 112)
                   mod 2 ^ 112)
                ((stateDB addr uniswapV2SlotReserves mod 2 ^ 256) / 2 ^ 224)
                (stateDB addr uniswapV2SlotPrice0Cumulative mod 2 ^ 256)
                (stateDB addr uniswapV2SlotPrice1Cumulative mod 2 ^ 256)
                (stateDB addr uniswapV2SlotKLast mod 2 ^ 256))))
          0) /\
  (forall slot, slot ∈ dec_RequiredSlots UniswapV2Decoder ->
     readRequiredSlots addr stateDB ∅ (dec_RequiredSlots UniswapV2Decoder) !! slot =
     Some (stateDB addr slot)).
Proof.
  intros Hen [w Hw] Hd. split; [|apply readRequiredSlots_UniswapV2].
  rewrite Update_current by done. rewrite publishedSnapshot_contracts, Hw.
  rewrite (updateContract_decoded c addr stateDB UniswapV2Decoder
             (Some (DecodedUniswapV2
                (mkUniswapV2State
                   (stateDB addr uniswapV2SlotToken0 mod 2 ^ 160)
                   (stateDB addr uniswapV2SlotToken1 mod 2 ^ 160)
                   ((stateDB addr uniswapV2SlotReserves mod 2 ^ 256) mod 2 ^ 112)
                   (((stateDB addr uniswapV2SlotReserves mod 2 ^ 256) / 2 ^ 112)
                      mod 2 ^ 112)
                   ((stateDB addr uniswapV2SlotReserves mod 2 ^ 256) / 2 ^ 224)
                   (stateDB addr uniswapV2SlotPrice0Cumulative mod 2 ^ 256)
                   (stateDB addr uniswapV2SlotPrice1Cumulative mod 2 ^ 256)
                   (stateDB addr uniswapV2SlotKLast mod 2 ^ 256)))) Hd); [done|].
  cbn [dec_Decode UniswapV2Decoder].
  change [uniswapV2SlotToken0; uniswapV2SlotToken1; uniswapV2SlotReserves;
          uniswapV2SlotPrice0Cumulative; uniswapV2SlotPrice1Cumulative;
          uniswapV2SlotKLast] with (dec_RequiredSlots UniswapV2Decoder).
  by rewrite Decode_readRequiredSlots.
Qed.

End UniswapInUpdate.

Lemma Update_UniswapV2_always_decodes_witness :
  Contracts (current (Update outcomeCache block100 poolReader).1) !! poolAddr =
  Some (mkContractState poolAddr ContractTypeUniswapV2
          (readRequiredSlots poolAddr poolReader ∅
             (dec_RequiredSlots UniswapV2Decoder))
          (Some (DecodedUniswapV2
             (mkUniswapV2State
                (poolReader poolAddr uniswapV2SlotToken0 mod 2 ^ 160)
                (poolReader poolAddr uniswapV2SlotToken1 mod 2 ^ 160)
                ((poolReader poolAddr uniswapV2SlotReserves mod 2 ^ 256) mod 2 ^ 112)
                (((poolReader poolAddr uniswapV2SlotReserves mod 2 ^ 256) / 2 ^ 112)
                   mod 2 ^ 112)
                ((poolReader poolAddr uniswapV2SlotReserves mod 2 ^ 256) / 2 ^ 224)
                (poolReader poolAddr uniswapV2SlotPrice0Cumulative mod 2 ^ 256)
                (poolReader poolAddr uniswapV2SlotPrice1Cumulative mod 2 ^ 256)
                (poolReader poolAddr uniswapV2SlotKLast mod 2 ^ 256))))
          0) /\
  (forall slot, slot ∈ dec_RequiredSlots UniswapV2Decoder ->
     readRequiredSlots poolAddr poolReader ∅ (dec_RequiredSlots UniswapV2Decoder)
       !! slot = Some (poolReader poolAddr slot)).
Proof.
  apply (Update_UniswapV2_always_decodes outcomeCache block100 poolReader poolAddr).
  - reflexivity.
  - exists true. reflexivity.
  - reflexivity.
Defined.

(** ** The node-level accessors *)

Lemma errors_Is_refl (e : error) : errors_Is e e = true.
Proof. destruct e; cbn [errors_Is]; by rewrite decide_True. Qed.

Lemma HotCache_Some (bc : BlockChain) (c : Cache) :
  HotCache bc = Some c <-> hotCache bc = Some c /\ Enabled (config c) = true.
Proof.
  unfold HotCache, IsEnabled. destruct (hotCache bc) as [c'|]; [|by split; [|intros []]].
  destruct (Enabled (config c')) eqn:Hen; cbn [negb]; split.
  - by intros [= ->].
  - by intros [[= ->] _].
  - done.
  - intros [[= ->] H]. congruence.
Qed.

(** X15. The accessors follow [HotCache()]. When it is nil (no cache, or a
    disabled one) the snapshot, statistics, contract-state and Uniswap
    accessors all fail with [ErrHotCacheDisabled] and touch nothing; when
    it is a cache, the snapshot and statistics accessors return that
    cache's current snapshot and counters. [RegisterHotCacheDecoder] is the
    exception: it fails only when there is no cache at all, and registers
    on a disabled one. *)
Theorem accessors_follow_HotCache (bc : BlockChain) (addr : Z)
    (decoder : ContractDecoder) :
  (HotCache bc = None ->
   GetHotCacheSnapshot bc = inl ErrHotCacheDisabled /\
   GetHotCacheStatistics bc = inl ErrHotCacheDisabled /\
   GetHotCachedContractState bc addr = (bc, inl ErrHotCacheDisabled) /\
   GetHotCachedUniswapV2State bc addr = (bc, inl ErrHotCacheDisabled)) /\
  (forall c, HotCache bc = Some c ->
   GetHotCacheSnapshot bc = inr (current c) /\
   GetHotCacheStatistics bc = inr (stats c)) /\
  (hotCache bc = None ->
   RegisterHotCacheDecoder bc addr decoder = (bc, Some ErrHotCacheDisabled)) /\
  (forall c, hotCache bc = Some c ->
   RegisterHotCacheDecoder bc addr decoder =
     (mkBlockChain (Some (RegisterDecoder c addr decoder)), None) /\
   decoders (RegisterDecoder c addr decoder) !! addr = Some decoder /\
   (forall other, other ≠ addr ->
      decoders (RegisterDecoder c addr decoder) !! other = decoders c !! other)).
Proof.
  split; [|split; [|split]].
  - unfold HotCache, GetHotCacheSnapshot, GetHotCacheStatistics,
      GetHotCachedUniswapV2State, GetHotCachedContractState.
    destruct (hotCache bc) as [c|]; [|done].
    by destruct (negb (IsEnabled c)).
  - intros c [Hc Hen]%HotCache_Some.
    unfold GetHotCacheSnapshot, GetHotCacheStatistics, IsEnabled.
    by rewrite Hc, Hen.
  - unfold RegisterHotCacheDecoder. by intros ->.
  - intros c Hc. unfold RegisterHotCacheDecoder. rewrite Hc.
    split; [done|]. cbn. split; [by rewrite lookup_insert_eq|].
    intros other Hne. by rewrite lookup_insert_ne.
Qed.

(** X16. The contract-state accessors on an enabled cache. A contract
    absent from the current snapshot gives [ErrHotCacheNotFound] (the
    package's own [ErrNotFound] is translated) and counts a miss; a present
    one counts a hit and is returned as it is by
    [GetHotCachedContractState], while [GetHotCachedUniswapV2State] returns
    its decoded record only if the type is UniswapV2 and the record is a
    Uniswap V2 state, and the matching error otherwise. *)
Theorem GetHotCached_outcomes (bc : BlockChain) (c : Cache) (addr : Z) :
  HotCache bc = Some c ->
  match Contracts (current c) !! addr with
  | None =>
    GetHotCachedContractState bc addr =
      (mkBlockChain (Some (set_stats (add_Misses (stats c)) c)),
       inl ErrHotCacheNotFound) /\
    GetHotCachedUniswapV2State bc addr =
      (mkBlockChain (Some (set_stats (add_Misses (stats c)) c)),
       inl ErrHotCacheNotFound)
  | Some state =>
    GetHotCachedContractState bc addr =
      (mkBlockChain (Some (set_stats (add_Hits (stats c)) c)), inr state) /\
    GetHotCachedUniswapV2State bc addr =
      (mkBlockChain (Some (set_stats (add_Hits (stats c)) c)),
       match Type_ state with
       | ContractTypeUniswapV2 =>
         match Decoded state with
         | None => inl (errorString "contract state not decoded")
         | Some (DecodedUniswapV2 v2State) => inr v2State
         | Some _ => inl (errorString "failed to cast to Uniswap V2 state")
         end
       | _ => inl (errorString "contract is not a Uniswap V2 pool")
       end)
  end.
Proof.
  intros [Hc Hen]%HotCache_Some.
  unfold GetHotCachedUniswapV2State, GetHotCachedContractState, IsEnabled.
  rewrite Hc, Hen. cbn [negb]. unfold GetContractState, GetSnapshot.
  destruct (Contracts (current c) !! addr) as [state|].
  - split; [done|].
    destruct (Type_ state); try done.
    by destruct (Decoded state) as [[?|?]|].
  - by rewrite errors_Is_refl.
Qed.

Lemma GetHotCached_outcomes_witness :
  match Contracts (current (Update outcomeCache block100 poolReader).1) !! plainAddr with
  | None =>
    GetHotCachedContractState
      (mkBlockChain (Some (Update outcomeCache block100 poolReader).1)) plainAddr =
      (mkBlockChain
         (Some (set_stats
                  (add_Misses (stats (Update outcomeCache block100 poolReader).1))
                  (Update outcomeCache block100 poolReader).1)),
       inl ErrHotCacheNotFound) /\
    GetHotCachedUniswapV2State
      (mkBlockChain (Some (Update outcomeCache block100 poolReader).1)) plainAddr =
      (mkBlockChain
         (Some (set_stats
                  (add_Misses (stats (Update outcomeCache block100 poolReader).1))
                  (Update outcomeCache block100 poolReader).1)),
       inl ErrHotCacheNotFound)
  | Some state =>
    GetHotCachedContractState
      (mkBlockChain (Some (Update outcomeCache block100 poolReader).1)) plainAddr =
      (mkBlockChain
         (Some (set_stats
                  (add_Hits (stats (Update outcomeCache block100 poolReader).1))
                  (Update outcomeCache block100 poolReader).1)),
       inr state) /\
    GetHotCachedUniswapV2State
      (mkBlockChain (Some (Update outcomeCache block100 poolReader).1)) plainAddr =
      (mkBlockChain
         (Some (set_stats
                  (add_Hits (stats (Update outcomeCache block100 poolReader).1))
                  (Update outcomeCache block100 poolReader).1)),
       match Type_ state with
       | ContractTypeUniswapV2 =>
         match Decoded state with
         | None => inl (errorString "contract state not decoded")
         | Some (DecodedUniswapV2 v2State) => inr v2State
         | Some _ => inl (errorString "failed to cast to Uniswap V2 state")
         end
       | _ => inl (errorString "contract is not a Uniswap V2 pool")
       end)
  end.
Proof.
  apply (GetHotCached_outcomes
           (mkBlockChain (Some (Update outcomeCache block100 poolReader).1))
           (Update outcomeCache block100 poolReader).1 plainAddr).
  reflexivity.
Defined.

(** The three kinds of answer of the Uniswap accessor after one update. *)
Example GetHotCachedUniswapV2State_run :
  (GetHotCachedUniswapV2State
     (mkBlockChain (Some (Update outcomeCache block100 poolReader).1)) poolAddr).2 =
    inr (mkUniswapV2State
           0xA0b86991c6218b36c1d19D4a2e9Eb0cE3606eB48
           0xC02aaA39b223FE8D0A0e5C4F27eAD9083C756Cc2
           1000000 500 1234567890 123456 789012 999999) /\
  (GetHotCachedUniswapV2State
     (mkBlockChain (Some (Update outcomeCache block100 poolReader).1)) plainAddr).2 =
    inl (errorString "contract is not a Uniswap V2 pool") /\
  (GetHotCachedUniswapV2State
     (mkBlockChain (Some (Update outcomeCache block100 poolReader).1)) brokenAddr).2 =
    inl ErrHotCacheNotFound /\
  (GetHotCachedUniswapV2State (mkBlockChain None) poolAddr).2 =
    inl ErrHotCacheDisabled.
Proof. vm_compute. done. Qed.

(** ** More on the price helpers *)

Section PriceExtras.
Local Open Scope Q_scope.

Lemma floorLog2Quo_le_log2 (n d : Z) :
  (0 < d)%Z -> (floorLog2Quo n d <= Z.log2 n)%Z.
Proof.
  intros Hd. unfold floorLog2Quo. pose proof (Z.log2_nonneg d).
  destruct (if (0 <=? Z.log2 n - Z.log2 d)%Z then _ else _); lia.
Qed.

(** An exact quotient is not changed by the rounding. *)
Lemma quoRound_exact (p q d m e : Z) :
  (0 < q)%Z -> (0 < d)%Z ->
  (Z.log2 (q * d) + 1 <= p)%Z ->
  quoRound p (q * d) d = (m, e) ->
  inject_Z m * 2 ^ e == inject_Z q.
Proof.
  intros Hq Hd Hp [= Hm He].
  pose proof (floorLog2Quo_le_log2 (q * d) d Hd) as HE.
  assert (Hneg : (e <= 0)%Z) by lia.
  rewrite He in Hm.
  destruct (0 <=? e)%Z eqn:Hsign.
  - apply Z.leb_le in Hsign. assert (E0 : e = 0%Z) by lia.
    rewrite E0 in Hm |- *. rewrite Z.pow_0_r, Z.mul_1_r in Hm. rewrite <- Hm.
    unfold roundNearestEven. rewrite Z.mod_mul, Z.div_mul by lia.
    rewrite (proj2 (Z.ltb_lt (2 * 0) d)) by lia.
    change (2 ^ 0) with 1. ring.
  - rewrite <- Hm. unfold roundNearestEven.
    replace (q * d * 2 ^ (- e))%Z with (q * 2 ^ (- e) * d)%Z by ring.
    rewrite Z.mod_mul, Z.div_mul by lia.
    rewrite (proj2 (Z.ltb_lt (2 * 0) d)) by lia.
    rewrite inject_Z_mult, Qpow2_inject by lia.
    rewrite <- Qmult_assoc, Qpow2_cancel. ring.
Qed.

Lemma BitLen_pos (x : Z) : (0 < x)%Z -> BitLen x = (Z.log2 x + 1)%Z.
Proof.
  intros Hx. unfold BitLen. rewrite (proj2 (Z.eqb_neq x 0)) by lia.
  by rewrite Z.abs_eq by lia.
Qed.

(** X17. For positive reserves both prices are positive (never rounded to
    zero), and when [reserve0] divides [reserve1] the price is the exact
    integer quotient; in particular equal reserves give the price 1, the
    inverse price 1 and the product exactly 1. *)
Theorem prices_positive_and_exact_quotients (s : UniswapV2State) :
  (0 < Reserve0 s)%Z -> (0 < Reserve1 s)%Z ->
  exists price inverse,
    GetPrice s = Some price /\
    GetInversePrice s = Some inverse /\
    0 < Float_value price /\
    0 < Float_value inverse /\
    (forall q, Reserve1 s = (q * Reserve0 s)%Z -> Float_value price == inject_Z q) /\
    (forall q, Reserve0 s = (q * Reserve1 s)%Z -> Float_value inverse == inject_Z q) /\
    (Reserve0 s = Reserve1 s -> Float_value price * Float_value inverse == 1).
Proof.
  intros H0 H1. unfold GetPrice, GetInversePrice.
  rewrite (proj2 (Z.eqb_neq (Z.sgn (Reserve0 s)) 0)) by lia.
  rewrite (proj2 (Z.eqb_neq (Z.sgn (Reserve1 s)) 0)) by lia.
  cbn zeta.
  assert (Hpos : forall n d p m e,
            (0 < n)%Z -> (0 < d)%Z -> (64 <= p)%Z ->
            Qabs (inject_Z m * 2 ^ e - inject_Z n / inject_Z d) <=
              inject_Z n / inject_Z d * 2 ^ (- p) ->
            0 < inject_Z m * 2 ^ e).
  { intros n d p m e Hn Hd Hp Hb.
    pose proof (inject_Z_pos _ Hn) as Hnq. pose proof (inject_Z_pos _ Hd) as Hdq.
    assert (Hx : 0 < inject_Z n / inject_Z d).
    { apply Qlt_shift_div_l; [done|]. by rewrite Qmult_0_l. }
    apply rounded_within_2_64 in Hb; [|by apply Qlt_le_weak|done].
    apply Qabs_Qle_condition in Hb as [Hlo _].
    assert (Hsmall : (1 # 2 ^ 64) < 1) by reflexivity.
    assert (Hprod : inject_Z n / inject_Z d * (1 # 2 ^ 64) < inject_Z n / inject_Z d).
    { rewrite <- (Qmult_1_r (inject_Z n / inject_Z d)) at 2.
      by apply Qmult_lt_l. }
    lra. }
  assert (Hexact : forall n d q p m e,
            (0 < n)%Z -> (0 < d)%Z -> n = (q * d)%Z ->
            p = Z.max (Z.max (BitLen n) 64) (Z.max (BitLen d) 64) ->
            quoRound p n d = (m, e) ->
            inject_Z m * 2 ^ e == inject_Z q).
  { intros n d q p m e Hn Hd -> -> Hq.
    assert (Hqpos : (0 < q)%Z) by nia.
    eapply quoRound_exact; [exact Hqpos|exact Hd| |exact Hq].
    rewrite <- BitLen_pos by done. lia. }
  unfold Quo, SetInt. cbn [Float_prec].
  rewrite (proj2 (Z.eqb_neq (Reserve0 s) 0)), (proj2 (Z.eqb_neq (Reserve1 s) 0)) by lia.
  rewrite (Z.abs_eq (Reserve0 s)), (Z.abs_eq (Reserve1 s)) by lia.
  rewrite (Z.sgn_pos (Reserve0 s)), (Z.sgn_pos (Reserve1 s)) by done.
  destruct (quoRound _ (Reserve1 s) (Reserve0 s)) as [m e] eqn:Hq.
  destruct (quoRound _ (Reserve0 s) (Reserve1 s)) as [m' e'] eqn:Hq'.
  eexists _, _. split; [done|]. split; [done|]. cbn [Float_value].
  replace (1 * 1 * m)%Z with m by lia. replace (1 * 1 * m')%Z with m' by lia.
  replace (e + 0 - 0)%Z with e by lia. replace (e' + 0 - 0)%Z with e' by lia.
  pose proof (quoRound_error _ _ _ _ _ H1 H0 Hq) as Hb.
  pose proof (quoRound_error _ _ _ _ _ H0 H1 Hq') as Hb'.
  split; [eapply Hpos; [exact H1|exact H0| |exact Hb]; lia|].
  split; [eapply Hpos; [exact H0|exact H1| |exact Hb']; lia|].
  split; [intros q Hdiv; by apply (Hexact _ _ q _ _ _ H1 H0 Hdiv eq_refl Hq)|].
  split; [intros q Hdiv; by apply (Hexact _ _ q _ _ _ H0 H1 Hdiv eq_refl Hq')|].
  intros Heq.
  assert (E1 : inject_Z m * 2 ^ e == inject_Z 1).
  { apply (Hexact _ _ 1%Z _ _ _ H1 H0 ltac:(lia) eq_refl Hq). }
  assert (E2 : inject_Z m' * 2 ^ e' == inject_Z 1).
  { apply (Hexact _ _ 1%Z _ _ _ H0 H1 ltac:(lia) eq_refl Hq'). }
  rewrite E1, E2. reflexivity.
Qed.

End PriceExtras.

Lemma prices_positive_and_exact_quotients_witness :
  exists price inverse,
    GetPrice (mkUniswapV2State 0 0 500 1000000 0 0 0 0) = Some price /\
    GetInversePrice (mkUniswapV2State 0 0 500 1000000 0 0 0 0) = Some inverse /\
    (0 < Float_value price)%Q /\
    (0 < Float_value inverse)%Q /\
    (forall q, Reserve1 (mkUniswapV2State 0 0 500 1000000 0 0 0 0) =
               q * Reserve0 (mkUniswapV2State 0 0 500 1000000 0 0 0 0) ->
               (Float_value price == inject_Z q)%Q) /\
    (forall q, Reserve0 (mkUniswapV2State 0 0 500 1000000 0 0 0 0) =
               q * Reserve1 (mkUniswapV2State 0 0 500 1000000 0 0 0 0) ->
               (Float_value inverse == inject_Z q)%Q) /\
    (Reserve0 (mkUniswapV2State 0 0 500 1000000 0 0 0 0) =
     Reserve1 (mkUniswapV2State 0 0 500 1000000 0 0 0 0) ->
     (Float_value price * Float_value inverse == 1)%Q).
Proof.
  apply (prices_positive_and_exact_quotients (mkUniswapV2State 0 0 500 1000000 0 0 0 0)).
  - reflexivity.
  - reflexivity.
Defined.

(** ** Validating one contract *)

Section ValidateContractFacts.
Context {MR : MapRange}.

(** X18. [ValidateContract] in shadow mode. It goes through
    [GetContractState], so it is not a pure observer: an address absent
    from the current snapshot gives [ErrNotFound] and counts a miss, a
    present one counts a hit. For a present address it returns an
    inconsistency error, and bumps [ValidationErrors], exactly when one of
    that contract's cached slots differs from the reader; and [Validate]
    passes exactly when [ValidateContract] passes for every address of the
    snapshot. *)
Theorem ValidateContract_outcome (c : Cache) (addr : Z) (stateDB : StateReader) :
  ShadowMode (config c) = true ->
  (Contracts (current c) !! addr = None ->
   ValidateContract c addr stateDB =
   (set_stats (add_Misses (stats c)) c, Some ErrNotFound)) /\
  (forall cachedState,
     Contracts (current c) !! addr = Some cachedState ->
     ((forall slot cached, RawSlots cachedState !! slot = Some cached ->
                           cached = stateDB addr slot) ->
      ValidateContract c addr stateDB = (set_stats (add_Hits (stats c)) c, None)) /\
     ((exists slot cached, RawSlots cachedState !! slot = Some cached /\
                           cached ≠ stateDB addr slot) ->
      exists slot cached,
        RawSlots cachedState !! slot = Some cached /\
        cached ≠ stateDB addr slot /\
        ValidateContract c addr stateDB =
        (set_stats (add_ValidationErrors (add_Hits (stats c))) c,
         Some (inconsistentStateError addr slot cached (stateDB addr slot))))) /\
  ((Validate c stateDB).2 = None <->
   forall a, is_Some (Contracts (current c) !! a) ->
             (ValidateContract c a stateDB).2 = None).
Proof.
  intros Hsh. unfold ValidateContract. rewrite Hsh. cbn [negb].
  unfold GetContractState, GetSnapshot.
  split; [by intros ->|]. split.
  - intros cs Hcs. rewrite Hcs. split.
    + intros Hall.
      by rewrite (proj2 (validateSlots_None addr stateDB (range (RawSlots cs))))
        by (intros slot cached Hin; apply Hall; by apply elem_of_range).
    + intros (slot0 & cached0 & Hs0 & Hne0).
      destruct (validateSlots addr stateDB (range (RawSlots cs)))
        as [[[slot cached] canonical]|] eqn:Hv.
      * apply validateSlots_Some in Hv as (Hin & -> & Hne).
        apply elem_of_range in Hin. by exists slot, cached.
      * destruct Hne0.
        apply (proj1 (validateSlots_None _ _ _) Hv). by apply elem_of_range.
  - assert (HV : (Validate c stateDB).2 = None <-> ~ drifted c stateDB).
    { unfold Validate, GetSnapshot. rewrite Hsh. cbn [negb].
      rewrite <- validateContracts_current_None.
      by destruct (validateContracts stateDB (range (Contracts (current c)))). }
    rewrite HV. split.
    + intros Hnd a [cs Hcs]. rewrite Hcs.
      destruct (validateSlots a stateDB (range (RawSlots cs)))
        as [[[slot cached] canonical]|] eqn:Hv; [|done].
      apply validateSlots_Some in Hv as (Hin & -> & Hne).
      apply elem_of_range in Hin. destruct Hnd.
      exists a, slot, cached. split; [by exists cs|done].
    + intros Hall (a & slot & cached & (cs & Hcs & Hs) & Hne).
      specialize (Hall a ltac:(eauto)). rewrite Hcs in Hall.
      destruct (validateSlots a stateDB (range (RawSlots cs)))
        as [[[slot' cached'] canonical']|] eqn:Hv; [done|].
      apply Hne. apply (proj1 (validateSlots_None _ _ _) Hv).
      by apply elem_of_range.
Qed.

End ValidateContractFacts.

Lemma ValidateContract_outcome_witness :
  (Contracts (current (Update outcomeCache block100 poolReader).1) !! poolAddr = None ->
   ValidateContract (Update outcomeCache block100 poolReader).1 poolAddr driftedReader =
   (set_stats (add_Misses (stats (Update outcomeCache block100 poolReader).1))
      (Update outcomeCache block100 poolReader).1,
    Some ErrNotFound)) /\
  (forall cachedState,
     Contracts (current (Update outcomeCache block100 poolReader).1) !! poolAddr =
       Some cachedState ->
     ((forall slot cached, RawSlots cachedState !! slot = Some cached ->
                           cached = driftedReader poolAddr slot) ->
      ValidateContract (Update outcomeCache block100 poolReader).1 poolAddr
        driftedReader =
      (set_stats (add_Hits (stats (Update outcomeCache block100 poolReader).1))
         (Update outcomeCache block100 poolReader).1, None)) /\
     ((exists slot cached, RawSlots cachedState !! slot = Some cached /\
                           cached ≠ driftedReader poolAddr slot) ->
      exists slot cached,
        RawSlots cachedState !! slot = Some cached /\
        cached ≠ driftedReader poolAddr slot /\
        ValidateContract (Update outcomeCache block100 poolReader).1 poolAddr
          driftedReader =
        (set_stats
           (add_ValidationErrors
              (add_Hits (stats (Update outcomeCache block100 poolReader).1)))
           (Update outcomeCache block100 poolReader).1,
         Some (inconsistentStateError poolAddr slot cached
                 (driftedReader poolAddr slot))))) /\
  ((Validate (Update outcomeCache block100 poolReader).1 driftedReader).2 = None <->
   forall a, is_Some (Contracts (current (Update outcomeCache block100 poolReader).1)
                        !! a) ->
             (ValidateContract (Update outcomeCache block100 poolReader).1 a
                driftedReader).2 = None).
Proof.
  apply (ValidateContract_outcome (Update outcomeCache block100 poolReader).1
           poolAddr driftedReader).
  reflexivity.
Defined.

(** ** The default set-up *)

Lemma foldl_register_frame (decoder : ContractDecoder)
    (pairs : list (string * Z)) (c : Cache) :
  config (foldl (fun cache '(_, addr) => RegisterDecoder cache addr decoder) c pairs)
    = config c /\
  current (foldl (fun cache '(_, addr) => RegisterDecoder cache addr decoder) c pairs)
    = current c /\
  snapshots (foldl (fun cache '(_, addr) => RegisterDecoder cache addr decoder) c pairs)
    = snapshots c /\
  watchlist (foldl (fun cache '(_, addr) => RegisterDecoder cache addr decoder) c pairs)
    = watchlist c /\
  stats (foldl (fun cache '(_, addr) => RegisterDecoder cache addr decoder) c pairs)
    = stats c.
Proof.
  revert c. induction pairs as [|[name addr] pairs IH]; intros c; [done|].
  cbn [foldl]. by destruct (IH (RegisterDecoder c addr decoder)) as (-> & -> & -> & -> & ->).
Qed.

Lemma foldl_register_lookup (decoder : ContractDecoder)
    (pairs : list (string * Z)) (c : Cache) (a : Z) :
  decoders (foldl (fun cache '(_, addr) => RegisterDecoder cache addr decoder) c pairs)
    !! a =
  if bool_decide (a ∈ pairs.*2) then Some decoder else decoders c !! a.
Proof.
  revert c. induction pairs as [|[name addr] pairs IH]; intros c.
  - cbn [foldl]. case_bool_decide as Hin; [by apply elem_of_nil in Hin|done].
  - cbn [foldl]. rewrite IH. cbn [decoders RegisterDecoder set_decoders].
    destruct (decide (a = addr)) as [->|Hne].
    + rewrite lookup_insert_eq.
      rewrite (bool_decide_eq_true_2 (addr ∈ ((name, addr) :: pairs).*2))
        by (cbn; left).
      by case_bool_decide.
    + rewrite lookup_insert_ne by done.
      apply (f_equal (fun b : bool => if b then Some decoder else decoders c !! a)).
      apply bool_decide_ext. cbn. rewrite elem_of_cons. tauto.
Qed.

Lemma default_watchlist_in_pairs (a : Z) :
  a ∈ GetDefaultWatchlist 1 -> a ∈ (map_to_list UniswapV2PairsMainnet).*2.
Proof.
  intros Hin. apply list_elem_of_fmap.
  assert (Hcases : a = pairAddress "USDC/WETH" \/ a = pairAddress "USDT/WETH" \/
                   a = pairAddress "DAI/WETH" \/ a = pairAddress "WBTC/WETH").
  { cbn [GetDefaultWatchlist Z.eqb Pos.eqb] in Hin.
    repeat (apply elem_of_cons in Hin as [Hin|Hin]; [tauto|]).
    by apply elem_of_nil in Hin. }
  destruct Hcases as [->|[->|[->| ->]]].
  - exists ("USDC/WETH"%string, pairAddress "USDC/WETH"). split; [done|].
    by apply elem_of_map_to_list.
  - exists ("USDT/WETH"%string, pairAddress "USDT/WETH"). split; [done|].
    by apply elem_of_map_to_list.
  - exists ("DAI/WETH"%string, pairAddress "DAI/WETH"). split; [done|].
    by apply elem_of_map_to_list.
  - exists ("WBTC/WETH"%string, pairAddress "WBTC/WETH"). split; [done|].
    by apply elem_of_map_to_list.
Qed.

Lemma updateContract_UniswapV2 (c : Cache) (addr : Z) (stateDB : StateReader) :
  decoders c !! addr = Some UniswapV2Decoder ->
  exists v2State,
    updateContract c addr stateDB =
    inr (mkContractState addr ContractTypeUniswapV2
           (readRequiredSlots addr stateDB ∅ (dec_RequiredSlots UniswapV2Decoder))
           (Some (DecodedUniswapV2 v2State)) 0).
Proof.
  intros Hd. eexists.
  apply (updateContract_decoded c addr stateDB UniswapV2Decoder _ Hd).
  cbn [dec_Decode UniswapV2Decoder].
  change [uniswapV2SlotToken0; uniswapV2SlotToken1; uniswapV2SlotReserves;
          uniswapV2SlotPrice0Cumulative; uniswapV2SlotPrice1Cumulative;
          uniswapV2SlotKLast] with (dec_RequiredSlots UniswapV2Decoder).
  by rewrite Decode_readRequiredSlots.
Qed.

Section Defaults.
Context {MR : MapRange}.

(** X19. The default set-up is consistent. Whatever the order in which
    the table of pairs is ranged over, [RegisterDefaultDecoders] for
    mainnet registers the Uniswap V2 decoder for every address of the
    mainnet default watchlist and changes nothing but the decoder registry;
    for any other chain the default watchlist is empty and nothing is
    registered. So a cache built from the mainnet defaults publishes every
    default pool, decoded, on every update. *)
Theorem default_setup_consistent (pairs : list (string * Z)) :
  pairs ≡ₚ map_to_list UniswapV2PairsMainnet ->
  (forall c a,
     a ∈ GetDefaultWatchlist 1 ->
     decoders (RegisterDefaultDecoders pairs c 1) !! a = Some UniswapV2Decoder) /\
  (forall c chainID,
     config (RegisterDefaultDecoders pairs c chainID) = config c /\
     current (RegisterDefaultDecoders pairs c chainID) = current c /\
     snapshots (RegisterDefaultDecoders pairs c chainID) = snapshots c /\
     watchlist (RegisterDefaultDecoders pairs c chainID) = watchlist c /\
     stats (RegisterDefaultDecoders pairs c chainID) = stats c) /\
  (forall c chainID,
     chainID ≠ 1 ->
     GetDefaultWatchlist chainID = [] /\ RegisterDefaultDecoders pairs c chainID = c) /\
  (forall cfg block stateDB a,
     Enabled cfg = true ->
     Watchlist cfg = GetDefaultWatchlist 1 ->
     a ∈ GetDefaultWatchlist 1 ->
     exists contractState v2State,
       Contracts (current (Update (RegisterDefaultDecoders pairs (New cfg) 1)
                             block stateDB).1) !! a = Some contractState /\
       Type_ contractState = ContractTypeUniswapV2 /\
       Decoded contractState = Some (DecodedUniswapV2 v2State)).
Proof.
  intros Hperm.
  assert (Hreg : forall c a,
            a ∈ GetDefaultWatchlist 1 ->
            decoders (RegisterDefaultDecoders pairs c 1) !! a = Some UniswapV2Decoder).
  { intros c a Hin. unfold RegisterDefaultDecoders. cbn [Z.eqb Pos.eqb].
    rewrite foldl_register_lookup. rewrite bool_decide_eq_true_2; [done|].
    rewrite Hperm. by apply default_watchlist_in_pairs. }
  assert (Hframe : forall c chainID,
     config (RegisterDefaultDecoders pairs c chainID) = config c /\
     current (RegisterDefaultDecoders pairs c chainID) = current c /\
     snapshots (RegisterDefaultDecoders pairs c chainID) = snapshots c /\
     watchlist (RegisterDefaultDecoders pairs c chainID) = watchlist c /\
     stats (RegisterDefaultDecoders pairs c chainID) = stats c).
  { intros c chainID. unfold RegisterDefaultDecoders.
    destruct (chainID =? 1); [apply foldl_register_frame|].
    by destruct (chainID =? 11155111). }
  split; [done|]. split; [done|]. split.
  - intros c chainID Hne. unfold GetDefaultWatchlist, RegisterDefaultDecoders.
    rewrite (proj2 (Z.eqb_neq chainID 1)) by done.
    by destruct (chainID =? 11155111).
  - intros cfg block stateDB a Hen HW Hin.
    set (c := RegisterDefaultDecoders pairs (New cfg) 1).
    destruct (Hframe (New cfg) 1) as (Hcfg & _ & _ & Hwl & _). fold c in Hcfg, Hwl.
    assert (Hen' : Enabled (config c) = true).
    { rewrite Hcfg. unfold New. cbn [config]. by destruct (_ =? _). }
    assert (Hw : watchlist c !! a = Some true).
    { rewrite Hwl, New_watchlist_lookup, HW. by rewrite bool_decide_eq_true_2. }
    rewrite Update_current by done. rewrite publishedSnapshot_contracts, Hw.
    pose proof (Hreg (New cfg) a Hin) as Hd. fold c in Hd.
    destruct (updateContract_UniswapV2 c a stateDB Hd) as [v2State ->].
    by eexists _, v2State.
Qed.

End Defaults.

Lemma default_setup_consistent_witness :
  (forall c a,
     a ∈ GetDefaultWatchlist 1 ->
     decoders (RegisterDefaultDecoders (map_to_list UniswapV2PairsMainnet) c 1) !! a =
       Some UniswapV2Decoder) /\
  (forall c chainID,
     config (RegisterDefaultDecoders (map_to_list UniswapV2PairsMainnet) c chainID)
       = config c /\
     current (RegisterDefaultDecoders (map_to_list UniswapV2PairsMainnet) c chainID)
       = current c /\
     snapshots (RegisterDefaultDecoders (map_to_list UniswapV2PairsMainnet) c chainID)
       = snapshots c /\
     watchlist (RegisterDefaultDecoders (map_to_list UniswapV2PairsMainnet) c chainID)
       = watchlist c /\
     stats (RegisterDefaultDecoders (map_to_list UniswapV2PairsMainnet) c chainID)
       = stats c) /\
  (forall c chainID,
     chainID ≠ 1 ->
     GetDefaultWatchlist chainID = [] /\
     RegisterDefaultDecoders (map_to_list UniswapV2PairsMainnet) c chainID = c) /\
  (forall cfg block stateDB a,
     Enabled cfg = true ->
     Watchlist cfg = GetDefaultWatchlist 1 ->
     a ∈ GetDefaultWatchlist 1 ->
     exists contractState v2State,
       Contracts (current (Update (RegisterDefaultDecoders
                                     (map_to_list UniswapV2PairsMainnet) (New cfg) 1)
                             block stateDB).1) !! a = Some contractState /\
       Type_ contractState = ContractTypeUniswapV2 /\
       Decoded contractState = Some (DecodedUniswapV2 v2State)).
Proof.
  apply (default_setup_consistent (map_to_list UniswapV2PairsMainnet)).
  reflexivity.
Defined.

(** ** Worked instances *)

Lemma New_heightsBelow (cfg : Config) (n : Z) : heightsBelow (New cfg) n.
Proof.
  split; unfold New; cbn [snapshots]; intros *; by rewrite lookup_empty.
Qed.

Lemma Update_snapshot_contents_witness :
  is_Some (watchlist outcomeCache !! poolAddr) /\
  Address poolContract = poolAddr /\
  LastUpdated poolContract = 0 /\
  (forall slot value,
     RawSlots poolContract !! slot = Some value -> value = poolReader poolAddr slot) /\
  match decoders outcomeCache !! poolAddr with
  | None =>
    Type_ poolContract = ContractTypeUnknown /\
    RawSlots poolContract = ∅ /\
    Decoded poolContract = None
  | Some decoder =>
    Type_ poolContract = dec_Type decoder /\
    (forall slot, is_Some (RawSlots poolContract !! slot) <->
                  slot ∈ dec_RequiredSlots decoder) /\
    dec_Decode decoder (RawSlots poolContract) = inr (Decoded poolContract)
  end.
Proof.
  apply (Update_snapshot_contents outcomeCache block100 poolReader poolAddr poolContract).
  - reflexivity.
  - vm_compute. reflexivity.
Defined.

Lemma Validate_after_Update_witness :
  Validate (Update outcomeCache block100 poolReader).1 poolReader =
    ((Update outcomeCache block100 poolReader).1, None) /\
  (forall addr,
     is_Some (Contracts (current (Update outcomeCache block100 poolReader).1) !! addr) ->
     ValidateContract (Update outcomeCache block100 poolReader).1 addr poolReader =
     (if ShadowMode (config outcomeCache)
      then set_stats (add_Hits (stats (Update outcomeCache block100 poolReader).1))
             (Update outcomeCache block100 poolReader).1
      else (Update outcomeCache block100 poolReader).1,
      None)).
Proof.
  apply (Validate_after_Update outcomeCache block100 poolReader).
  reflexivity.
Defined.

Lemma GetRawSlot_after_Update_witness :
  (watchlist outcomeCache !! poolAddr = None ->
   GetRawSlot (Update outcomeCache block100 poolReader).1 poolAddr uniswapV2SlotReserves =
   (set_stats (add_Misses (stats (Update outcomeCache block100 poolReader).1))
      (Update outcomeCache block100 poolReader).1,
    inl ErrNotFound)) /\
  (forall decoder err,
     decoders outcomeCache !! poolAddr = Some decoder ->
     dec_Decode decoder
       (readRequiredSlots poolAddr poolReader ∅ (dec_RequiredSlots decoder)) = inl err ->
     GetRawSlot (Update outcomeCache block100 poolReader).1 poolAddr uniswapV2SlotReserves =
     (set_stats (add_Misses (stats (Update outcomeCache block100 poolReader).1))
        (Update outcomeCache block100 poolReader).1,
      inl ErrNotFound)) /\
  (is_Some (watchlist outcomeCache !! poolAddr) ->
   decoders outcomeCache !! poolAddr = None ->
   GetRawSlot (Update outcomeCache block100 poolReader).1 poolAddr uniswapV2SlotReserves =
   (set_stats (add_Hits (stats (Update outcomeCache block100 poolReader).1))
      (Update outcomeCache block100 poolReader).1,
    inl (errorString ("slot " +:+ Hash_Hex uniswapV2SlotReserves +:+ " not found")))) /\
  (forall decoder decoded,
     is_Some (watchlist outcomeCache !! poolAddr) ->
     decoders outcomeCache !! poolAddr = Some decoder ->
     dec_Decode decoder
       (readRequiredSlots poolAddr poolReader ∅ (dec_RequiredSlots decoder)) = inr decoded ->
     GetRawSlot (Update outcomeCache block100 poolReader).1 poolAddr uniswapV2SlotReserves =
     (set_stats (add_Hits (stats (Update outcomeCache block100 poolReader).1))
        (Update outcomeCache block100 poolReader).1,
      if bool_decide (uniswapV2SlotReserves ∈ dec_RequiredSlots decoder)
      then inr (poolReader poolAddr uniswapV2SlotReserves)
      else inl (errorString ("slot " +:+ Hash_Hex uniswapV2SlotReserves +:+ " not found")))).
Proof.
  apply (GetRawSlot_after_Update outcomeCache block100 poolReader poolAddr
           uniswapV2SlotReserves).
  reflexivity.
Defined.

Lemma Update_history_bound_witness :
  heightsBelow (Update retentionCache retBlock3 zeroReader).1
    (Uint64 (Number retBlock3) + 1) /\
  Z.of_nat (size (snapshots (Update retentionCache retBlock3 zeroReader).1)) <=
    MaxSnapshots (config retentionCache) + 1.
Proof.
  apply (Update_history_bound retentionCache retBlock3 zeroReader).
  - reflexivity.
  - vm_compute. by split.
  - change (heightsBelow
              (Update (Update (New retentionConfig) retBlock1 zeroReader).1
                 retBlock2 zeroReader).1 (Uint64 (Number retBlock2) + 1)).
    apply (Update_heightsBelow (Update (New retentionConfig) retBlock1 zeroReader).1
             retBlock2 zeroReader); [reflexivity|].
    change (heightsBelow (Update (New retentionConfig) retBlock1 zeroReader).1
              (Uint64 (Number retBlock1) + 1)).
    apply (Update_heightsBelow (New retentionConfig) retBlock1 zeroReader);
      [reflexivity|].
    apply New_heightsBelow.
Defined.

Lemma ingest_history_bound_witness :
  Z.of_nat (size (snapshots (ingest (New retentionConfig)
                               [retBlock1; retBlock2; retBlock3; retBlock4]
                               zeroReader))) <=
    MaxSnapshots (config (New retentionConfig)) + 1.
Proof.
  apply (ingest_history_bound (New retentionConfig)
           [retBlock1; retBlock2; retBlock3; retBlock4] zeroReader).
  - reflexivity.
  - vm_compute. by split.
  - reflexivity.
  - vm_compute. by repeat split.
Defined.

Lemma negative_MaxSnapshots_keeps_everything_witness :
  snapshots (Update unboundedCache retBlock3 zeroReader).1 =
    <[Hash retBlock3 := publishedSnapshot unboundedCache retBlock3 zeroReader]>
      (snapshots unboundedCache) /\
  (forall k s, snapshots unboundedCache !! k = Some s -> k ≠ Hash retBlock3 ->
               snapshots (Update unboundedCache retBlock3 zeroReader).1 !! k = Some s).
Proof.
  apply (negative_MaxSnapshots_keeps_everything unboundedCache retBlock3 zeroReader).
  - reflexivity.
  - vm_compute. by split.
  - vm_compute. reflexivity.
Defined.

Lemma HandleReorg_rolls_back_and_replays_witness :
  (HandleReorg reorgCache reorgOldChain reorgNewChain zeroReader).2 = Returned None /\
  ((forall header, header ∈ reorgNewChain ->
                   Uint64 (Number header) <= BlockNumber reorgSnapshot1) ->
   (HandleReorg reorgCache reorgOldChain reorgNewChain zeroReader).1 =
   set_current reorgSnapshot1
     (set_stats (add_ReorgCount (stats reorgCache)) reorgCache)) /\
  (BlockNumber reorgSnapshot1 < Uint64 (Number reorgBlock3b) ->
   BlockHash (current (HandleReorg reorgCache reorgOldChain reorgNewChain
                         zeroReader).1) = Hash reorgBlock3b /\
   BlockNumber (current (HandleReorg reorgCache reorgOldChain reorgNewChain
                           zeroReader).1) = Uint64 (Number reorgBlock3b) /\
   BlockTime (current (HandleReorg reorgCache reorgOldChain reorgNewChain
                         zeroReader).1) = Time reorgBlock3b /\
   snapshots (HandleReorg reorgCache reorgOldChain reorgNewChain zeroReader).1
     !! Hash reorgBlock3b =
     Some (current (HandleReorg reorgCache reorgOldChain reorgNewChain
                      zeroReader).1)).
Proof.
  apply (HandleReorg_rolls_back_and_replays reorgCache reorgOldChain reorgNewChain
           zeroReader reorgSnapshot1 reorgBlock3b).
  - reflexivity.
  - vm_compute. reflexivity.
  - reflexivity.
Defined.

(** ** Re-importing a block, the disabled cache and the update counter *)

Lemma Cache_eq (c c' : Cache) :
  config c = config c' -> current c = current c' -> snapshots c = snapshots c' ->
  watchlist c = watchlist c' -> decoders c = decoders c' -> stats c = stats c' ->
  c = c'.
Proof. destruct c, c'; cbn; congruence. Qed.

Lemma atomic_add1_iter (x : Z) (n : nat) :
  0 <= x < 2 ^ 64 ->
  Nat.iter n atomic_add1 x = (x + Z.of_nat n) mod 2 ^ 64.
Proof.
  intros Hx. induction n as [|n IH].
  - cbn. rewrite Z.add_0_r. symmetry. by apply Z.mod_small.
  - rewrite Nat.iter_succ, IH. unfold atomic_add1.
    rewrite Zplus_mod_idemp_l. f_equal. lia.
Qed.

Section Idempotence.
Context {MR : MapRange}.

Lemma publishedSnapshot_ext (c c' : Cache) (block : Header) (stateDB : StateReader) :
  watchlist c = watchlist c' -> decoders c = decoders c' ->
  publishedSnapshot c block stateDB = publishedSnapshot c' block stateDB.
Proof.
  intros Hw Hd.
  assert (HC : Contracts (publishedSnapshot c block stateDB) =
               Contracts (publishedSnapshot c' block stateDB)).
  { apply map_eq. intros a. rewrite !publishedSnapshot_contracts, Hw.
    unfold updateContract. by rewrite Hd. }
  unfold publishedSnapshot in *. cbn [Contracts] in HC. by rewrite HC.
Qed.

(** X20. Importing the same block a second time, with the same reader,
    changes nothing but the update counter: the snapshot built is the one
    already published, it is filed under the same hash, and the sweep finds
    nothing more to delete. *)
Theorem Update_same_block_again (c : Cache) (block : Header) (stateDB : StateReader) :
  Enabled (config c) = true ->
  Update (Update c block stateDB).1 block stateDB =
  (set_stats (add_Updates (stats (Update c block stateDB).1))
     (Update c block stateDB).1,
   None).
Proof.
  intros Hen.
  pose proof (Update_config c block stateDB) as Hcfg.
  pose proof (Update_current c block stateDB Hen) as Hcur.
  pose proof (Update_snapshots_new c block stateDB Hen) as Hnew.
  pose proof (Update_retained c block stateDB Hen) as Hret.
  assert (Hp : publishedSnapshot (Update c block stateDB).1 block stateDB =
               publishedSnapshot c block stateDB).
  { apply publishedSnapshot_ext; [apply Update_watchlist|apply Update_decoders]. }
  set (c1 := (Update c block stateDB).1) in *.
  assert (Hen1 : Enabled (config c1) = true) by (by rewrite Hcfg).
  rewrite (Update_enabled c1 block stateDB Hen1), Hp.
  f_equal. rewrite (insert_id _ _ _ Hnew).
  rewrite cleanupOldSnapshots_frame.
  apply Cache_eq;
    cbn [config current snapshots watchlist decoders stats
         set_current set_snapshots set_stats]; try done.
  apply map_eq. intros k. rewrite cleanupOldSnapshots_lookup.
  unfold cutoffOf.
  cbn [config current snapshots watchlist decoders stats
       set_current set_snapshots set_stats].
  rewrite Hcfg.
  destruct (_ <=? _) eqn:Hsz; [done|]. apply Z.leb_gt in Hsz.
  destruct (snapshots c1 !! k) as [s|] eqn:Hk; [|done].
  rewrite bool_decide_eq_false_2; [done|].
  destruct Hret as [Hle|Hcut]; [lia|].
  specialize (Hcut k s Hk). unfold cutoffOf in Hcut. lia.
Qed.

(** X21. A disabled cache is inert: [Update] and [HandleReorg] return nil
    and leave it as it is, whatever the arguments ([HandleReorg] does not
    even panic on an empty new chain), so any run of updates leaves it as
    it is, and the node reports no hot cache. A cache created disabled
    therefore keeps its empty initial snapshot, and [Validate] finds
    nothing to compare. *)
Theorem disabled_cache_is_inert (c : Cache) (block : Header)
    (oldChain newChain headers : list Header) (stateDB : StateReader) :
  Enabled (config c) = false ->
  Update c block stateDB = (c, None) /\
  HandleReorg c oldChain newChain stateDB = (c, Returned None) /\
  ingest c headers stateDB = c /\
  HotCache (mkBlockChain (Some c)) = None /\
  (forall cfg, c = New cfg ->
     current (ingest c headers stateDB) = mkSnapshot 0 0 0 ∅ /\
     snapshots (ingest c headers stateDB) = ∅ /\
     Validate (ingest c headers stateDB) stateDB = (c, None)).
Proof.
  intros Hen.
  assert (Hing : ingest c headers stateDB = c).
  { unfold ingest. induction headers as [|header rest IH]; [done|].
    cbn [foldl]. by rewrite Update_disabled. }
  split; [by apply Update_disabled|].
  split; [unfold HandleReorg; by rewrite Hen|].
  split; [done|].
  split; [unfold HotCache, IsEnabled; cbn; by rewrite Hen|].
  intros cfg ->. rewrite Hing. split; [done|]. split; [done|].
  unfold Validate. destruct (negb _); [done|].
  assert (Hr : range (Contracts (GetSnapshot (New cfg))) = []).
  { apply Permutation_nil_r. rewrite range_perm.
    unfold GetSnapshot, New. cbn [current Contracts]. by rewrite map_to_list_empty. }
  by rewrite Hr.
Qed.

(** X22. The update counter counts the calls that were not refused: after
    a run of [Update] calls on an enabled cache it has grown by their
    number, modulo [2^64]; a reorg with the ancestor in the history adds one
    for each header of the new chain above the ancestor, and a reorg
    without it adds exactly one (for the tip). *)
Theorem Updates_counts_imports (c : Cache) (headers oldChain newChain : list Header)
    (stateDB : StateReader) :
  Enabled (config c) = true ->
  0 <= Updates (stats c) < 2 ^ 64 ->
  Updates (stats (ingest c headers stateDB)) =
    (Updates (stats c) + Z.of_nat (length headers)) mod 2 ^ 64 /\
  (forall commonSnapshot,
     snapshots c !! findCommonAncestor oldChain newChain = Some commonSnapshot ->
     Updates (stats (HandleReorg c oldChain newChain stateDB).1) =
       (Updates (stats c) +
        Z.of_nat (length (filter (fun header =>
                                    ¬ Uint64 (Number header) <=
                                      BlockNumber commonSnapshot) newChain)))
       mod 2 ^ 64) /\
  (snapshots c !! findCommonAncestor oldChain newChain = None ->
   newChain ≠ [] ->
   Updates (stats (HandleReorg c oldChain newChain stateDB).1) =
     atomic_add1 (Updates (stats c))).
Proof.
  intros Hen Hu.
  assert (Hfold : forall (l : list Header) (c' : Cache),
            Enabled (config c') = true ->
            Updates (stats (foldl (fun c header => (Update c header stateDB).1) c' l)) =
            Nat.iter (length l) atomic_add1 (Updates (stats c'))).
  { intros l. induction l as [|header rest IH] using rev_ind; intros c' Hen'; [done|].
    rewrite foldl_app. cbn [foldl]. rewrite Update_stats.
    - cbn [Updates add_Updates]. rewrite IH by done.
      rewrite length_app. cbn [length]. rewrite Nat.add_1_r. done.
    - by destruct (foldl_Update_frame stateDB rest c') as (-> & _). }
  split; [|split].
  - unfold ingest. rewrite Hfold by done. by apply atomic_add1_iter.
  - intros commonSnapshot Hc.
    rewrite (HandleReorg_found _ _ _ _ _ Hen Hc). cbn [fst].
    rewrite Hfold by done. by apply atomic_add1_iter.
  - intros Hc Hne. rewrite (HandleReorg_fallback _ _ _ _ Hen Hc).
    destruct (last newChain) as [tip|] eqn:Htip.
    + cbn [fst]. by rewrite Update_stats.
    + by apply last_None in Htip.
Qed.

End Idempotence.

Lemma Update_same_block_again_witness :
  Update (Update outcomeCache block100 poolReader).1 block100 poolReader =
  (set_stats (add_Updates (stats (Update outcomeCache block100 poolReader).1))
     (Update outcomeCache block100 poolReader).1,
   None).
Proof.
  apply (Update_same_block_again outcomeCache block100 poolReader).
  reflexivity.
Defined.

Lemma disabled_cache_is_inert_witness :
  Update (New DefaultConfig) block100 poolReader = (New DefaultConfig, None) /\
  HandleReorg (New DefaultConfig) reorgOldChain [] poolReader =
    (New DefaultConfig, Returned None) /\
  ingest (New DefaultConfig) reorgNewChain poolReader = New DefaultConfig /\
  HotCache (mkBlockChain (Some (New DefaultConfig))) = None /\
  (forall cfg, New DefaultConfig = New cfg ->
     current (ingest (New DefaultConfig) reorgNewChain poolReader) =
       mkSnapshot 0 0 0 ∅ /\
     snapshots (ingest (New DefaultConfig) reorgNewChain poolReader) = ∅ /\
     Validate (ingest (New DefaultConfig) reorgNewChain poolReader) poolReader =
       (New DefaultConfig, None)).
Proof.
  apply (disabled_cache_is_inert (New DefaultConfig) block100 reorgOldChain []
           reorgNewChain poolReader).
  reflexivity.
Defined.

Lemma Updates_counts_imports_witness :
  Updates (stats (ingest reorgCache reorgNewChain zeroReader)) =
    (Updates (stats reorgCache) + Z.of_nat (length reorgNewChain)) mod 2 ^ 64 /\
  (forall commonSnapshot,
     snapshots reorgCache !! findCommonAncestor reorgOldChain reorgNewChain =
       Some commonSnapshot ->
     Updates (stats (HandleReorg reorgCache reorgOldChain reorgNewChain
                       zeroReader).1) =
       (Updates (stats reorgCache) +
        Z.of_nat (length (filter (fun header =>
                                    ¬ Uint64 (Number header) <=
                                      BlockNumber commonSnapshot) reorgNewChain)))
       mod 2 ^ 64) /\
  (snapshots reorgCache !! findCommonAncestor reorgOldChain reorgNewChain = None ->
   reorgNewChain ≠ [] ->
   Updates (stats (HandleReorg reorgCache reorgOldChain reorgNewChain
                     zeroReader).1) =
     atomic_add1 (Updates (stats reorgCache))).
Proof.
  apply (Updates_counts_imports reorgCache reorgNewChain reorgOldChain reorgNewChain
           zeroReader).
  - reflexivity.
  - vm_compute. by split.
Defined.
